(** * WooCommerce SDK: request execution engine

    A shallow embedding of the core of the SDK
    ([utils.ts], [errors.ts], [client/base-client.ts],
    [client/products-client.ts]) and the properties of its specification.

    Conventions of the embedding.
    - A JavaScript string is a [string] holding the UTF-8 bytes of a
      well-formed text; a JavaScript number is either [NaN] or an integer
      ([Num z]); fractional numbers and infinities are outside the model.
    - The built-ins of the language are written out where their result
      is the same on every engine, for ASCII text and for the integers
      below [2^53], and are left to the [Engine] everywhere else.
    - An [async] function is a state transformer over a world [W] that
      either returns or throws ([Completion]); [await] is sequencing.
    - A [while] loop whose length the code does not bound runs on fuel and
      answers [None] when the fuel is used up. *)

From Stdlib Require Import ZArith List Bool Ascii String Lia.
From Stdlib Require Import Numbers.DecimalString.
Import ListNotations.

Set Warnings "-register-all".

Open Scope string_scope.
Open Scope Z_scope.

(* ================================================================= *)
(** ** JavaScript values *)

Module Js.

(** Numbers: [NaN] or an integer.  The integers below [2^53] in
    magnitude are the safe integers, which every engine holds and
    writes exactly; beyond them a number is rounded to a double and
    what is made of it is the engine's. *)
Inductive JsNumber : Type :=
| NaN : JsNumber
| Num (z : Z) : JsNumber.

(** [Number.isSafeInteger]. *)
Definition isSafeInteger (z : Z) : bool := Z.abs z <? 2 ^ 53.

(** An ASCII character is a byte below 128; a byte from 128 on is
    part of a longer character. *)
Definition isAsciiChar (c : ascii) : bool := (nat_of_ascii c <? 128)%nat.

(** A text of ASCII characters only. *)
Fixpoint isAscii (s : string) : bool :=
  match s with
  | EmptyString => true
  | String c rest => isAsciiChar c && isAscii rest
  end.

(** The values that travel through the SDK: query parameters, JSON
    bodies, thrown primitives.  An object is the list of its own
    enumerable properties in [Object.entries] order. *)
Inductive JsValue : Type :=
| JUndefined : JsValue
| JNull : JsValue
| JBool (b : bool) : JsValue
| JNum (n : JsNumber) : JsValue
| JStr (s : string) : JsValue
| JArr (items : list JsValue) : JsValue
| JObj (props : list (string * JsValue)) : JsValue.

(** What is left to the JavaScript engine. *)
Class Engine : Type := {
    (** [s.toLowerCase()] and [s.toUpperCase()] for a text that has
        characters outside ASCII *)
    lowerCaseOf : string -> string;
    upperCaseOf : string -> string;
    (** [String(n)] for an integer that is not safe: rounded, and in
        exponent notation from [1e21] on *)
    unsafeNumberToString : Z -> string;
    (** [parseInt(s, 10)] for a text that, after its ASCII white space,
        goes on outside ASCII (where more white space may follow), or
        whose digits denote more than [2^53] (where the result is
        rounded) *)
    parseIntOf : string -> JsNumber;
    (** the most arguments one call takes: [target.push(...items)]
        with more items throws a [RangeError] *)
    argumentLimit : Z;
    (** the message of that [RangeError] *)
    argumentLimitMessage : string
  }.

(** [Array.prototype.join]: [undefined] and [null] elements give the
    empty string. *)
Definition joinWith (sep : string) (parts : list string) : string :=
  String.concat sep parts.

Section Conversions.

Context {engine : Engine}.

(** [String(n)]: a safe integer is written in decimal. *)
Definition numberToString (n : JsNumber) : string :=
  match n with
  | NaN => "NaN"
  | Num z =>
      if isSafeInteger z then NilZero.string_of_int (Z.to_int z)
      else unsafeNumberToString z
  end.

(** [String(v)] (the ToString conversion). *)
Fixpoint toString (v : JsValue) : string :=
  match v with
  | JUndefined => "undefined"
  | JNull => "null"
  | JBool true => "true"
  | JBool false => "false"
  | JNum n => numberToString n
  | JStr s => s
  | JArr items =>
      joinWith ","
        (map (fun item =>
                match item with
                | JUndefined | JNull => ""
                | _ => toString item
                end) items)
  | JObj _ => "[object Object]"
  end.

End Conversions.

(** ToBoolean: the falsy values are [undefined], [null], [false], [0],
    [NaN] and the empty string. *)
Definition truthy (v : JsValue) : bool :=
  match v with
  | JUndefined | JNull => false
  | JBool b => b
  | JNum NaN => false
  | JNum (Num z) => negb (z =? 0)
  | JStr s => negb (String.eqb s "")
  | JArr _ | JObj _ => true
  end.

(** [a || b] on values. *)
Definition or (a b : JsValue) : JsValue := if truthy a then a else b.

(** [v === undefined || v === null]. *)
Definition isNullish (v : JsValue) : bool :=
  match v with
  | JUndefined | JNull => true
  | _ => false
  end.

(** Own-property lookup in an entries list; a missing key reads as
    [undefined]. *)
Fixpoint lookup (key : string) (props : list (string * JsValue)) : JsValue :=
  match props with
  | [] => JUndefined
  | (k, v) :: rest => if String.eqb k key then v else lookup key rest
  end.

(** Optional chaining [v?.key] for the keys the SDK reads ([message],
    [data], [params]).  Nullish receivers short-circuit to [undefined];
    primitives and arrays have no property of these names. *)
Definition optGet (v : JsValue) (key : string) : JsValue :=
  match v with
  | JObj props => lookup key props
  | _ => JUndefined
  end.

(** [arr.push(x)], as the new contents of the array. *)
Definition push {A : Type} (arr : list A) (x : A) : list A :=
  (arr ++ [x])%list.

(** Case mapping of ASCII characters. *)
Definition lowerChar (c : ascii) : ascii :=
  let n := nat_of_ascii c in
  if ((65 <=? n) && (n <=? 90))%nat then ascii_of_nat (n + 32) else c.

Definition upperChar (c : ascii) : ascii :=
  let n := nat_of_ascii c in
  if ((97 <=? n) && (n <=? 122))%nat then ascii_of_nat (n - 32) else c.

Fixpoint mapString (f : ascii -> ascii) (s : string) : string :=
  match s with
  | EmptyString => EmptyString
  | String c rest => String (f c) (mapString f rest)
  end.

(** [s.toLowerCase()] and [s.toUpperCase()]: an ASCII text is mapped
    letter by letter. *)
Definition toLowerCase {engine : Engine} (s : string) : string :=
  if isAscii s then mapString lowerChar s else lowerCaseOf s.

Definition toUpperCase {engine : Engine} (s : string) : string :=
  if isAscii s then mapString upperChar s else upperCaseOf s.

(** [obj[key] = value] on an entries list: an existing key keeps its
    place, a new key goes last. *)
Fixpoint setProp {V : Type} (obj : list (string * V)) (key : string) (value : V)
  : list (string * V) :=
  match obj with
  | [] => [(key, value)]
  | (k, v) :: rest =>
      if String.eqb k key then (k, value) :: rest
      else (k, v) :: setProp rest key value
  end.

(** [{...target, ...source}]. *)
Definition spread {V : Type} (target source : list (string * V))
  : list (string * V) :=
  fold_left (fun obj kv => setProp obj (fst kv) (snd kv)) source target.

(** [obj[key]] on an entries list. *)
Fixpoint getProp {V : Type} (obj : list (string * V)) (key : string) : option V :=
  match obj with
  | [] => None
  | (k, v) :: rest => if String.eqb k key then Some v else getProp rest key
  end.

(** [s.startsWith(p)]. *)
Definition startsWith (s p : string) : bool := String.prefix p s.

(** [s.includes(p)]. *)
Fixpoint includes (s p : string) : bool :=
  if String.prefix p s then true
  else match s with
       | EmptyString => false
       | String _ rest => includes rest p
       end.

End Js.

Import Js.

(* ================================================================= *)
(** ** Completions *)

(** The outcome of running a piece of code: a normal return, or a throw
    of a value of type [E]. *)
Inductive Completion (E A : Type) : Type :=
| Return (a : A) : Completion E A
| Throw (e : E) : Completion E A.

Arguments Return {E A} a.
Arguments Throw {E A} e.

(* ================================================================= *)
(** ** errors.ts *)

Module Errors.

(** The class an error object was constructed by.  [ClsError] stands for
    the built-in [Error] and every subclass outside the SDK
    ([TypeError], [DOMException], ...). *)
Inductive ErrorClass : Type :=
| ClsError
| ClsWooCommerceError
| ClsAuthenticationError
| ClsAuthorizationError
| ClsNotFoundError
| ClsValidationError
| ClsRateLimitError
| ClsNetworkError
| ClsAPIError.

Definition ErrorClass_eqb (a b : ErrorClass) : bool :=
  match a, b with
  | ClsError, ClsError
  | ClsWooCommerceError, ClsWooCommerceError
  | ClsAuthenticationError, ClsAuthenticationError
  | ClsAuthorizationError, ClsAuthorizationError
  | ClsNotFoundError, ClsNotFoundError
  | ClsValidationError, ClsValidationError
  | ClsRateLimitError, ClsRateLimitError
  | ClsNetworkError, ClsNetworkError
  | ClsAPIError, ClsAPIError => true
  | _, _ => false
  end.

(** An error object.  Fields a class does not declare are [None] or
    [JUndefined]. *)
Inductive ErrorObj : Type :=
  mkError {
      cls : ErrorClass;
      name : string;
      message : string;
      statusCode : option Z;
      response : JsValue;
      errors : JsValue;
      retryAfter : option JsNumber;
      originalError : option ErrorObj
    }.

(** Anything JavaScript can throw: an [Error] instance or another
    value. *)
Inductive Thrown : Type :=
| ThrownError (e : ErrorObj)
| ThrownValue (v : JsValue).

(** [error instanceof WooCommerceError]. *)
Definition instanceofWooCommerceError (e : ErrorObj) : bool :=
  negb (ErrorClass_eqb (cls e) ClsError).

(** A parameter with a default value: the default replaces
    [undefined]. *)
Definition withDefault (dflt : string) (v : JsValue) : JsValue :=
  match v with
  | JUndefined => JStr dflt
  | _ => v
  end.

Section Constructors.

Context {engine : Engine}.

(** The [message] an [Error] gets from the argument of its constructor:
    the empty string for [undefined], [String(msg)] otherwise. *)
Definition errorMessage (msg : JsValue) : string :=
  match msg with
  | JUndefined => ""
  | _ => toString msg
  end.

(** [new Error(message)]. *)
Definition newError (msg : JsValue) : ErrorObj :=
  mkError ClsError "Error" (errorMessage msg) None JUndefined JUndefined None None.

(** [new WooCommerceError(message, statusCode, response)]; the
    subclasses call it as [super] and then set their own [name] and
    prototype. *)
Definition WooCommerceError
  (msg : JsValue) (status : option Z) (resp : JsValue) : ErrorObj :=
  mkError ClsWooCommerceError "WooCommerceError" (errorMessage msg)
    status resp JUndefined None None.

Definition subclass (c : ErrorClass) (n : string) (base : ErrorObj) : ErrorObj :=
  mkError c n (message base) (statusCode base) (response base)
    (errors base) (retryAfter base) (originalError base).

Definition WooCommerceAuthenticationError (msg resp : JsValue) : ErrorObj :=
  subclass ClsAuthenticationError "WooCommerceAuthenticationError"
    (WooCommerceError (withDefault "Authentication failed" msg) (Some 401) resp).

Definition WooCommerceAuthorizationError (msg resp : JsValue) : ErrorObj :=
  subclass ClsAuthorizationError "WooCommerceAuthorizationError"
    (WooCommerceError
       (withDefault "Authorization failed - insufficient permissions" msg)
       (Some 403) resp).

Definition WooCommerceNotFoundError (msg resp : JsValue) : ErrorObj :=
  subclass ClsNotFoundError "WooCommerceNotFoundError"
    (WooCommerceError (withDefault "Resource not found" msg) (Some 404) resp).

Definition WooCommerceValidationError
  (msg : JsValue) (status : option Z) (resp errs : JsValue) : ErrorObj :=
  let base :=
    WooCommerceError (withDefault "Validation failed" msg)
      (match status with None => Some 400 | Some s => Some s end) resp in
  mkError ClsValidationError "WooCommerceValidationError" (message base)
    (statusCode base) (response base) errs None None.

Definition WooCommerceRateLimitError
  (msg resp : JsValue) (retry : option JsNumber) : ErrorObj :=
  let base :=
    WooCommerceError (withDefault "Rate limit exceeded" msg) (Some 429) resp in
  mkError ClsRateLimitError "WooCommerceRateLimitError" (message base)
    (statusCode base) (response base) JUndefined retry None.

Definition WooCommerceNetworkError
  (msg : JsValue) (orig : option ErrorObj) : ErrorObj :=
  let base :=
    WooCommerceError (withDefault "Network request failed" msg) None JUndefined in
  mkError ClsNetworkError "WooCommerceNetworkError" (message base)
    (statusCode base) (response base) JUndefined None orig.

Definition WooCommerceAPIError
  (msg : JsValue) (status : option Z) (resp : JsValue) : ErrorObj :=
  subclass ClsAPIError "WooCommerceAPIError"
    (WooCommerceError (withDefault "WooCommerce API error" msg)
       (match status with None => Some 500 | Some s => Some s end) resp).

(** The error of a call with more arguments than the engine takes. *)
Definition rangeError : ErrorObj :=
  mkError ClsError "RangeError" argumentLimitMessage None JUndefined
    JUndefined None None.

End Constructors.

End Errors.

Import Errors.

(** What an [async] function of the SDK settles to. *)
Definition Outcome (A : Type) : Type := Completion Thrown A.

(** [target.push(...items)], as the new contents of [target]: the items
    are the arguments of one call. *)
Definition pushSpread {engine : Engine} {A : Type} (target items : list A)
  : Outcome (list A) :=
  if argumentLimit <? Z.of_nat (List.length items)
  then Throw (ThrownError rangeError)
  else Return (target ++ items)%list.

(* ================================================================= *)
(** ** Asynchronous code *)

Module Async.

(** An [async] function over the world [W]: it transforms the world and
    settles to a value or to a thrown value. *)
Definition Async (W A : Type) : Type := W -> Outcome A * W.

Definition ret {W A} (a : A) : Async W A := fun w => (Return a, w).

Definition throw {W A} (t : Thrown) : Async W A := fun w => (Throw t, w).

(** [const x = await c; k x]: a throw of [c] skips [k]. *)
Definition bind {W A B} (c : Async W A) (k : A -> Async W B) : Async W B :=
  fun w =>
    match c w with
    | (Return a, w') => k a w'
    | (Throw t, w') => (Throw t, w')
    end.

(** [try { c } catch (error) { handler error }]. *)
Definition tryCatch {W A} (c : Async W A) (handler : Thrown -> Async W A)
  : Async W A :=
  fun w =>
    match c w with
    | (Return a, w') => (Return a, w')
    | (Throw t, w') => handler t w'
    end.

(** What the code asks of the host's timers when it pauses. *)
Class Timers (W : Type) : Type := {
    (** [await new Promise(resolve => setTimeout(resolve, ms))] *)
    timerResolve : JsNumber -> W -> W
  }.

End Async.

Import Async.

Notation "x <- c ;; k" := (bind c (fun x => k))
  (at level 61, c at next level, right associativity).

(* ================================================================= *)
(** ** utils.ts *)

Module Utils.

(** *** encodeURIComponent *)

(** The characters [encodeURIComponent] leaves as they are:
    [A-Z a-z 0-9 - _ . ! ~ * ' ( )]. *)
Definition unreserved (c : ascii) : bool :=
  let n := nat_of_ascii c in
  ((65 <=? n) && (n <=? 90))%nat
  || ((97 <=? n) && (n <=? 122))%nat
  || ((48 <=? n) && (n <=? 57))%nat
  || existsb (Ascii.eqb c)
       ["-"; "_"; "."; "!"; "~"; "*"; "'"; "("; ")"]%char.

Definition hexDigit (n : nat) : ascii :=
  nth n ["0"; "1"; "2"; "3"; "4"; "5"; "6"; "7"; "8"; "9";
         "A"; "B"; "C"; "D"; "E"; "F"]%char "0"%char.

(** [%XX], upper-case hexadecimal. *)
Definition percentEncode (c : ascii) : string :=
  let n := nat_of_ascii c in
  String "%" (String (hexDigit (n / 16)) (String (hexDigit (n mod 16)) "")).

(** Every byte of the UTF-8 form that is not unreserved is escaped. *)
Fixpoint encodeURIComponent (s : string) : string :=
  match s with
  | EmptyString => EmptyString
  | String c rest =>
      (if unreserved c then String c "" else percentEncode c)
        ++ encodeURIComponent rest
  end.

(** *** buildQueryString *)

Section BuildQueryString.

Context {engine : Engine}.

(** [JSON.stringify], the host's serializer. *)
Variable JSON_stringify : JsValue -> string.

(** One turn of [for (const [key, value] of Object.entries(params))]:
    what the body pushes onto [queryParts]. *)
Definition pushParam (queryParts : list string) (entry : string * JsValue)
  : list string :=
  let '(key, value) := entry in
  if isNullish value then queryParts
  else
    match value with
    | JArr items =>
        let arrayKey := key ++ "[]" in
        fold_left
          (fun parts item =>
             push parts
               (encodeURIComponent arrayKey ++ "="
                  ++ encodeURIComponent (toString item)))
          items queryParts
    | JObj _ =>
        push queryParts
          (encodeURIComponent key ++ "="
             ++ encodeURIComponent (JSON_stringify value))
    | _ =>
        push queryParts
          (encodeURIComponent key ++ "="
             ++ encodeURIComponent (toString value))
    end.

Definition queryParts (params : list (string * JsValue)) : list string :=
  fold_left pushParam params [].

Definition buildQueryString (params : list (string * JsValue)) : string :=
  joinWith "&" (queryParts params).

End BuildQueryString.

(** *** parseInt(s, 10) *)

(** The ASCII characters among the white space and line terminators
    [parseInt] skips: tab, line feed, vertical tab, form feed, carriage
    return, space. *)
Definition isWhiteSpace (c : ascii) : bool :=
  let n := nat_of_ascii c in
  ((9 <=? n) && (n <=? 13))%nat || (n =? 32)%nat.

Fixpoint trimStart (s : string) : string :=
  match s with
  | String c rest => if isWhiteSpace c then trimStart rest else s
  | EmptyString => EmptyString
  end.

Definition digitValue (c : ascii) : option Z :=
  let n := nat_of_ascii c in
  if ((48 <=? n) && (n <=? 57))%nat then Some (Z.of_nat (n - 48)) else None.

(** The value of the longest prefix of decimal digits, [None] when the
    string does not start with a digit. *)
Fixpoint leadingDigits (acc : option Z) (s : string) : option Z :=
  match s with
  | EmptyString => acc
  | String c rest =>
      match digitValue c with
      | Some d =>
          leadingDigits
            (Some (10 * match acc with Some a => a | None => 0 end + d)) rest
      | None => acc
      end
  end.

(** [parseInt(s, 10)].  A text that goes on with an ASCII character
    after its ASCII white space has no more white space to skip: an
    optional sign and the longest run of digits decide, and a value up
    to [2^53] is exact. *)
Definition parseInt10 {engine : Engine} (s : string) : JsNumber :=
  let trimmed := trimStart s in
  match trimmed with
  | EmptyString => NaN
  | String c _ =>
      if negb (isAsciiChar c) then parseIntOf s
      else
        let '(sign, digits) :=
          match trimmed with
          | String "-" rest => (-1, rest)
          | String "+" rest => (1, rest)
          | _ => (1, trimmed)
          end in
        match leadingDigits None digits with
        | Some v => if v <=? 2 ^ 53 then Num (sign * v) else parseIntOf s
        | None => NaN
        end
  end.

(** *** sleep and retryWithBackoff *)

Section Retry.

Context {engine : Engine} {W T : Type} `{Timers W}.

Definition sleep (ms : JsNumber) : Async W unit :=
  fun w => (Return tt, timerResolve ms w).

(** The values [attempt] takes in
    [for (let attempt = 0; attempt <= maxRetries; attempt++)]. *)
Definition attemptsUpTo (maxRetries : Z) : list Z :=
  map Z.of_nat (seq 0 (Z.to_nat (maxRetries + 1))).

Variable fn : Async W T.

(** The loop, one turn per value of [attempt]; after the last turn
    comes [throw lastError]. *)
Fixpoint retryLoop (maxRetries baseDelay : Z) (attempts : list Z)
  (lastError : Thrown) : Async W T :=
  match attempts with
  | [] => throw lastError
  | attempt :: rest =>
      tryCatch fn
        (fun error =>
           let lastError' :=
             match error with
             | ThrownError e => e
             | ThrownValue v => newError (JStr (toString v))
             end in
           _ <- (if attempt <? maxRetries
                 then sleep (Num (baseDelay * 2 ^ attempt))
                 else ret tt) ;;
           retryLoop maxRetries baseDelay rest (ThrownError lastError'))
  end.

(** [maxRetries] and [baseDelay] default to 3 and 1000, and here are
    integers; [lastError] starts out [undefined]. *)
Definition retryWithBackoff (maxRetries baseDelay : option Z) : Async W T :=
  let maxRetries := match maxRetries with Some m => m | None => 3 end in
  let baseDelay := match baseDelay with Some d => d | None => 1000 end in
  retryLoop maxRetries baseDelay (attemptsUpTo maxRetries)
    (ThrownValue JUndefined).

End Retry.

(** *** normalizeUrl *)

(** [url.replace(/\/$/, '')]: the pattern has no flags, so [$] is the end
    of the input and at most one slash goes. *)
Fixpoint removeTrailingSlash (url : string) : string :=
  match url with
  | EmptyString => EmptyString
  | String c EmptyString => if Ascii.eqb c "/" then EmptyString else url
  | String c rest => String c (removeTrailingSlash rest)
  end.

Definition normalizeUrl (url : string) : string :=
  if String.eqb url "" then ""
  else
    let normalized := removeTrailingSlash url in
    if negb (startsWith normalized "http://")
       && negb (startsWith normalized "https://")
    then "https://" ++ normalized
    else normalized.

End Utils.

(* ================================================================= *)
(** ** client/base-client.ts *)

Module BaseClient.

(** [WooCommerceConfig]. *)
Record WooCommerceConfig : Type := {
    url : string;
    consumerKey : string;
    consumerSecret : string;
    version : option string;
    timeout : option Z;
    queryStringAuth : option bool
  }.

(** The part of [RequestInit] the SDK sets. *)
Record RequestInit : Type := {
    method : option string;
    headers : list (string * string);
    body : option string
  }.

(** The part of a fetch [Response] the SDK reads.  [headers] is keyed by
    lower-case names, as [Headers.get] looks them up; [json] is what
    [response.json()] settles to. *)
Record Response : Type := {
    ok : bool;
    status : Z;
    statusText : string;
    respHeaders : list (string * string);
    json : Outcome JsValue
  }.

Definition TimerId : Type := nat.

(** The host: [fetch], the abort timer and the OAuth 1.0a library. *)
Class Host (W : Type) : Type := {
    (** [new AbortController()] with
        [setTimeout(() => controller.abort(), ms)] *)
    setAbortTimeout : Z -> W -> TimerId * W;
    clearTimeout : TimerId -> W -> W;
    (** [fetch(url, { ...init, signal })], the signal being the one the
        timer aborts *)
    fetch : string -> RequestInit -> TimerId -> Async W Response;
    (** [oauth.toHeader(oauth.authorize({ url, method })).Authorization]
        for the consumer [(key, secret)]; nonce and timestamp come from
        the world *)
    oauthAuthorization : string * string -> string -> string -> W -> string * W
  }.

(** The state of a constructed client. *)
Record Client : Type := {
    baseUrl : string;
    clientVersion : string;
    clientTimeout : Z;
    clientQueryStringAuth : bool;
    clientConsumerKey : string;
    clientConsumerSecret : string;
    oauth : option (string * string)
  }.

Definition constructor (config : WooCommerceConfig) : Client :=
  let baseUrl := Utils.normalizeUrl (url config) in
  let version :=
    match version config with
    | Some v => if String.eqb v "" then "wc/v3" else v
    | None => "wc/v3"
    end in
  let timeout :=
    match timeout config with
    | Some t => if t =? 0 then 30000 else t
    | None => 30000
    end in
  let queryStringAuth :=
    match queryStringAuth config with
    | Some b => b
    | None => startsWith baseUrl "https://"
    end in
  {| baseUrl := baseUrl;
     clientVersion := version;
     clientTimeout := timeout;
     clientQueryStringAuth := queryStringAuth;
     clientConsumerKey := consumerKey config;
     clientConsumerSecret := consumerSecret config;
     oauth := if negb queryStringAuth
              then Some (consumerKey config, consumerSecret config)
              else None |}.

Section Requests.

Context {engine : Engine} {W : Type} `{Host W}.
Variable JSON_stringify : JsValue -> string.
Variable this : Client.

(** The [catch] block of [request], after [clearTimeout]: the value it
    throws for the caught [error]. *)
Definition requestCatch (error : Thrown) : ErrorObj :=
  match error with
  | ThrownError e =>
      let normalizedMessage := toLowerCase (message e) in
      if String.eqb (name e) "AbortError"
      then WooCommerceNetworkError (JStr "Request timeout") (Some e)
      else if includes normalizedMessage "fetch"
              || includes normalizedMessage "network"
              || includes normalizedMessage "econnrefused"
      then WooCommerceNetworkError (JStr "Network request failed") (Some e)
      else if instanceofWooCommerceError e then e
      else WooCommerceError (JStr (message e)) None JUndefined
  | ThrownValue _ =>
      WooCommerceError (JStr "Unknown error occurred") None JUndefined
  end.

Definition handleErrorResponse (response : Response) : Async W unit :=
  let errorData :=
    match json response with
    | Return data => data
    | Throw _ => JUndefined
    end in
  let message :=
    or (optGet errorData "message")
      (or (JStr (statusText response)) (JStr "Request failed")) in
  let status := status response in
  if status =? 401 then
    throw (ThrownError (WooCommerceAuthenticationError message errorData))
  else if status =? 403 then
    throw (ThrownError (WooCommerceAuthorizationError message errorData))
  else if status =? 404 then
    throw (ThrownError (WooCommerceNotFoundError message errorData))
  else if (status =? 400) || (status =? 422) then
    throw (ThrownError
             (WooCommerceValidationError message (Some status) errorData
                (optGet (optGet errorData "data") "params")))
  else if status =? 429 then
    let retryAfter := getProp (respHeaders response) "retry-after" in
    throw (ThrownError
             (WooCommerceRateLimitError message errorData
                (match retryAfter with
                 | Some h =>
                     if negb (String.eqb h "")
                     then Some (Utils.parseInt10 h) else None
                 | None => None
                 end)))
  else if status >=? 500 then
    throw (ThrownError (WooCommerceAPIError message (Some status) errorData))
  else
    throw (ThrownError (WooCommerceError message (Some status) errorData)).

(** [request] up to its [try]: the URL and the init the [fetch] is
    made with, and the abort timer. *)
Definition prepare (endpoint : string) (options : RequestInit)
  : W -> (string * RequestInit * TimerId) * W :=
  let url :=
    baseUrl this ++ "/wp-json/" ++ clientVersion this ++ "/" ++ endpoint in
  let method :=
    toUpperCase
      (match method options with
       | Some m => if String.eqb m "" then "GET" else m
       | None => "GET"
       end) in
  fun w =>
    (* Build request URL with authentication *)
    let '(requestUrl, options, w) :=
      if clientQueryStringAuth this then
        let separator := if includes url "?" then "&" else "?" in
        (url ++ separator ++ "consumer_key="
           ++ Utils.encodeURIComponent (clientConsumerKey this)
           ++ "&consumer_secret="
           ++ Utils.encodeURIComponent (clientConsumerSecret this),
         options, w)
      else
        match oauth this with
        | Some consumer =>
            let '(authHeader, w) := oauthAuthorization consumer url method w in
            (url,
             {| method := BaseClient.method options;
                headers := setProp (headers options) "Authorization" authHeader;
                body := body options |},
             w)
        | None => (url, options, w)
        end in
    (* Set default headers *)
    let headers :=
      spread
        [("Content-Type", "application/json");
         ("Accept", "application/json");
         ("User-Agent", "WooCommerce-SDK/1.0")]
        (headers options) in
    (* Create abort controller for timeout *)
    let '(timeoutId, w) := setAbortTimeout (clientTimeout this) w in
    ((requestUrl,
      {| method := BaseClient.method options;
         headers := headers;
         body := body options |},
      timeoutId),
     w).

(** The [try] block of [request]. *)
Definition attempt (requestUrl : string) (init : RequestInit)
  (timeoutId : TimerId) : Async W JsValue :=
  response <- fetch requestUrl init timeoutId ;;
  _ <- (fun w => (Return tt, clearTimeout timeoutId w)) ;;
  _ <- (if negb (ok response)
        then handleErrorResponse response else ret tt) ;;
  if status response =? 204 then ret (JObj [])
  else fun w => (json response, w).

Definition request (endpoint : string) (options : RequestInit)
  : Async W JsValue :=
  fun w =>
    let '((requestUrl, init, timeoutId), w) := prepare endpoint options w in
    tryCatch
      (attempt requestUrl init timeoutId)
      (fun error w =>
         (Throw (ThrownError (requestCatch error)), clearTimeout timeoutId w))
      w.

Definition get (endpoint : string) (params : option (list (string * JsValue)))
  : Async W JsValue :=
  let url :=
    match params with
    | Some ((_ :: _) as params) =>
        let queryString := Utils.buildQueryString JSON_stringify params in
        endpoint ++ (if includes endpoint "?" then "&" else "?") ++ queryString
    | _ => endpoint
    end in
  request url {| method := Some "GET"; headers := []; body := None |}.

Definition post (endpoint : string) (body : JsValue) : Async W JsValue :=
  request endpoint
    {| method := Some "POST"; headers := [];
       body := if truthy body then Some (JSON_stringify body) else None |}.

Definition put (endpoint : string) (body : JsValue) : Async W JsValue :=
  request endpoint
    {| method := Some "PUT"; headers := [];
       body := if truthy body then Some (JSON_stringify body) else None |}.

Definition delete (endpoint : string)
  (params : option (list (string * JsValue))) : Async W JsValue :=
  let url :=
    match params with
    | Some ((_ :: _) as params) =>
        let queryString := Utils.buildQueryString JSON_stringify params in
        endpoint ++ (if includes endpoint "?" then "&" else "?") ++ queryString
    | _ => endpoint
    end in
  request url {| method := Some "DELETE"; headers := []; body := None |}.

Definition patch (endpoint : string) (body : JsValue) : Async W JsValue :=
  request endpoint
    {| method := Some "POST"; headers := [];
       body := if truthy body then Some (JSON_stringify body) else None |}.

End Requests.

End BaseClient.

(* ================================================================= *)
(** ** client/products-client.ts *)

Module ProductsClient.

(** The [status] argument of [getAll]. *)
Inductive StatusFilter : Type :=
| publish | draft | pending | private | any.

Definition statusName (s : StatusFilter) : string :=
  match s with
  | publish => "publish"
  | draft => "draft"
  | pending => "pending"
  | private => "private"
  | any => "any"
  end.

(** [ListProductsParams]: the fields the paginators set, and the other
    filters the caller passed, which they hand on untouched. *)
Record ListProductsParams : Type := {
    status : option string;
    per_page : option Z;
    page : option Z;
    otherFilters : list (string * JsValue)
  }.

(** An element of the [updates] argument of [batchUpdate]; [otherProps]
    are the properties the object has beyond the declared two. *)
Record StockUpdate : Type := {
    id : JsNumber;
    stock_quantity : JsNumber;
    otherProps : list (string * JsValue)
  }.

(** [BatchProductsRequest]; an absent field is [None]. *)
Record BatchProductsRequest : Type := {
    reqCreate : option (list JsValue);
    reqUpdate : option (list JsValue);
    reqDelete : option (list JsNumber)
  }.

(** [BatchProductsResponse] over the product type [P]. *)
Record BatchProductsResponse (P : Type) : Type := {
    create : option (list P);
    update : option (list P);
    delete : option (list P)
  }.

Arguments create {P} _.
Arguments update {P} _.
Arguments delete {P} _.

(** [updates.slice(from, to)] for [from <= to]. *)
Definition slice {A : Type} (l : list A) (from to : nat) : list A :=
  firstn (to - from) (skipn from l).

Definition BATCH_SIZE : nat := 100.

Section Products.

Context {engine : Engine} {W : Type} `{Timers W}.

(** [WooCommerceProduct]. *)
Variable WooCommerceProduct : Type.

(** [this.list(params)], which hands [params] to [BaseClient.get]. *)
Variable list_ : ListProductsParams -> Async W (list WooCommerceProduct).

(** [super.post<BatchProductsResponse>(endpoint, body)]. *)
Variable post :
  string -> BatchProductsRequest ->
  Async W (BatchProductsResponse WooCommerceProduct).

(** [process.env.WOOCOMMERCE_RATE_LIMIT_DELAY_MS]. *)
Variable RATE_LIMIT_DELAY_MS : option string.

(** The [while (hasMore)] loop of [getAll] and of [listAll], which
    differ only in the parameters they give to [list]: [None] when
    the fuel runs out before a short page arrives. *)
Fixpoint fetchPages (fuel : nat) (params : Z -> ListProductsParams)
  (perPage : Z) (allProducts : list WooCommerceProduct) (page : Z) (w : W)
  : option (Outcome (list WooCommerceProduct) * W) :=
  match fuel with
  | O => None
  | S fuel' =>
      match list_ (params page) w with
      | (Throw t, w') => Some (Throw t, w')
      | (Return products, w') =>
          match pushSpread allProducts products with
          | Throw t => Some (Throw t, w')
          | Return allProducts =>
              if Z.of_nat (List.length products) <? perPage
              then Some (Return allProducts, w')
              else fetchPages fuel' params perPage allProducts (page + 1) w'
          end
      end
  end.

Definition getAll (fuel : nat) (status : option StatusFilter)
  (perPage : option Z) (w : W)
  : option (Outcome (list WooCommerceProduct) * W) :=
  let status := match status with Some s => s | None => publish end in
  let perPage := match perPage with Some n => n | None => 100 end in
  fetchPages fuel
    (fun page =>
       {| status := match status with
                    | any => None
                    | s => Some (statusName s)
                    end;
          per_page := Some perPage;
          page := Some page;
          otherFilters := [] |})
    perPage [] 1 w.

Definition listAll (fuel : nat) (params : option ListProductsParams) (w : W)
  : option (Outcome (list WooCommerceProduct) * W) :=
  let perPage :=
    match params with
    | Some p => match per_page p with Some n => n | None => 100 end
    | None => 100
    end in
  fetchPages fuel
    (fun page =>
       {| status := match params with Some p => status p | None => None end;
          per_page := Some perPage;
          page := Some page;
          otherFilters :=
            match params with Some p => otherFilters p | None => [] end |})
    perPage [] 1 w.

(** [for (let i = 0; i < updates.length; i += BATCH_SIZE)
      batches.push(updates.slice(i, i + BATCH_SIZE))];
    [fuel] bounds the number of turns. *)
Fixpoint splitLoop {A : Type} (fuel : nat) (updates : list A) (i : nat)
  (batches : list (list A)) : list (list A) :=
  match fuel with
  | O => batches
  | S fuel' =>
      if (i <? List.length updates)%nat
      then splitLoop fuel' updates (i + BATCH_SIZE)
             (push batches (slice updates i (i + BATCH_SIZE)))
      else batches
  end.

(** The loop makes at most [updates.length] turns ([splitLoop_fuel]:
    more fuel gives the same chunks). *)
Definition splitBatches {A : Type} (updates : list A) : list (list A) :=
  splitLoop (List.length updates) updates 0 [].

(** The object literal [batch.map] builds for an item. *)
Definition wireItem (item : StockUpdate) : JsValue :=
  JObj [("id", JNum (id item));
        ("stock_quantity", JNum (stock_quantity item));
        ("manage_stock", JBool true)].

(** [parseInt(process.env.WOOCOMMERCE_RATE_LIMIT_DELAY_MS || '100', 10)] *)
Definition delayMs : JsNumber :=
  Utils.parseInt10
    (match RATE_LIMIT_DELAY_MS with
     | Some s => if String.eqb s "" then "100" else s
     | None => "100"
     end).

(** [for (let i = 0; i < batches.length; i++)], one turn per index. *)
Fixpoint submitLoop (batches : list (list StockUpdate)) (indices : list nat)
  (allResults : list WooCommerceProduct)
  : Async W (list WooCommerceProduct) :=
  match indices with
  | [] => ret allResults
  | i :: rest =>
      match nth_error batches i with
      | None => submitLoop batches rest allResults
      | Some batch =>
          let batchRequest :=
            {| reqCreate := None;
               reqUpdate := Some (map wireItem batch);
               reqDelete := None |} in
          response <- post "products/batch" batchRequest ;;
          allResults <- (match update response with
                         | Some updated =>
                             fun w => (pushSpread allResults updated, w)
                         | None => ret allResults
                         end) ;;
          _ <- (if Z.of_nat i <? Z.of_nat (List.length batches) - 1
                then fun w => (Return tt, timerResolve delayMs w)
                else ret tt) ;;
          submitLoop batches rest allResults
      end
  end.

Definition batchUpdate (updates : list StockUpdate)
  : Async W (BatchProductsResponse WooCommerceProduct) :=
  if (List.length updates =? 0)%nat then
    ret {| create := None; update := Some []; delete := None |}
  else
    let batches := splitBatches updates in
    allResults <- submitLoop batches (seq 0 (List.length batches)) [] ;;
    ret {| create := None; update := Some allResults; delete := None |}.

End Products.

End ProductsClient.

(* ================================================================= *)
(** ** Recording worlds

    The worlds the properties are stated in.  A recording world is the
    log of what the code asked of its environment; the environment
    answers from a script, the [n]-th call of an operation getting the
    [n]-th answer. *)

Module Recording.

Section Calls.

Variables Req Res : Type.

(** A call of the scripted operation with its argument, or a pause. *)
Inductive Event : Type :=
| Called (request : Req)
| Slept (ms : JsNumber).

Definition Log : Type := list Event.

Definition calls (log : Log) : list Req :=
  flat_map (fun e => match e with Called r => [r] | Slept _ => [] end) log.

Definition sleeps (log : Log) : list JsNumber :=
  flat_map (fun e => match e with Called _ => [] | Slept ms => [ms] end) log.

Definition logTimers : Timers Log :=
  {| timerResolve := fun ms log => (log ++ [Slept ms])%list |}.

(** The operation that answers its [n]-th call (from 0) with
    [script n]. *)
Definition scripted (script : nat -> Outcome Res) (request : Req)
  : Async Log Res :=
  fun log => (script (List.length (calls log)), (log ++ [Called request])%list).

End Calls.

(** The listing operation of a server whose collection is cut into
    [pages]: call [n] gets page [n], and an empty page past the end. *)
Definition pagesScript {P : Type} (pages : list (list P))
  : nat -> Outcome (list P) :=
  fun n => Return (nth n pages []).

Arguments Called {Req} request.
Arguments Slept {Req} ms.
Arguments calls {Req} log.
Arguments sleeps {Req} log.
Arguments scripted {Req Res} script request.

(** What a recording host of [BaseClient] logs. *)
Inductive HostEvent : Type :=
| SetTimeout (ms : Z) (timeoutId : BaseClient.TimerId)
| ClearTimeout (timeoutId : BaseClient.TimerId)
| Fetched (url : string) (init : BaseClient.RequestInit)
    (signal : BaseClient.TimerId)
| Signed (consumer : string * string) (url method : string).

Definition fetches (log : list HostEvent)
  : list (string * BaseClient.RequestInit) :=
  flat_map (fun e => match e with Fetched u i _ => [(u, i)] | _ => [] end) log.

Definition timersSet (log : list HostEvent) : nat :=
  List.length (filter (fun e => match e with SetTimeout _ _ => true | _ => false end) log).

(** The host that answers the [n]-th [fetch] with [responses n] and
    signs with [sign]. *)
Definition recordingHost
  (responses : nat -> Outcome BaseClient.Response)
  (sign : string * string -> string -> string -> string)
  : BaseClient.Host (list HostEvent) :=
  {| BaseClient.setAbortTimeout :=
      fun ms log =>
        let timeoutId := timersSet log in
        (timeoutId, (log ++ [SetTimeout ms timeoutId])%list);
     BaseClient.clearTimeout :=
      fun timeoutId log => (log ++ [ClearTimeout timeoutId])%list;
     BaseClient.fetch :=
      fun url init signal log =>
        (responses (List.length (fetches log)),
         (log ++ [Fetched url init signal])%list);
     BaseClient.oauthAuthorization :=
      fun consumer url method log =>
        (sign consumer url method,
         (log ++ [Signed consumer url method])%list) |}.

End Recording.

(* ================================================================= *)
(** ** A host with a clock

    The host of [BaseClient] with the time written out: a timer fires
    when its delay has passed, a [fetch] settles when the network has
    answered, and a [fetch] whose signal is aborted before that rejects
    with an [AbortError]. *)

Module Timed.

(** The delay a timer runs for (Node.js): a delay below 1 or above
    [2^31 - 1] is taken as 1. *)
Definition timerDelay (ms : Z) : Z :=
  if (ms <? 1) || (2147483647 <? ms) then 1 else ms.

(** The time, the abort timers that are set, each with the time it
    fires at, and the number of timers set so far. *)
Record World : Type := {
    now : Z;
    armed : list (BaseClient.TimerId * Z);
    issued : nat
  }.

(** The world a call starts in. *)
Definition startingAt (start : Z) : World :=
  {| now := start; armed := []; issued := 0 |}.

(** The network: for a URL and an init, how long the [fetch] takes to
    settle when nothing aborts it, and what it settles to. *)
Definition Network : Type :=
  string -> BaseClient.RequestInit -> Z * Outcome BaseClient.Response.

(** What an aborted [fetch] rejects with: a [DOMException] named
    [AbortError], with the message of the host. *)
Definition abortError (abortMessage : string) : ErrorObj :=
  mkError ClsError "AbortError" abortMessage None JUndefined JUndefined
    None None.

(** When the timer fires, if it is set. *)
Definition firesAt (timeoutId : BaseClient.TimerId) (w : World) : option Z :=
  match find (fun timer => Nat.eqb (fst timer) timeoutId) (armed w) with
  | Some timer => Some (snd timer)
  | None => None
  end.

(** [clearTimeout]. *)
Definition disarm (timeoutId : BaseClient.TimerId) (w : World) : World :=
  {| now := now w;
     armed := filter (fun timer => negb (Nat.eqb (fst timer) timeoutId))
                (armed w);
     issued := issued w |}.

(** The host.  A [fetch] under the signal of a timer that fires no later
    than the network answers is aborted at that time; any other settles
    to the answer of the network, at the time of the answer. *)
Definition timedHost (network : Network) (abortMessage : string)
  (sign : string * string -> string -> string -> string)
  : BaseClient.Host World :=
  {| BaseClient.setAbortTimeout :=
      fun ms w =>
        let timeoutId := issued w in
        (timeoutId,
         {| now := now w;
            armed := (timeoutId, now w + timerDelay ms) :: armed w;
            issued := S (issued w) |});
     BaseClient.clearTimeout := disarm;
     BaseClient.fetch :=
      fun url init signal w =>
        let '(duration, answer) := network url init in
        let aborted :=
          match firesAt signal w with
          | Some fires => fires <=? now w + duration
          | None => false
          end in
        if aborted then
          (Throw (ThrownError (abortError abortMessage)),
           {| now := match firesAt signal w with
                     | Some fires => fires
                     | None => now w
                     end;
              armed := armed (disarm signal w);
              issued := issued w |})
        else
          (answer,
           {| now := now w + duration; armed := armed w; issued := issued w |});
     BaseClient.oauthAuthorization :=
      fun consumer url method w => (sign consumer url method, w) |}.

End Timed.

(* ================================================================= *)
(** ** Vocabulary of the specification *)

Module Spec.

(** The last character of [s] is a slash. *)
Fixpoint endsWithSlash (s : string) : bool :=
  match s with
  | EmptyString => false
  | String c EmptyString => Ascii.eqb c "/"
  | String _ rest => endsWithSlash rest
  end.

(** [s] has an [http://] or [https://] prefix. *)
Definition hasProtocol (s : string) : bool :=
  startsWith s "http://" || startsWith s "https://".

(** [https://] goes in front of a string without protocol. *)
Definition ensureProtocol (s : string) : string :=
  if hasProtocol s then s else "https://" ++ s.

(** [s] without its last character. *)
Fixpoint withoutLast (s : string) : string :=
  match s with
  | EmptyString => EmptyString
  | String _ EmptyString => EmptyString
  | String c rest => String c (withoutLast rest)
  end.

(** The URL Normalizer in the words of the specification, for every
    string: one trailing slash goes if there is one, and [https://]
    comes in front if the string has neither prefix. *)
Definition normalize_as_specified (url : string) : string :=
  let stripped := if endsWithSlash url then withoutLast url else url in
  ensureProtocol stripped.



(** Cutting a list into consecutive chunks of [size] items, the last
    one possibly shorter; [fuel] bounds the number of chunks. *)
Fixpoint chunksOf {A : Type} (size fuel : nat) (l : list A) : list (list A) :=
  match fuel with
  | O => []
  | S fuel' =>
      match l with
      | [] => []
      | _ => firstn size l :: chunksOf size fuel' (skipn size l)
      end
  end.

(** The products a batch response reports as updated. *)
Definition updated {P : Type} (r : ProductsClient.BatchProductsResponse P)
  : list P :=
  match ProductsClient.update r with
  | Some products => products
  | None => []
  end.

(** The batch request for a chunk: posted to [products/batch], it
    holds nothing but an [update] list, with one object
    [{id, stock_quantity, manage_stock: true}] per item of the chunk,
    in the order of the chunk. *)
Definition batchRequestOf (batch : list ProductsClient.StockUpdate)
  : string * ProductsClient.BatchProductsRequest :=
  ("products/batch",
   {| ProductsClient.reqCreate := None;
      ProductsClient.reqUpdate :=
        Some (map (fun item =>
                     JObj [("id", JNum (ProductsClient.id item));
                           ("stock_quantity",
                            JNum (ProductsClient.stock_quantity item));
                           ("manage_stock", JBool true)])
                batch);
      ProductsClient.reqDelete := None |}).


Definition isDigit (c : ascii) : bool :=
  let n := nat_of_ascii c in ((48 <=? n) && (n <=? 57))%nat.

(** A header value is numeric when it is a non-empty run of decimal
    digits. *)
Fixpoint allDigits (s : string) : bool :=
  match s with
  | EmptyString => true
  | String c rest => isDigit c && allDigits rest
  end.

Definition isNumeric (s : string) : bool :=
  negb (String.eqb s "") && allDigits s.

(** The number a run of decimal digits denotes, by the weight of each
    position. *)
Fixpoint decimalValue (s : string) : Z :=
  match s with
  | EmptyString => 0
  | String c rest =>
      (Z.of_nat (nat_of_ascii c) - 48) * 10 ^ Z.of_nat (String.length rest)
      + decimalValue rest
  end.

(** The error's text speaks of the network: lower-cased, it contains
    [fetch], [network] or [econnrefused]. *)
Definition networkIndicative {engine : Engine} (msg : string) : bool :=
  let m := toLowerCase msg in
  includes m "fetch" || includes m "network" || includes m "econnrefused".

(** [t] is thrown inside the [try] block of the call
    [request endpoint options] made in the world [w]: the [fetch] of
    the call rejects with it, or the classifier raises it for the
    response of the [fetch], which is not a success, or
    [response.json()] rejects with it on a success that has a body. *)
Definition thrownInTry {engine : Engine} {W : Type} `{BaseClient.Host W}
  (this : BaseClient.Client) (endpoint : string)
  (options : BaseClient.RequestInit) (w : W) (t : Thrown) : Prop :=
  let '((requestUrl, init, timeoutId), w1) :=
    BaseClient.prepare this endpoint options w in
  match BaseClient.fetch requestUrl init timeoutId w1 with
  | (Throw rejection, _) => rejection = t
  | (Return r, w2) =>
      if negb (BaseClient.ok r)
      then fst (BaseClient.handleErrorResponse r
                  (BaseClient.clearTimeout timeoutId w2))
           = Throw t
      else BaseClient.status r <> 204 /\ BaseClient.json r = Throw t
  end.

End Spec.

Import Spec.

(* ================================================================= *)
(** ** utils.ts: parsePaginationHeaders *)

Module Pagination.

(** What [parsePaginationHeaders] returns. *)
Record PaginationMeta : Type := {
    total : JsNumber;
    totalPages : JsNumber
  }.

(** [headers] is keyed by lower-case names, as [Headers.get] looks them
    up; [headers.get(name) || '0'] gives ['0'] for a missing and for an
    empty header. *)
Definition parsePaginationHeaders {engine : Engine}
  (headers : list (string * string))
  : PaginationMeta :=
  let total :=
    Utils.parseInt10
      (match getProp headers "x-wp-total" with
       | Some h => if String.eqb h "" then "0" else h
       | None => "0"
       end) in
  let totalPages :=
    Utils.parseInt10
      (match getProp headers "x-wp-totalpages" with
       | Some h => if String.eqb h "" then "0" else h
       | None => "0"
       end) in
  {| total := total; totalPages := totalPages |}.

End Pagination.

(* ================================================================= *)
(** ** client/products-client.ts: the methods on one product *)

Module Products.

Section Methods.

Context {engine : Engine} {W : Type} `{BaseClient.Host W}.
Variable JSON_stringify : JsValue -> string.
Variable this : BaseClient.Client.

Definition getProduct (productId : JsNumber) : Async W JsValue :=
  BaseClient.get JSON_stringify this
    ("products/" ++ numberToString productId) None.

Definition update (productId : JsNumber) (updates : JsValue) : Async W JsValue :=
  BaseClient.put JSON_stringify this
    ("products/" ++ numberToString productId) updates.

(** [force] defaults to [false]. *)
Definition deleteProduct (productId : JsNumber) (force : option bool)
  : Async W JsValue :=
  let force := match force with Some b => b | None => false end in
  BaseClient.delete JSON_stringify this
    ("products/" ++ numberToString productId)
    (Some [("force", JBool force)]).

End Methods.

End Products.

(* ================================================================= *)
(** ** client/orders-client.ts: getAll *)

Module OrdersClient.

(** The parameters [getAll] gives to [list]. *)
Record ListOrdersParams : Type := {
    status : option string;
    per_page : option Z;
    page : option Z
  }.

Section Orders.

Context {engine : Engine} {W : Type}.

(** [WooCommerceOrder]. *)
Variable WooCommerceOrder : Type.

(** [this.list(params)], which hands [params] to [BaseClient.get]. *)
Variable list_ : ListOrdersParams -> Async W (list WooCommerceOrder).

(** The [while (hasMore)] loop of [getAll]: [None] when the fuel runs
    out before a short page arrives. *)
Fixpoint getAllLoop (fuel : nat) (status : option string) (perPage : Z)
  (allOrders : list WooCommerceOrder) (page : Z) (w : W)
  : option (Outcome (list WooCommerceOrder) * W) :=
  match fuel with
  | O => None
  | S fuel' =>
      match list_ {| status := status;
                     per_page := Some perPage;
                     page := Some page |} w with
      | (Throw t, w') => Some (Throw t, w')
      | (Return orders, w') =>
          match pushSpread allOrders orders with
          | Throw t => Some (Throw t, w')
          | Return allOrders =>
              if Z.of_nat (List.length orders) <? perPage
              then Some (Return allOrders, w')
              else getAllLoop fuel' status perPage allOrders (page + 1) w'
          end
      end
  end.

(** [status] is optional and [perPage] defaults to 100. *)
Definition getAll (fuel : nat) (status : option string) (perPage : option Z)
  (w : W) : option (Outcome (list WooCommerceOrder) * W) :=
  let perPage := match perPage with Some n => n | None => 100 end in
  getAllLoop fuel status perPage [] 1 w.

End Orders.

End OrdersClient.

(* ================================================================= *)
(** ** client/customers-client.ts *)

Module Customers.

Section Methods.

Context {engine : Engine} {W : Type} `{BaseClient.Host W}.
Variable JSON_stringify : JsValue -> string.
Variable this : BaseClient.Client.

(** [customers[0]] when the response is not the array its type
    declares: left to the host. *)
Variable firstOfNonArray : JsValue -> Async W JsValue.

Definition list (params : option (list (string * JsValue))) : Async W JsValue :=
  BaseClient.get JSON_stringify this "customers" params.

(** [force] defaults to [false]; [reassign] is put into the parameters
    only when it is not [undefined]. *)
Definition deleteCustomer (customerId : JsNumber) (force : option bool)
  (reassign : option JsNumber) : Async W JsValue :=
  let force := match force with Some b => b | None => false end in
  let params := [("force", JBool force)] in
  let params :=
    match reassign with
    | Some n => setProp params "reassign" (JNum n)
    | None => params
    end in
  BaseClient.delete JSON_stringify this
    ("customers/" ++ numberToString customerId) (Some params).

(** [customers[0] ?? null]. *)
Definition findByEmail (email : string) : Async W JsValue :=
  customers <- list (Some [("email", JStr email); ("per_page", JNum (Num 1))]) ;;
  match customers with
  | JArr [] => ret JNull
  | JArr (first :: _) => ret (if isNullish first then JNull else first)
  | other => firstOfNonArray other
  end.

End Methods.

End Customers.

(* ================================================================= *)
(** ** More vocabulary *)

Module Terms.

(** How often the character [c] occurs in [s]. *)
Fixpoint countChar (c : ascii) (s : string) : nat :=
  match s with
  | EmptyString => O
  | String x rest => (if Ascii.eqb x c then 1 else 0) + countChar c rest
  end.

(** The characters a percent-encoded text is made of. *)
Definition encodedChar (c : ascii) : bool :=
  Utils.unreserved c || Ascii.eqb c "%".

Fixpoint allChars (p : ascii -> bool) (s : string) : bool :=
  match s with
  | EmptyString => true
  | String c rest => p c && allChars p rest
  end.


(** The characters a query string is made of. *)
Definition queryChar (c : ascii) : bool :=
  encodedChar c || Ascii.eqb c "=" || Ascii.eqb c "&".

(** An entry of a query string: an encoded key, one equals sign, an
    encoded value. *)
Definition isEntry (part : string) : Prop :=
  exists k v,
    part = Utils.encodeURIComponent k ++ "=" ++ Utils.encodeURIComponent v.


(** A number every engine writes the same: [NaN] or a safe integer. *)
Definition isSafeNumber (n : JsNumber) : bool :=
  match n with
  | NaN => true
  | Num z => isSafeInteger z
  end.

(** The headers [request] sends when the caller gives none. *)
Definition defaultHeaders : list (string * string) :=
  [("Content-Type", "application/json");
   ("Accept", "application/json");
   ("User-Agent", "WooCommerce-SDK/1.0")].

(** The method the OAuth signature is made for. *)
Definition signedMethod {engine : Engine} (options : BaseClient.RequestInit)
  : string :=
  toUpperCase
    match BaseClient.method options with
    | Some m => if String.eqb m "" then "GET" else m
    | None => "GET"
    end.

(** The URL of an endpoint for a client. *)
Definition endpointUrl (this : BaseClient.Client) (endpoint : string) : string :=
  BaseClient.baseUrl this ++ "/wp-json/" ++ BaseClient.clientVersion this
    ++ "/" ++ endpoint.

(** The credentials as query-string mode writes them. *)
Definition credentials (this : BaseClient.Client) : string :=
  "consumer_key="
    ++ Utils.encodeURIComponent (BaseClient.clientConsumerKey this)
    ++ "&consumer_secret="
    ++ Utils.encodeURIComponent (BaseClient.clientConsumerSecret this).

End Terms.

Import Terms.

(* ================================================================= *)
(** ** The engine of the runs

    The runs that close the properties are on ASCII text, safe integers
    and short lists, where nothing is left to the engine.  This engine
    is the one they are made on. *)

Definition referenceEngine : Engine :=
  {| lowerCaseOf := mapString lowerChar;
     upperCaseOf := mapString upperChar;
     unsafeNumberToString := fun z => NilZero.string_of_int (Z.to_int z);
     parseIntOf := fun _ => NaN;
     argumentLimit := 65535%Z;
     argumentLimitMessage := "Maximum call stack size exceeded" |}.

#[global] Existing Instance referenceEngine.

(* ================================================================= *)
(** * Properties *)

(** ** Strings, lists and logs *)

Section Basics.

Context {engine : Engine}.

Import Recording.
Local Open Scope list_scope.


Lemma calls_app {Req : Type} (l1 l2 : Log Req) :
  calls (l1 ++ l2) = (calls l1 ++ calls l2)%list.
Proof. apply flat_map_app. Qed.

Lemma sleeps_app {R : Type} (l1 l2 : Log R) :
  sleeps (l1 ++ l2) = sleeps l1 ++ sleeps l2.
Proof. apply flat_map_app. Qed.

Lemma nth_seq_all {B : Type} (l : list B) (d : B) :
  map (fun i => nth i l d) (seq 0 (List.length l)) = l.
Proof.
  induction l as [|x l IH]; [reflexivity|].
  cbn [List.length seq map nth]. f_equal.
  rewrite <- seq_shift, map_map. exact IH.
Qed.

(** A page the engine takes as the arguments of one call is appended. *)
Lemma pushSpread_within {A : Type} (target items : list A) :
  Z.of_nat (List.length items) <= argumentLimit ->
  pushSpread target items = Return (target ++ items).
Proof.
  intros Hlen. unfold pushSpread.
  now replace (argumentLimit <? Z.of_nat (List.length items)) with false
    by (symmetry; apply Z.ltb_ge; exact Hlen).
Qed.

(** Beyond that it is not, and the call throws. *)
Lemma pushSpread_beyond {A : Type} (target items : list A) :
  argumentLimit < Z.of_nat (List.length items) ->
  pushSpread target items = Throw (ThrownError rangeError).
Proof.
  intros Hlen. unfold pushSpread.
  now replace (argumentLimit <? Z.of_nat (List.length items)) with true
    by (symmetry; apply Z.ltb_lt; exact Hlen).
Qed.

Lemma snd_bind_ret {W A B : Type} (c : Async W A) (f : A -> B) (w : W) :
  snd (bind c (fun a => ret (f a)) w) = snd (c w).
Proof. unfold bind, ret. destruct (c w) as [[a|t] w']; reflexivity. Qed.

End Basics.

(** ** URL Normalizer *)

Section NormalizeUrl.

Context {engine : Engine}.

Import Utils.

Lemma removeTrailingSlash_app_slash (s : string) :
  removeTrailingSlash (s ++ "/") = s.
Proof.
  induction s as [|c s IH]; [reflexivity|].
  cbn [append removeTrailingSlash]. rewrite IH.
  destruct s; reflexivity.
Qed.

Lemma removeTrailingSlash_no_slash (s : string) :
  endsWithSlash s = false -> removeTrailingSlash s = s.
Proof.
  induction s as [|c s IH]; [reflexivity|].
  destruct s as [|d s].
  - cbn. intros ->. reflexivity.
  - intros Hs. change (String c (removeTrailingSlash (String d s)) = String c (String d s)).
    rewrite IH; [reflexivity | exact Hs].
Qed.

End NormalizeUrl.

Section NormalizeUrlSpec.

Context {engine : Engine}.

Import Utils.

Lemma normalizeUrl_nonempty (url : string) :
  url <> "" -> normalizeUrl url = ensureProtocol (removeTrailingSlash url).
Proof.
  intros Hne. unfold normalizeUrl, ensureProtocol, hasProtocol.
  destruct (String.eqb_spec url "") as [->|_]; [contradiction|].
  cbv zeta.
  destruct (startsWith (removeTrailingSlash url) "http://"),
    (startsWith (removeTrailingSlash url) "https://"); reflexivity.
Qed.

(** C9, as the code has it.  The empty string stays empty.  For any
    other base URL one trailing slash is removed if there is one, and
    [https://] is put in front when what remains has neither an
    [http://] nor an [https://] prefix; a URL with a protocol and
    without trailing slash comes back unchanged; the two examples of
    the specification hold. *)
Theorem normalizeUrl_contract :
  normalizeUrl "" = ""
  /\ (forall s, normalizeUrl (s ++ "/") = ensureProtocol s)
  /\ (forall url, url <> "" -> endsWithSlash url = false ->
                  normalizeUrl url = ensureProtocol url)
  /\ (forall url, hasProtocol url = true -> endsWithSlash url = false ->
                  normalizeUrl url = url)
  /\ normalizeUrl "example.com" = "https://example.com"
  /\ normalizeUrl "https://example.com/" = "https://example.com".
Proof.
  split; [reflexivity|].
  split.
  { intros s. rewrite normalizeUrl_nonempty.
    - now rewrite removeTrailingSlash_app_slash.
    - destruct s; discriminate. }
  split.
  { intros url Hne Hs. rewrite normalizeUrl_nonempty by exact Hne.
    now rewrite removeTrailingSlash_no_slash. }
  split.
  { intros url Hp Hs.
    assert (Hne : url <> "") by (intros ->; discriminate).
    rewrite normalizeUrl_nonempty by exact Hne.
    rewrite removeTrailingSlash_no_slash by exact Hs.
    unfold ensureProtocol. now rewrite Hp. }
  split; reflexivity.
Qed.

Lemma normalizeUrl_contract_witness :
  normalizeUrl "http://shop.test/store" = "http://shop.test/store"
  /\ normalizeUrl "shop.test" = ensureProtocol "shop.test".
Proof.
  pose proof normalizeUrl_contract as (_ & _ & Hplain & Hsame & _).
  split.
  - apply Hsame; reflexivity.
  - apply Hplain; [discriminate | reflexivity].
Defined.

(** C9 as the specification words it fails on the empty string: it has
    neither prefix, and yet it stays empty. *)
Lemma normalizeUrl_not_as_specified :
  normalize_as_specified "" = "https://"
  /\ normalizeUrl "" = ""
  /\ normalizeUrl "" <> normalize_as_specified "".
Proof. repeat split. discriminate. Qed.

End NormalizeUrlSpec.

(** ** Query Encoder *)

Section QueryEncoder.

Context {engine : Engine}.

Import Utils.

Variable JSON_stringify : JsValue -> string.



Lemma push_items (f : JsValue -> string) (items : list JsValue) :
  forall acc,
    fold_left (fun parts item => push parts (f item)) items acc
    = (acc ++ map f items)%list.
Proof.
  induction items as [|item items IH]; intros acc; cbn [fold_left map].
  - now rewrite app_nil_r.
  - rewrite IH. unfold push. now rewrite <- app_assoc.
Qed.

Lemma pushParam_app (acc : list string) (entry : string * JsValue) :
  pushParam JSON_stringify acc entry
  = (acc ++ pushParam JSON_stringify [] entry)%list.
Proof.
  destruct entry as [key value]. unfold pushParam.
  destruct value; cbn [isNullish];
    rewrite ?app_nil_r, ?(push_items _ _ acc), ?(push_items _ _ []);
    reflexivity.
Qed.

Lemma fold_pushParam (params : list (string * JsValue)) :
  forall acc,
    fold_left (pushParam JSON_stringify) params acc
    = (acc ++ flat_map (pushParam JSON_stringify []) params)%list.
Proof.
  induction params as [|entry params IH]; intros acc; cbn [fold_left flat_map].
  - now rewrite app_nil_r.
  - rewrite IH, (pushParam_app acc). now rewrite <- app_assoc.
Qed.

Lemma queryParts_flat_map (params : list (string * JsValue)) :
  queryParts JSON_stringify params
  = flat_map (pushParam JSON_stringify []) params.
Proof. unfold queryParts. now rewrite fold_pushParam. Qed.



End QueryEncoder.



(** ** Backoff Retrier *)

Section Retrier.

Context {engine : Engine}.

Import Utils Recording.
Local Open Scope list_scope.

Variable T : Type.
Variable script : nat -> Outcome T.
Variables maxRetries baseDelay : Z.






End Retrier.

Section RetrierContract.

Context {engine : Engine}.

Import Utils Recording.
Local Open Scope list_scope.



End RetrierContract.



(** ** Paginator *)

Section Paginator.

Context {engine : Engine}.

Import ProductsClient Recording.
Local Open Scope list_scope.

Variable P : Type.
Variable script : nat -> Outcome (list P).

Let list_ := scripted (Req := ListProductsParams) script.

(** The loop on a script of full pages followed by a short one: every
    page is asked for once, in order, and the short page ends the
    loop. *)
Lemma fetchPages_run (params : Z -> ListProductsParams) (perPage : Z)
  (fulls : list (list P)) :
  forall fuel acc page log short,
    Forall (fun pg => perPage <= Z.of_nat (List.length pg) <= argumentLimit)
      fulls ->
    (forall i pg, nth_error fulls i = Some pg ->
                  script (List.length (calls log) + i) = Return pg) ->
    script (List.length (calls log) + List.length fulls) = Return short ->
    Z.of_nat (List.length short) < perPage ->
    Z.of_nat (List.length short) <= argumentLimit ->
    (List.length fulls < fuel)%nat ->
    fetchPages P list_ fuel params perPage acc page log
    = Some (Return (acc ++ List.concat fulls ++ short),
            log ++ map (fun i => Called (params (page + Z.of_nat i)))
                       (seq 0 (S (List.length fulls)))).
Proof.
  induction fulls as [|pg fulls IH];
    intros fuel acc page log short Hfull Hscript Hshort Hlt Hlimit Hfuel;
    (destruct fuel as [|fuel]; [cbn in Hfuel; lia|]);
    cbn [fetchPages]; unfold list_, scripted at 1.
  - cbn [List.length] in Hshort. rewrite Nat.add_0_r in Hshort.
    rewrite Hshort, (pushSpread_within acc short Hlimit).
    replace (Z.of_nat (List.length short) <? perPage) with true
      by (symmetry; apply Z.ltb_lt; exact Hlt).
    cbn [List.concat app seq map List.length]. rewrite Z.add_0_r. reflexivity.
  - rewrite <- (Nat.add_0_r (List.length (calls log))).
    rewrite (Hscript 0%nat pg eq_refl).
    inversion Hfull as [|? ? Hpg Hrest]; subst.
    rewrite (pushSpread_within acc pg) by lia.
    replace (Z.of_nat (List.length pg) <? perPage) with false
      by (symmetry; apply Z.ltb_ge; lia).
    fold list_.
    rewrite (IH fuel (acc ++ pg) (page + 1) (log ++ [Called (params page)]) short);
      try assumption.
    + f_equal. f_equal.
      * cbn [List.concat]. now rewrite <- !app_assoc.
      * rewrite <- app_assoc. f_equal.
        cbn [List.length].
        change (seq 0 (S (S (List.length fulls))))
          with (0%nat :: seq 1 (S (List.length fulls))).
        rewrite <- seq_shift.
        cbn [map app]. rewrite Z.add_0_r. f_equal.
        rewrite map_map. apply map_ext. intros i. do 2 f_equal. lia.
    + intros i pg' Hi. rewrite calls_app, length_app. cbn [calls flat_map List.length app].
      rewrite <- (Hscript (S i) pg' Hi). f_equal. lia.
    + rewrite calls_app, length_app. cbn [calls flat_map List.length app].
      rewrite <- Hshort. f_equal. cbn [List.length]. lia.
    + cbn [List.length] in Hfuel. lia.
Qed.

End Paginator.

Lemma pagesScript_full {P : Type} (fulls rest : list (list P)) (i : nat)
  (pg : list P) :
  nth_error fulls i = Some pg ->
  Recording.pagesScript (fulls ++ rest)%list i = Return pg.
Proof.
  intros Hi. unfold Recording.pagesScript. f_equal.
  rewrite app_nth1 by (apply nth_error_Some; congruence).
  now apply nth_error_nth.
Qed.

Lemma pagesScript_short {P : Type} (fulls rest : list (list P))
  (short : list P) :
  Recording.pagesScript (fulls ++ short :: rest)%list (List.length fulls)
  = Return short.
Proof.
  unfold Recording.pagesScript. f_equal.
  rewrite app_nth2 by lia. now rewrite Nat.sub_diag.
Qed.

Section PaginatorContract.

Context {engine : Engine}.

Import ProductsClient Recording.
Local Open Scope list_scope.

(** C4.  Let the listing operation answer its successive calls with the
    pages [fulls], each at least as long as the requested page size, and
    then with [short], strictly shorter, every page being one the
    engine takes as the arguments of one call (the code appends a page
    with [push(...page)]).  Then [getAll] and [listAll], given fuel for
    these calls, return the items of all these pages in order, after
    asking exactly once for each of the pages
    [1, 2, ..., length fulls + 1] at the requested page size: the loop
    stops at the first short page, and a last page that is exactly full
    costs one more call, answered by the short (possibly empty) page
    after it. *)
Theorem paginator_contract
  (P : Type) (script : nat -> Outcome (list P))
  (fulls : list (list P)) (short : list P) (perPage : option Z) (fuel : nat) :
  let size := match perPage with Some n => n | None => 100 end in
  Forall (fun pg => size <= Z.of_nat (List.length pg) <= argumentLimit) fulls ->
  (forall i pg, nth_error fulls i = Some pg -> script i = Return pg) ->
  script (List.length fulls) = Return short ->
  Z.of_nat (List.length short) < size ->
  Z.of_nat (List.length short) <= argumentLimit ->
  (List.length fulls < fuel)%nat ->
  (forall status,
      exists reqs,
        getAll P (scripted script) fuel status perPage []
        = Some (Return (List.concat fulls ++ short), map Called reqs)
        /\ map page reqs
           = map (fun i => Some (Z.of_nat i + 1)) (seq 0 (S (List.length fulls)))
        /\ Forall (fun r => per_page r = Some size) reqs)
  /\ (forall params,
         match params with Some p => per_page p | None => None end = perPage ->
         exists reqs,
           listAll P (scripted script) fuel params []
           = Some (Return (List.concat fulls ++ short), map Called reqs)
           /\ map page reqs
              = map (fun i => Some (Z.of_nat i + 1)) (seq 0 (S (List.length fulls)))
           /\ Forall (fun r => per_page r = Some size) reqs).
Proof.
  intros size Hfull Hscript Hshort Hlt Hlimit Hfuel. split.
  - intros status.
    eexists (map _ (seq 0 (S (List.length fulls)))). split; [|split].
    + unfold getAll. fold size.
      rewrite (fetchPages_run P script _ size fulls fuel [] 1 [] short);
        try assumption.
      cbn [app]. rewrite map_map. reflexivity.
    + rewrite map_map. apply map_ext. intros i. cbn [page]. f_equal. lia.
    + apply Forall_map, Forall_forall. intros i _. reflexivity.
  - intros params Hparams.
    eexists (map _ (seq 0 (S (List.length fulls)))). split; [|split].
    + unfold listAll.
      replace (match params with
               | Some p => match per_page p with Some n => n | None => 100 end
               | None => 100
               end) with size
        by (subst size; rewrite <- Hparams; destruct params; reflexivity).
      rewrite (fetchPages_run P script _ size fulls fuel [] 1 [] short);
        try assumption.
      cbn [app]. rewrite map_map. reflexivity.
    + rewrite map_map. apply map_ext. intros i. cbn [page]. f_equal. lia.
    + apply Forall_map, Forall_forall. intros i _. reflexivity.
Qed.

End PaginatorContract.

(** The runs of the specification: pages of 100, 100 and 50 items give
    250 items after three calls; one page of 25 items gives them after
    one call; one exactly full page followed by an empty one costs two
    calls. *)
Lemma paginator_contract_witness :
  (exists reqs,
      ProductsClient.getAll nat
        (Recording.scripted
           (Recording.pagesScript [seq 0 100; seq 100 100; seq 200 50]%nat))
        3 None None []
      = Some (Return (seq 0 250), map Recording.Called reqs)
      /\ map ProductsClient.page reqs = [Some 1; Some 2; Some 3]
      /\ Forall (fun r => ProductsClient.per_page r = Some 100) reqs)
  /\ (exists reqs,
         ProductsClient.getAll nat
           (Recording.scripted (Recording.pagesScript [seq 0 25]))
           1 None None []
         = Some (Return (seq 0 25), map Recording.Called reqs)
         /\ map ProductsClient.page reqs = [Some 1]
         /\ Forall (fun r => ProductsClient.per_page r = Some 100) reqs)
  /\ (exists reqs,
         ProductsClient.getAll nat
           (Recording.scripted (Recording.pagesScript [seq 0 100]))
           2 None None []
         = Some (Return (seq 0 100), map Recording.Called reqs)
         /\ map ProductsClient.page reqs = [Some 1; Some 2]
         /\ Forall (fun r => ProductsClient.per_page r = Some 100) reqs).
Proof.
  split; [|split].
  - apply (proj1 (paginator_contract nat
                    (Recording.pagesScript [seq 0 100; seq 100 100; seq 200 50]%nat)
                    [seq 0 100; seq 100 100]%nat (seq 200 50) None 3
                    ltac:(repeat constructor; vm_compute; discriminate)
                    (fun i pg => pagesScript_full _ [seq 200 50]%nat i pg)
                    (pagesScript_short [seq 0 100; seq 100 100]%nat [] _)
                    ltac:(vm_compute; reflexivity)
                    ltac:(vm_compute; discriminate)
                    ltac:(cbn; lia))
             None).
  - apply (proj1 (paginator_contract nat
                    (Recording.pagesScript [seq 0 25]) [] (seq 0 25) None 1
                    ltac:(constructor)
                    (fun i pg => pagesScript_full [] [seq 0 25]%nat i pg)
                    (pagesScript_short [] [] _)
                    ltac:(vm_compute; reflexivity)
                    ltac:(vm_compute; discriminate)
                    ltac:(cbn; lia))
             None).
  - apply (proj1 (paginator_contract nat
                    (Recording.pagesScript [seq 0 100]) [seq 0 100]%nat [] None 2
                    ltac:(repeat constructor; vm_compute; discriminate)
                    (fun i pg => pagesScript_full _ [] i pg)
                    eq_refl
                    ltac:(vm_compute; reflexivity)
                    ltac:(vm_compute; discriminate)
                    ltac:(cbn; lia))
             None).
Defined.

(** ** Batch Chunker *)

Section Chunks.

Context {engine : Engine}.

Import ProductsClient.
Local Open Scope list_scope.
Local Open Scope nat_scope.

Context {A : Type}.

Lemma splitLoop_chunksOf (fuel : nat) (updates : list A) :
  forall i batches,
    splitLoop fuel updates i batches
    = batches ++ chunksOf BATCH_SIZE fuel (skipn i updates).
Proof.
  induction fuel as [|fuel IH]; intros i batches; cbn [splitLoop chunksOf].
  - now rewrite app_nil_r.
  - destruct (Nat.ltb_spec i (List.length updates)) as [Hlt|Hge].
    + rewrite IH. unfold push, slice. rewrite <- app_assoc. cbn [app].
      replace (i + BATCH_SIZE - i) with BATCH_SIZE by lia.
      rewrite (Nat.add_comm i BATCH_SIZE), <- skipn_skipn.
      destruct (skipn i updates) as [|x rest] eqn:Hskip; [|reflexivity].
      apply (f_equal (@List.length A)) in Hskip.
      rewrite length_skipn in Hskip. cbn in Hskip. lia.
    + rewrite skipn_all2 by exact Hge. now rewrite app_nil_r.
Qed.

Lemma splitBatches_chunksOf (updates : list A) :
  splitBatches updates = chunksOf BATCH_SIZE (List.length updates) updates.
Proof. unfold splitBatches. now rewrite splitLoop_chunksOf. Qed.

Lemma chunksOf_concat (size : nat) (Hsize : 0 < size) (fuel : nat) :
  forall l : list A,
    List.length l <= fuel -> List.concat (chunksOf size fuel l) = l.
Proof.
  induction fuel as [|fuel IH]; intros l Hlen.
  - destruct l; [reflexivity | cbn in Hlen; lia].
  - cbn [chunksOf]. destruct l as [|x l]; [reflexivity|].
    cbn [List.concat]. rewrite IH.
    + apply firstn_skipn.
    + rewrite length_skipn. cbn [List.length] in *. lia.
Qed.

(** Fuel beyond the length of the list changes nothing: the loop of
    [batchUpdate] has run to its end. *)
Lemma chunksOf_fuel (size : nat) (Hsize : 0 < size) (fuel : nat) :
  forall (fuel' : nat) (l : list A),
    List.length l <= fuel -> List.length l <= fuel' ->
    chunksOf size fuel l = chunksOf size fuel' l.
Proof.
  induction fuel as [|fuel IH]; intros fuel' l Hlen Hlen'.
  - destruct l; [|cbn in Hlen; lia]. destruct fuel'; reflexivity.
  - destruct l as [|x l]; [destruct fuel'; reflexivity|].
    destruct fuel' as [|fuel']; [cbn in Hlen'; lia|].
    cbn [chunksOf]. f_equal.
    apply IH; rewrite length_skipn; cbn [List.length] in *; lia.
Qed.

Lemma splitLoop_fuel (fuel : nat) (updates : list A) :
  List.length updates <= fuel ->
  splitLoop fuel updates 0 [] = splitBatches updates.
Proof.
  intros Hfuel. unfold splitBatches. rewrite !splitLoop_chunksOf.
  cbn [app skipn]. apply chunksOf_fuel; [unfold BATCH_SIZE|..]; lia.
Qed.

(** Every chunk has between one and [size] items, and every chunk
    before the last has exactly [size]. *)
Lemma chunksOf_sizes (size : nat) (Hsize : 0 < size) (fuel : nat) :
  forall l : list A,
    List.length l <= fuel ->
    Forall (fun c => 1 <= List.length c <= size) (chunksOf size fuel l)
    /\ forall i, S i < List.length (chunksOf size fuel l) ->
                 List.length (nth i (chunksOf size fuel l) []) = size.
Proof.
  induction fuel as [|fuel IH]; intros l Hlen.
  - cbn. split; [constructor | intros; lia].
  - cbn [chunksOf]. destruct l as [|x l]; [cbn; split; [constructor|intros; lia]|].
    destruct (IH (skipn size (x :: l))) as [IH1 IH2].
    { rewrite length_skipn. cbn [List.length] in *. lia. }
    split.
    + constructor; [|exact IH1].
      rewrite length_firstn. cbn [List.length]. lia.
    + intros [|i] Hi; cbn [nth List.length] in *.
      * rewrite length_firstn.
        destruct (chunksOf size fuel (skipn size (x :: l))) as [|c cs] eqn:Hc;
          [cbn in Hi; lia|].
        destruct fuel; [discriminate|]. cbn [chunksOf] in Hc.
        destruct (skipn size (x :: l)) as [|y rest] eqn:Hskip; [discriminate|].
        apply (f_equal (@List.length A)) in Hskip.
        rewrite length_skipn in Hskip. cbn [List.length] in *. lia.
      * apply IH2. lia.
Qed.

End Chunks.

Section BatchRun.

Context {engine : Engine}.

Import ProductsClient Recording.
Local Open Scope list_scope.

Variable P : Type.
Variable env : option string.

Local Abbreviation Req := (string * BatchProductsRequest)%type.

(** What one turn of the submission loop logs: the request for chunk
    [i], then the pause unless the chunk is the last. *)
Let turn (batches : list (list StockUpdate)) (i : nat) : Log Req :=
  Called (batchRequestOf (nth i batches []))
    :: (if Z.of_nat i <? Z.of_nat (List.length batches) - 1
        then [Slept (delayMs env)] else []).

Lemma submitLoop_run (script : nat -> BatchProductsResponse P)
  (batches : list (list StockUpdate)) (n : nat) :
  (forall k, Z.of_nat (List.length (updated (script k))) <= argumentLimit) ->
  forall a allResults log,
    (a + n = List.length batches)%nat ->
    List.length (calls log) = a ->
    @submitLoop _ (Log Req) (logTimers Req) P
      (fun endpoint body => scripted (fun k => Return (script k)) (endpoint, body))
      env batches (seq a n) allResults log
    = (Return (allResults
                 ++ List.concat (map (fun k => updated (script k)) (seq a n))),
       log ++ flat_map (turn batches) (seq a n)).
Proof.
  intros Hbound.
  induction n as [|n IH]; intros a allResults log Hlen Hlog.
  - cbn. now rewrite !app_nil_r.
  - cbn [seq submitLoop].
    assert (Ha : (a < List.length batches)%nat) by lia.
    rewrite (nth_error_nth' batches [] Ha).
    unfold bind at 1, scripted at 1. rewrite Hlog.
    unfold bind at 1.
    pose proof (Hbound a) as Hb.
    assert (Hup : updated (script a)
                  = match update (script a) with Some u => u | None => [] end)
      by reflexivity.
    cbn [flat_map map List.concat]. rewrite Hup in Hb |- *.
    destruct (update (script a)) as [products|];
      [rewrite (pushSpread_within allResults products Hb) | unfold ret at 1];
      unfold bind at 1; unfold turn at 1;
      (destruct (Z.of_nat a <? Z.of_nat (List.length batches) - 1);
       [cbn [timerResolve logTimers] | unfold ret];
       (rewrite IH;
        [cbn [app]; now rewrite <- ?app_assoc
        | lia
        | rewrite !calls_app, !length_app; cbn; lia])).
Qed.

Lemma calls_turns (batches : list (list StockUpdate)) (indices : list nat) :
  calls (flat_map (turn batches) indices)
  = map (fun i => batchRequestOf (nth i batches [])) indices.
Proof.
  induction indices as [|i indices IH]; [reflexivity|].
  cbn [flat_map map]. rewrite calls_app, IH. unfold turn.
  destruct (Z.of_nat i <? Z.of_nat (List.length batches) - 1); reflexivity.
Qed.

Lemma sleeps_turns (batches : list (list StockUpdate)) (indices : list nat) :
  sleeps (flat_map (turn batches) indices)
  = flat_map (fun i => if Z.of_nat i <? Z.of_nat (List.length batches) - 1
                       then [delayMs env] else []) indices.
Proof.
  induction indices as [|i indices IH]; [reflexivity|].
  cbn [flat_map]. rewrite sleeps_app, IH. unfold turn.
  destruct (Z.of_nat i <? Z.of_nat (List.length batches) - 1); reflexivity.
Qed.

Lemma sleeps_between (d : JsNumber) (len n a : nat) :
  (a + n = len)%nat ->
  flat_map (fun i => if Z.of_nat i <? Z.of_nat len - 1 then [d] else [])
    (seq a n)
  = repeat d (n - 1).
Proof.
  revert a. induction n as [|n IH]; intros a Hlen; [reflexivity|].
  cbn [seq flat_map]. rewrite IH by lia.
  destruct (Z.ltb_spec (Z.of_nat a) (Z.of_nat len - 1)) as [Hlt|Hge].
  - destruct n; [lia|]. cbn. now rewrite Nat.sub_0_r.
  - destruct n; [reflexivity | lia].
Qed.

End BatchRun.

Lemma chunksOf_lengths {A B : Type} (size fuel : nat) :
  forall (l : list A) (l' : list B),
    List.length l = List.length l' ->
    map (@List.length A) (chunksOf size fuel l)
    = map (@List.length B) (chunksOf size fuel l').
Proof.
  induction fuel as [|fuel IH]; intros l l' Hlen; [reflexivity|].
  cbn [chunksOf]. destruct l as [|x l], l' as [|y l']; try discriminate;
    [reflexivity|].
  cbn [map]. f_equal.
  - rewrite !length_firstn. now rewrite Hlen.
  - apply IH. rewrite !length_skipn. now rewrite Hlen.
Qed.

Section BatchContract.

Context {engine : Engine}.

Import ProductsClient Recording.
Local Open Scope list_scope.

Local Abbreviation Req := (string * BatchProductsRequest)%type.

(** C5.  The input list is cut into consecutive chunks of at most 100
    items that put together give the input back, every chunk before
    the last holding exactly 100 (so 250 items give chunks of 100, 100
    and 50); the chunks are submitted one after the other in that
    order, each as one batch request to [products/batch] that holds
    one object [{id, stock_quantity, manage_stock: true}] per item of
    the chunk; the result holds the products of the responses, in the
    order of the chunks; between two submissions, and not after the
    last, the chunker pauses; an empty input makes no submission and
    returns an empty result.  The server answers every request, with
    no more products than the engine takes as the arguments of one
    call (the code collects them with [push(...response.update)]). *)
Theorem batchUpdate_contract
  (P : Type) (env : option string)
  (script : nat -> BatchProductsResponse P) (updates : list StockUpdate) :
  let batches := splitBatches updates in
  let run :=
    @batchUpdate _ (Log Req) (logTimers Req) P
      (fun endpoint body => scripted (fun k => Return (script k)) (endpoint, body))
      env updates [] in
  (forall k, Z.of_nat (List.length (updated (script k))) <= argumentLimit) ->
  List.concat batches = updates
  /\ Forall (fun c => (1 <= List.length c <= 100)%nat) batches
  /\ (forall i, (S i < List.length batches)%nat ->
                List.length (nth i batches []) = 100%nat)
  /\ (List.length updates = 250%nat ->
      map (@List.length StockUpdate) batches = [100; 100; 50]%nat)
  /\ calls (snd run) = map batchRequestOf batches
  /\ sleeps (snd run) = repeat (delayMs env) (List.length batches - 1)
  /\ fst run
     = Return {| create := None;
                 update :=
                   Some (List.concat
                           (map (fun k => updated (script k))
                              (seq 0 (List.length batches))));
                 delete := None |}
  /\ (updates = [] ->
      run = (Return {| create := None; update := Some []; delete := None |}, [])).
Proof.
  intros batches run Hbound.
  assert (Hb : batches = chunksOf BATCH_SIZE (List.length updates) updates)
    by apply splitBatches_chunksOf.
  assert (Hsize : (0 < BATCH_SIZE)%nat) by (unfold BATCH_SIZE; lia).
  destruct (chunksOf_sizes BATCH_SIZE Hsize (List.length updates) updates
              (Nat.le_refl _)) as [Hs1 Hs2].
  split; [rewrite Hb; now apply chunksOf_concat|].
  split; [rewrite Hb; exact Hs1|].
  split; [rewrite Hb; exact Hs2|].
  split.
  { intros H250. rewrite Hb, H250.
    rewrite (chunksOf_lengths BATCH_SIZE 250 updates (repeat tt 250))
      by (now rewrite repeat_length).
    vm_compute. reflexivity. }
  assert (Hrun :
           run = (Return {| create := None;
                            update :=
                              Some (List.concat
                                      (map (fun k => updated (script k))
                                         (seq 0 (List.length batches))));
                            delete := None |},
                  flat_map
                    (fun i =>
                       Called (batchRequestOf (nth i batches []))
                         :: (if Z.of_nat i <? Z.of_nat (List.length batches) - 1
                             then [Slept (delayMs env)] else []))
                    (seq 0 (List.length batches)))).
  { subst run. unfold batchUpdate.
    destruct updates as [|u updates'] eqn:Hu.
    - reflexivity.
    - cbn [List.length Nat.eqb]. fold batches. unfold bind.
      rewrite (submitLoop_run P env script batches (List.length batches)
                 Hbound 0%nat [] []);
        reflexivity. }
  rewrite Hrun. cbn [fst snd].
  split.
  { rewrite calls_turns.
    transitivity (map batchRequestOf
                    (map (fun i => nth i batches []) (seq 0 (List.length batches)))).
    - now rewrite map_map.
    - now rewrite nth_seq_all. }
  split; [rewrite sleeps_turns; now apply sleeps_between|].
  split; [reflexivity|].
  intros ->. reflexivity.
Qed.

End BatchContract.

(** A run on 250 items, the server answering request [k] with the one
    product [k]: three requests, for the items 0-99, 100-199 and
    200-249, and the products 0, 1, 2; and the run on no items. *)
Lemma batchUpdate_contract_witness :
  let item i :=
    {| ProductsClient.id := Num (Z.of_nat i);
       ProductsClient.stock_quantity := Num 7;
       ProductsClient.otherProps := [("name", JStr "mug")] |} in
  let wire i :=
    JObj [("id", JNum (Num (Z.of_nat i))); ("stock_quantity", JNum (Num 7));
          ("manage_stock", JBool true)] in
  let request from count :=
    ("products/batch",
     {| ProductsClient.reqCreate := None;
        ProductsClient.reqUpdate := Some (map wire (seq from count));
        ProductsClient.reqDelete := None |}) in
  let post endpoint body :=
    Recording.scripted
      (fun k => Return {| ProductsClient.create := None;
                          ProductsClient.update := Some [k];
                          ProductsClient.delete := None |})
      (endpoint, body) in
  let run :=
    @ProductsClient.batchUpdate _ _ (Recording.logTimers _) nat post None
      (map item (seq 0 250)) [] in
  Recording.calls (snd run)
  = [request 0 100; request 100 100; request 200 50]%nat
  /\ Recording.sleeps (snd run) = [Num 100; Num 100]
  /\ fst run
     = Return {| ProductsClient.create := None;
                 ProductsClient.update := Some [0; 1; 2]%nat;
                 ProductsClient.delete := None |}
  /\ @ProductsClient.batchUpdate _ _ (Recording.logTimers _) nat post None
       [] []
     = (Return {| ProductsClient.create := None;
                  ProductsClient.update := Some [];
                  ProductsClient.delete := None |}, []).
Proof.
  intros item wire request post run.
  pose proof (batchUpdate_contract (engine := referenceEngine) nat None
                (fun k => {| ProductsClient.create := None;
                             ProductsClient.update := Some [k];
                             ProductsClient.delete := None |})
                (map item (seq 0 250))
                ltac:(intros k; vm_compute; congruence)) as Hrun.
  pose proof (batchUpdate_contract (engine := referenceEngine) nat None
                (fun k => {| ProductsClient.create := None;
                             ProductsClient.update := Some [k];
                             ProductsClient.delete := None |})
                []
                ltac:(intros k; vm_compute; congruence)) as Hempty.
  cbv zeta in Hrun, Hempty.
  destruct Hrun as (_ & _ & _ & _ & Hcalls & Hsleeps & Hresult & _).
  destruct Hempty as (_ & _ & _ & _ & _ & _ & _ & Hnone).
  subst run post.
  split; [rewrite Hcalls; vm_compute; reflexivity|].
  split; [rewrite Hsleeps; vm_compute; reflexivity|].
  split; [rewrite Hresult; vm_compute; reflexivity|].
  apply Hnone. reflexivity.
Defined.

Section BatchWire.

Context {engine : Engine}.

Import ProductsClient Recording.
Local Open Scope list_scope.

Local Abbreviation Req := (string * BatchProductsRequest)%type.

Variable P : Type.
Variable env : option string.
Variable script : nat -> Outcome (BatchProductsResponse P).

Let post (endpoint : string) (body : BatchProductsRequest) :=
  scripted script (endpoint, body).

(** The submission loop only adds to the log, and what it adds are
    requests for chunks it was given. *)
Lemma submitLoop_extends (batches : list (list StockUpdate))
  (indices : list nat) :
  forall allResults log,
    exists chunks,
      Forall (fun c => In c batches) chunks
      /\ calls (snd (@submitLoop _ (Log Req) (logTimers Req) P post env
                       batches indices allResults log))
         = calls log ++ map batchRequestOf chunks.
Proof.
  induction indices as [|i indices IH]; intros allResults log.
  - exists []. split; [constructor|]. cbn. now rewrite app_nil_r.
  - cbn [submitLoop]. destruct (nth_error batches i) as [batch|] eqn:Hi;
      [|apply IH].
    assert (Hbatch : In batch batches) by (eapply nth_error_In; eassumption).
    unfold bind at 1. unfold post at 1, scripted at 1.
    destruct (script (List.length (calls log))) as [resp|t].
    + unfold bind at 1.
      destruct (update resp) as [products|];
        [unfold pushSpread;
         destruct (argumentLimit <? Z.of_nat (List.length products))
        |unfold ret at 1];
        try (exists [batch]; split;
             [constructor; [exact Hbatch | constructor]
             |cbn [snd]; rewrite calls_app; reflexivity]);
        unfold bind at 1;
        (destruct (Z.of_nat i <? Z.of_nat (List.length batches) - 1);
         [cbn [timerResolve logTimers] | unfold ret];
         match goal with
         | |- context [submitLoop P _ env batches indices ?acc ?w] =>
             destruct (IH acc w) as (chunks & Hin & Hcalls)
         end;
         exists (batch :: chunks);
         (split;
          [constructor; [exact Hbatch | exact Hin]
          |fold post; rewrite Hcalls, !calls_app;
           cbn [calls flat_map map app];
           now rewrite ?app_nil_r, <- ?app_assoc])).
    + exists [batch]. split.
      * constructor; [exact Hbatch | constructor].
      * cbn [snd]. rewrite calls_app. reflexivity.
Qed.

(** A non-empty list of chunks has its first chunk submitted. *)
Lemma submitLoop_first (first : list StockUpdate)
  (others : list (list StockUpdate)) (indices : list nat)
  (allResults : list P) :
  exists rest,
    calls (snd (@submitLoop _ (Log Req) (logTimers Req) P post env
                  (first :: others) (0%nat :: indices) allResults []))
    = batchRequestOf first :: rest.
Proof.
  cbn [submitLoop nth_error]. unfold bind at 1. unfold post at 1, scripted at 1.
  destruct (script (List.length (calls []))) as [resp|t];
    [|eexists; reflexivity].
  unfold bind at 1.
  destruct (update resp) as [products|];
    [unfold pushSpread;
     destruct (argumentLimit <? Z.of_nat (List.length products))
    |unfold ret at 1];
    try (eexists; reflexivity);
    unfold bind at 1;
    (destruct (Z.of_nat 0 <? Z.of_nat (List.length (first :: others)) - 1);
     [cbn [timerResolve logTimers] | unfold ret];
     match goal with
     | |- context [submitLoop P _ env ?bs ?ix ?acc ?w] =>
         destruct (submitLoop_extends bs ix acc w) as (chunks & _ & Hcalls)
     end;
     fold post; rewrite Hcalls; eexists; reflexivity).
Qed.

End BatchWire.

Section BatchWireContract.

Context {engine : Engine}.

Import ProductsClient Recording.
Local Open Scope list_scope.

Local Abbreviation Req := (string * BatchProductsRequest)%type.

(** C10.  Whatever the responses, every request [batchUpdate] submits
    goes to [products/batch] and carries nothing but an [update] list;
    each item of that list is made from an input item and holds its
    [id], its [stock_quantity] and [manage_stock: true], and nothing
    else of it; and for a non-empty input the first chunk is always
    submitted. *)
Theorem batchUpdate_wire_items
  (P : Type) (env : option string)
  (script : nat -> Outcome (BatchProductsResponse P))
  (updates : list StockUpdate) :
  let log :=
    snd (@batchUpdate _ (Log Req) (logTimers Req) P
           (fun endpoint body => scripted script (endpoint, body))
           env updates []) in
  (updates <> [] ->
   exists rest, calls log = batchRequestOf (firstn 100 updates) :: rest)
  /\ Forall
       (fun call : Req =>
          fst call = "products/batch"%string
          /\ reqCreate (snd call) = None
          /\ reqDelete (snd call) = None
          /\ exists batch,
              incl batch updates
              /\ reqUpdate (snd call)
                 = Some (map (fun item =>
                                JObj [("id"%string, JNum (id item));
                                      ("stock_quantity"%string,
                                       JNum (stock_quantity item));
                                      ("manage_stock"%string, JBool true)])
                           batch))
       (calls log).
Proof.
  intros log. subst log. unfold batchUpdate.
  destruct updates as [|u us] eqn:Hu; [split; [congruence | constructor]|].
  rewrite <- Hu. replace (List.length updates =? 0)%nat with false
    by (subst updates; reflexivity).
  rewrite snd_bind_ret.
  set (batches := splitBatches updates).
  assert (Hconcat : List.concat batches = updates).
  { unfold batches. rewrite splitBatches_chunksOf.
    apply chunksOf_concat; [unfold BATCH_SIZE; lia | lia]. }
  assert (Hsub : forall c, In c batches -> incl c updates).
  { intros c Hc x Hx. rewrite <- Hconcat. apply in_concat. eauto. }
  split.
  - intros _.
    assert (Hb : batches = firstn 100 updates :: tl batches).
    { unfold batches. rewrite splitBatches_chunksOf. subst updates.
      reflexivity. }
    rewrite Hb. cbn [List.length seq].
    apply submitLoop_first.
  - destruct (submitLoop_extends P env script batches
                (seq 0 (List.length batches)) [] [])
      as (chunks & Hin & Hcalls).
    rewrite Hcalls. cbn [calls flat_map app].
    apply Forall_map, Forall_forall. intros c Hc.
    repeat split. exists c. split; [|reflexivity].
    apply Hsub. rewrite Forall_forall in Hin. now apply Hin.
Qed.

End BatchWireContract.

Lemma batchUpdate_wire_items_witness :
  exists rest,
    Recording.calls
      (snd (@ProductsClient.batchUpdate _ _ (Recording.logTimers _) unit
              (fun endpoint body =>
                 Recording.scripted
                   (fun _ => Throw (ThrownError (newError (JStr "offline"))))
                   (endpoint, body))
              None
              [{| ProductsClient.id := Num 123;
                  ProductsClient.stock_quantity := Num 50;
                  ProductsClient.otherProps := [("manage_stock", JBool false)] |}]
              []))
    = ("products/batch",
       {| ProductsClient.reqCreate := None;
          ProductsClient.reqUpdate :=
            Some [JObj [("id", JNum (Num 123));
                        ("stock_quantity", JNum (Num 50));
                        ("manage_stock", JBool true)]];
          ProductsClient.reqDelete := None |}) :: rest.
Proof.
  apply (proj1 (batchUpdate_wire_items unit None
                  (fun _ => Throw (ThrownError (newError (JStr "offline"))))
                  [{| ProductsClient.id := Num 123;
                      ProductsClient.stock_quantity := Num 50;
                      ProductsClient.otherProps := [("manage_stock", JBool false)] |}])).
  discriminate.
Defined.

(** ** Error Classifier *)

Section ParseInt.

Context {engine : Engine}.

Import Utils.

Lemma leadingDigits_numeric (s : string) :
  allDigits s = true ->
  forall acc,
    leadingDigits (Some acc) s
    = Some (acc * 10 ^ Z.of_nat (String.length s) + decimalValue s).
Proof.
  induction s as [|c s IH]; intros Hs acc.
  - cbn. f_equal. lia.
  - cbn [allDigits] in Hs. apply andb_prop in Hs as [Hc Hs].
    cbn [leadingDigits decimalValue String.length].
    unfold digitValue. unfold isDigit in Hc. rewrite Hc.
    rewrite (IH Hs). f_equal.
    apply andb_prop in Hc as [Hlo _]. apply Nat.leb_le in Hlo.
    rewrite Nat2Z.inj_succ, Z.pow_succ_r by lia.
    rewrite Nat2Z.inj_sub by exact Hlo. change (Z.of_nat 48) with 48. ring.
Qed.

Lemma trimStart_digit (c : ascii) (s : string) :
  isDigit c = true -> trimStart (String c s) = String c s.
Proof.
  intros Hc. cbn [trimStart].
  replace (isWhiteSpace c) with false; [reflexivity|].
  unfold isDigit in Hc. unfold isWhiteSpace.
  apply andb_prop in Hc as [Hlo Hhi].
  apply Nat.leb_le in Hlo. apply Nat.leb_le in Hhi.
  symmetry. apply orb_false_iff. split.
  - apply andb_false_iff. right. apply Nat.leb_gt. lia.
  - apply Nat.eqb_neq. lia.
Qed.

(** A digit is an ASCII character. *)
Lemma digit_ascii (c : ascii) : isDigit c = true -> isAsciiChar c = true.
Proof.
  unfold isDigit, isAsciiChar. intros Hc. apply andb_prop in Hc as [_ Hhi].
  apply Nat.leb_le in Hhi. apply Nat.ltb_lt. lia.
Qed.

(** On a run of digits that denotes no more than [2^53], [parseInt]
    gives the number the digits denote. *)
Lemma parseInt10_numeric (s : string) :
  isNumeric s = true ->
  decimalValue s <= 2 ^ 53 ->
  parseInt10 s = Num (decimalValue s).
Proof.
  unfold isNumeric. intros Hs Hbound. apply andb_prop in Hs as [Hne Hs].
  destruct s as [|c s]; [discriminate|].
  pose proof Hs as Hs'. cbn [allDigits] in Hs'.
  apply andb_prop in Hs' as [Hc _].
  unfold parseInt10. rewrite (trimStart_digit c s Hc).
  cbv beta iota. rewrite (digit_ascii c Hc). cbn [negb].
  assert (Hsign : c <> "-"%char /\ c <> "+"%char).
  { split; intros ->; discriminate. }
  destruct Hsign as [Hminus Hplus].
  assert (Hlead : leadingDigits None (String c s)
                  = Some (decimalValue (String c s))).
  { cbn [leadingDigits]. unfold digitValue. unfold isDigit in Hc. rewrite Hc.
    cbn [allDigits] in Hs. apply andb_prop in Hs as [_ Hs].
    rewrite (leadingDigits_numeric s Hs). f_equal.
    cbn [decimalValue].
    apply andb_prop in Hc as [Hlo _]. apply Nat.leb_le in Hlo.
    rewrite Nat2Z.inj_sub by exact Hlo. change (Z.of_nat 48) with 48. ring. }
  apply Z.leb_le in Hbound.
  destruct c as [b0 b1 b2 b3 b4 b5 b6 b7].
  destruct b0, b1, b2, b3, b4, b5, b6, b7;
    try (exfalso; apply Hminus; reflexivity);
    try (exfalso; apply Hplus; reflexivity);
    rewrite Hlead, Hbound; f_equal; lia.
Qed.

End ParseInt.

Section Classifier.

Context {engine : Engine}.

Import BaseClient.

Variable response : Response.







End Classifier.

Section ClassifierContract.

Context {engine : Engine}.

Import BaseClient.

Context {W : Type}.


End ClassifierContract.


(** ** Request Executor *)

Section RequestCatch.

Context {engine : Engine}.

Import BaseClient.

Lemma requestCatch_error (e : ErrorObj) :
  requestCatch (ThrownError e)
  = if String.eqb (name e) "AbortError"
    then WooCommerceNetworkError (JStr "Request timeout") (Some e)
    else if networkIndicative (message e)
         then WooCommerceNetworkError (JStr "Network request failed") (Some e)
         else if instanceofWooCommerceError e then e
              else WooCommerceError (JStr (message e)) None JUndefined.
Proof. reflexivity. Qed.

(** The classifier throws an error of the taxonomy that is not named
    [AbortError], and leaves the world as it is. *)
Lemma handleErrorResponse_throws {W : Type} (response : Response) (w : W) :
  exists e,
    handleErrorResponse response w = (Throw (ThrownError e), w)
    /\ instanceofWooCommerceError e = true
    /\ String.eqb (name e) "AbortError" = false.
Proof.
  unfold handleErrorResponse.
  repeat match goal with
    | |- context [if ?c then _ else _] => destruct c
    end; eexists; (split; [reflexivity|]); split; reflexivity.
Qed.

End RequestCatch.

Section RequestRuns.

Context {engine : Engine}.

Import BaseClient.

Context {W : Type} `{Host W}.
Variable this : Client.
Variable endpoint : string.
Variable options : RequestInit.
Variable w : W.

(** What the [try] block settles to, by the answer of its [fetch]: a
    rejection is thrown on; a response that is not a success goes to
    the classifier, which throws; a 204 gives the empty object; any
    other success gives what reading its body gives. *)
Lemma attempt_outcome (requestUrl : string) (init : RequestInit)
  (timeoutId : TimerId) (w1 : W) :
  fst (attempt requestUrl init timeoutId w1)
  = match fetch requestUrl init timeoutId w1 with
    | (Throw rejection, _) => Throw rejection
    | (Return r, w2) =>
        let body := if status r =? 204 then Return (JObj []) else json r in
        if negb (ok r)
        then match fst (handleErrorResponse r (clearTimeout timeoutId w2)) with
             | Throw raised => Throw raised
             | Return _ => body
             end
        else body
    end.
Proof.
  unfold attempt, bind.
  destruct (fetch requestUrl init timeoutId w1) as [[r|rejection] w2];
    [|reflexivity].
  cbv zeta. destruct (ok r); cbn [negb].
  - unfold ret. destruct (status r =? 204); reflexivity.
  - destruct (handleErrorResponse_throws r (clearTimeout timeoutId w2))
      as (e & He & _).
    now rewrite He.
Qed.

(** A call settles to what its [try] block returns, or throws what the
    [catch] block makes of what the [try] block throws. *)
Lemma request_outcome :
  let '((requestUrl, init, timeoutId), w1) := prepare this endpoint options w in
  fst (request this endpoint options w)
  = match fst (attempt requestUrl init timeoutId w1) with
    | Return v => Return v
    | Throw t => Throw (ThrownError (requestCatch t))
    end.
Proof.
  unfold request.
  destruct (prepare this endpoint options w) as [[[requestUrl init] timeoutId] w1].
  unfold tryCatch.
  destruct (attempt requestUrl init timeoutId w1) as [[v|t] w2]; reflexivity.
Qed.

(** [t] is thrown inside the [try] block exactly when the block settles
    to a throw of [t]. *)
Lemma thrownInTry_attempt (t : Thrown) :
  thrownInTry this endpoint options w t
  <-> let '((requestUrl, init, timeoutId), w1) :=
        prepare this endpoint options w in
      fst (attempt requestUrl init timeoutId w1) = Throw t.
Proof.
  unfold thrownInTry.
  destruct (prepare this endpoint options w) as [[[requestUrl init] timeoutId] w1].
  rewrite attempt_outcome.
  destruct (fetch requestUrl init timeoutId w1) as [[r|rejection] w2].
  - cbv zeta. destruct (ok r); cbn [negb].
    2:{ destruct (handleErrorResponse_throws r (clearTimeout timeoutId w2))
          as (e & He & _).
        rewrite He. cbn [fst]. split; congruence. }
    destruct (Z.eqb_spec (status r) 204) as [H204|H204]; split.
    + intros [Hne _]. contradiction.
    + discriminate.
    + intros [_ ->]. reflexivity.
    + intros Hjson. split; assumption.
  - split; congruence.
Qed.

(** Whatever is thrown inside the [try] block, the caller gets what the
    [catch] block makes of it. *)
Lemma request_thrown_in_try (t : Thrown) :
  thrownInTry this endpoint options w t ->
  fst (request this endpoint options w)
  = Throw (ThrownError (requestCatch t)).
Proof.
  intros Hthrown. apply thrownInTry_attempt in Hthrown.
  pose proof request_outcome as Hout.
  destruct (prepare this endpoint options w) as [[[requestUrl init] timeoutId] w1].
  now rewrite Hout, Hthrown.
Qed.

(** A call throws nothing else. *)
Lemma request_throws_from_try (thrown : Thrown) :
  fst (request this endpoint options w) = Throw thrown ->
  exists t,
    thrownInTry this endpoint options w t
    /\ thrown = ThrownError (requestCatch t).
Proof.
  intros Hrun. pose proof request_outcome as Hout.
  pose proof thrownInTry_attempt as Hiff.
  destruct (prepare this endpoint options w) as [[[requestUrl init] timeoutId] w1].
  rewrite Hrun in Hout.
  destruct (fst (attempt requestUrl init timeoutId w1)) as [v|t] eqn:Ha;
    [discriminate|].
  exists t. split; [now apply Hiff | congruence].
Qed.

End RequestRuns.

Section RequestErrorContract.

Context {engine : Engine}.

Import BaseClient.

Context {W : Type} `{Host W}.

(** C1, as the code has it.  Whatever is thrown inside a call of
    [request] (its [fetch] rejecting, the classifier raising on the
    response of the [fetch], the body failing to parse), on any host
    and in any world, reaches the caller as one error of the
    taxonomy.  An error of the taxonomy that is not named
    [AbortError] and whose message does not speak of the network comes
    out as the same error, unchanged.  Of the throwables outside the
    taxonomy, an [Error] named [AbortError] becomes a network error
    [Request timeout], an [Error] whose message speaks of the network
    becomes a network error [Network request failed], both holding the
    original as their cause; any other [Error] becomes a base error
    with the same message; a thrown value that is not an [Error]
    becomes a base error [Unknown error occurred]. *)
Theorem request_error_propagation
  (this : Client) (endpoint : string) (options : RequestInit) (w : W)
  (t : Thrown) :
  thrownInTry this endpoint options w t ->
  exists e,
    fst (request this endpoint options w) = Throw (ThrownError e)
    /\ instanceofWooCommerceError e = true
    /\ (forall err,
           t = ThrownError err ->
           instanceofWooCommerceError err = true ->
           name err <> "AbortError" ->
           networkIndicative (message err) = false ->
           e = err)
    /\ (forall err,
           t = ThrownError err ->
           instanceofWooCommerceError err = false ->
           name err = "AbortError" ->
           cls e = ClsNetworkError
           /\ message e = "Request timeout"
           /\ originalError e = Some err)
    /\ (forall err,
           t = ThrownError err ->
           instanceofWooCommerceError err = false ->
           name err <> "AbortError" ->
           networkIndicative (message err) = true ->
           cls e = ClsNetworkError
           /\ message e = "Network request failed"
           /\ originalError e = Some err)
    /\ (forall err,
           t = ThrownError err ->
           instanceofWooCommerceError err = false ->
           name err <> "AbortError" ->
           networkIndicative (message err) = false ->
           cls e = ClsWooCommerceError
           /\ message e = message err
           /\ statusCode e = None)
    /\ (forall v,
           t = ThrownValue v ->
           cls e = ClsWooCommerceError
           /\ message e = "Unknown error occurred").
Proof.
  intros Hthrown. exists (requestCatch t).
  split; [now apply request_thrown_in_try|].
  split.
  { destruct t as [err|v]; [|reflexivity].
    rewrite requestCatch_error.
    destruct (String.eqb (name err) "AbortError"); [reflexivity|].
    destruct (networkIndicative (message err)); [reflexivity|].
    destruct (instanceofWooCommerceError err) eqn:Hi; [exact Hi|reflexivity]. }
  repeat split; intros; subst t;
    try rewrite requestCatch_error;
    repeat match goal with
      | Hn : name ?e <> "AbortError" |- _ =>
          apply String.eqb_neq in Hn; rewrite Hn
      | Hn : name ?e = "AbortError" |- _ => rewrite Hn; clear Hn
      | Hn : networkIndicative _ = _ |- _ => rewrite Hn; clear Hn
      | Hn : instanceofWooCommerceError _ = _ |- _ => rewrite Hn; clear Hn
      end; reflexivity.
Qed.

End RequestErrorContract.

(** A not-found error thrown inside the request comes out unchanged, and
    a 404 response comes out as the not-found error the classifier made
    of it. *)
Lemma request_error_propagation_witness :
  fst (@BaseClient.request _ _
         (Recording.recordingHost
            (fun _ => Throw (ThrownError
                               (WooCommerceNotFoundError (JStr "No such product")
                                  JUndefined)))
            (fun _ _ _ => "OAuth"))
         (BaseClient.constructor
            {| BaseClient.url := "https://example.com";
               BaseClient.consumerKey := "ck_test";
               BaseClient.consumerSecret := "cs_test";
               BaseClient.version := None;
               BaseClient.timeout := None;
               BaseClient.queryStringAuth := None |})
         "products/999"
         {| BaseClient.method := Some "GET";
            BaseClient.headers := [];
            BaseClient.body := None |}
         [])
  = Throw (ThrownError (WooCommerceNotFoundError (JStr "No such product") JUndefined))
  /\ fst (@BaseClient.request _ _
            (Recording.recordingHost
               (fun _ => Return
                           {| BaseClient.ok := false;
                              BaseClient.status := 404;
                              BaseClient.statusText := "Not Found";
                              BaseClient.respHeaders := [];
                              BaseClient.json :=
                                Return (JObj [("message", JStr "No such product")]) |})
               (fun _ _ _ => "OAuth"))
            (BaseClient.constructor
               {| BaseClient.url := "https://example.com";
                  BaseClient.consumerKey := "ck_test";
                  BaseClient.consumerSecret := "cs_test";
                  BaseClient.version := None;
                  BaseClient.timeout := None;
                  BaseClient.queryStringAuth := None |})
            "products/999"
            {| BaseClient.method := Some "GET";
               BaseClient.headers := [];
               BaseClient.body := None |}
            [])
     = Throw (ThrownError
                (WooCommerceNotFoundError (JStr "No such product")
                   (JObj [("message", JStr "No such product")]))).
Proof.
  split.
  - destruct (@request_error_propagation _ _
                (Recording.recordingHost
                   (fun _ => Throw (ThrownError
                                      (WooCommerceNotFoundError
                                         (JStr "No such product") JUndefined)))
                   (fun _ _ _ => "OAuth"))
                (BaseClient.constructor
                   {| BaseClient.url := "https://example.com";
                      BaseClient.consumerKey := "ck_test";
                      BaseClient.consumerSecret := "cs_test";
                      BaseClient.version := None;
                      BaseClient.timeout := None;
                      BaseClient.queryStringAuth := None |})
                "products/999"
                {| BaseClient.method := Some "GET";
                   BaseClient.headers := [];
                   BaseClient.body := None |}
                [] _ eq_refl)
      as (e & Hrun & _ & Hsame & _).
    rewrite Hrun. do 2 f_equal.
    apply Hsame; [reflexivity | reflexivity | discriminate | reflexivity].
  - destruct (@request_error_propagation _ _
                (Recording.recordingHost
                   (fun _ => Return
                               {| BaseClient.ok := false;
                                  BaseClient.status := 404;
                                  BaseClient.statusText := "Not Found";
                                  BaseClient.respHeaders := [];
                                  BaseClient.json :=
                                    Return (JObj [("message",
                                                   JStr "No such product")]) |})
                   (fun _ _ _ => "OAuth"))
                (BaseClient.constructor
                   {| BaseClient.url := "https://example.com";
                      BaseClient.consumerKey := "ck_test";
                      BaseClient.consumerSecret := "cs_test";
                      BaseClient.version := None;
                      BaseClient.timeout := None;
                      BaseClient.queryStringAuth := None |})
                "products/999"
                {| BaseClient.method := Some "GET";
                   BaseClient.headers := [];
                   BaseClient.body := None |}
                [] _ eq_refl)
      as (e & Hrun & _ & Hsame & _).
    rewrite Hrun. do 2 f_equal.
    apply Hsame; [reflexivity | reflexivity | discriminate | reflexivity].
Defined.

(** C1 as the specification words it fails on a throwable outside the
    taxonomy whose message speaks of the network: it comes out as a
    network error with a fixed message, not as a base error with its own
    message. *)
Lemma request_network_error_not_base :
  exists e,
    fst (@BaseClient.request _ _
           (Recording.recordingHost
              (fun _ => Throw (ThrownError
                                 (mkError ClsError "TypeError" "fetch failed"
                                    None JUndefined JUndefined None None)))
              (fun _ _ _ => "OAuth"))
           (BaseClient.constructor
              {| BaseClient.url := "https://example.com";
                 BaseClient.consumerKey := "ck_test";
                 BaseClient.consumerSecret := "cs_test";
                 BaseClient.version := None;
                 BaseClient.timeout := None;
                 BaseClient.queryStringAuth := None |})
           "products"
           {| BaseClient.method := Some "GET";
              BaseClient.headers := [];
              BaseClient.body := None |}
           [])
    = Throw (ThrownError e)
    /\ cls e = ClsNetworkError
    /\ cls e <> ClsWooCommerceError
    /\ message e = "Network request failed"
    /\ message e <> "fetch failed".
Proof.
  eexists. split; [reflexivity|].
  repeat split; discriminate.
Qed.

(** ** Authenticator *)

Section Objects.

Context {engine : Engine}.

Context {V : Type}.

Lemma getProp_setProp_same (obj : list (string * V)) (key : string) (v : V) :
  getProp (setProp obj key v) key = Some v.
Proof.
  induction obj as [|[k x] obj IH]; cbn [setProp getProp].
  - now rewrite String.eqb_refl.
  - destruct (String.eqb k key) eqn:Hk; cbn [getProp]; rewrite Hk;
      [reflexivity | exact IH].
Qed.

Lemma getProp_setProp_other (obj : list (string * V)) (key key' : string)
  (v : V) :
  key' <> key -> getProp (setProp obj key' v) key = getProp obj key.
Proof.
  intros Hne. induction obj as [|[k x] obj IH]; cbn [setProp getProp].
  - apply String.eqb_neq in Hne. now rewrite Hne.
  - destruct (String.eqb k key') eqn:Hk; cbn [getProp].
    + apply String.eqb_eq in Hk. subst k.
      apply String.eqb_neq in Hne. now rewrite Hne.
    + destruct (String.eqb k key); [reflexivity | exact IH].
Qed.

Lemma getProp_not_in (obj : list (string * V)) (key : string) :
  ~ In key (map fst obj) -> getProp obj key = None.
Proof.
  induction obj as [|[k x] obj IH]; intros Hin; [reflexivity|].
  cbn [getProp]. destruct (String.eqb_spec k key) as [->|Hne].
  - exfalso. apply Hin. now left.
  - apply IH. intros Hin'. apply Hin. now right.
Qed.

Lemma getProp_spread_none (source : list (string * V)) (key : string) :
  getProp source key = None ->
  forall target, getProp (spread target source) key = getProp target key.
Proof.
  unfold spread.
  induction source as [|[k x] source IH]; intros Hnone target; [reflexivity|].
  cbn [fold_left fst snd]. cbn [getProp] in Hnone.
  destruct (String.eqb_spec k key) as [->|Hne]; [discriminate|].
  rewrite (IH Hnone). now apply getProp_setProp_other.
Qed.

(** In a spread the source wins. *)
Lemma getProp_spread_some (source : list (string * V)) (key : string) (v : V) :
  NoDup (map fst source) ->
  getProp source key = Some v ->
  forall target, getProp (spread target source) key = Some v.
Proof.
  unfold spread.
  induction source as [|[k x] source IH]; intros Hnd Hsome target;
    [discriminate|].
  cbn [fold_left fst snd]. cbn [getProp] in Hsome.
  cbn [map fst] in Hnd. inversion Hnd as [|? ? Hnotin Hnd']; subst.
  destruct (String.eqb_spec k key) as [->|Hne].
  - inversion Hsome; subst x.
    pose proof (getProp_spread_none source key (getProp_not_in _ _ Hnotin))
      as Hrest.
    unfold spread in Hrest. rewrite Hrest. apply getProp_setProp_same.
  - now apply IH.
Qed.

Lemma setProp_keys (obj : list (string * V)) (key : string) (v : V) (k : string) :
  In k (map fst (setProp obj key v)) -> k = key \/ In k (map fst obj).
Proof.
  induction obj as [|[k' x'] obj IH]; cbn [setProp map fst].
  - intros [Hin|[]]. now left.
  - destruct (String.eqb_spec k' key) as [->|Hne']; cbn [map fst].
    + intros [Hin|Hin]; [now left | right; now right].
    + intros [Hin|Hin]; [right; now left|].
      destruct (IH Hin) as [Hk|Hk]; [now left | right; now right].
Qed.

Lemma setProp_keys_NoDup (obj : list (string * V)) (key : string) (v : V) :
  NoDup (map fst obj) -> NoDup (map fst (setProp obj key v)).
Proof.
  induction obj as [|[k x] obj IH]; intros Hnd; cbn [setProp].
  - cbn. constructor; [intros [] | constructor].
  - cbn [map fst] in Hnd. inversion Hnd as [|? ? Hnotin Hnd']; subst.
    destruct (String.eqb_spec k key) as [->|Hne]; cbn [map fst].
    + constructor; assumption.
    + constructor; [|now apply IH].
      intros Hin. destruct (setProp_keys _ _ _ _ Hin) as [Hk|Hk];
        [congruence | contradiction].
Qed.

End Objects.

Section Schemes.

Context {engine : Engine}.

(** No string starts with both [https://] and [http://]. *)
Lemma https_not_http (s : string) :
  startsWith s "https://" = true -> startsWith s "http://" = false.
Proof.
  unfold startsWith.
  destruct s as [|c0 s]; [discriminate|]. cbn [String.prefix].
  destruct (ascii_dec "h" c0); [|discriminate].
  destruct s as [|c1 s]; [discriminate|]. cbn [String.prefix].
  destruct (ascii_dec "t" c1); [|discriminate].
  destruct s as [|c2 s]; [discriminate|]. cbn [String.prefix].
  destruct (ascii_dec "t" c2); [|discriminate].
  destruct s as [|c3 s]; [discriminate|]. cbn [String.prefix].
  destruct (ascii_dec "p" c3); [|discriminate].
  destruct s as [|c4 s]; [discriminate|]. cbn [String.prefix].
  destruct (ascii_dec "s" c4) as [<-|]; [|discriminate].
  intros _. reflexivity.
Qed.

Lemma normalizeUrl_hasProtocol (url : string) :
  url <> "" -> hasProtocol (Utils.normalizeUrl url) = true.
Proof.
  intros Hne. rewrite normalizeUrl_nonempty by exact Hne.
  unfold ensureProtocol.
  destruct (hasProtocol (Utils.removeTrailingSlash url)) eqn:Hp; [exact Hp|].
  unfold hasProtocol, startsWith. cbn [append String.prefix].
  destruct (Utils.removeTrailingSlash url); reflexivity.
Qed.

End Schemes.

Section RequestLog.

Context {engine : Engine}.

Import BaseClient Recording.
Local Open Scope list_scope.

Variable responses : nat -> Outcome Response.
Variable sign : string * string -> string -> string -> string.
Variable this : Client.
Variable endpoint : string.
Variable options : RequestInit.

(** Whatever the answer to the [fetch], the rest of [request] makes no
    other. *)
Ltac after_fetch :=
  unfold tryCatch, attempt, bind;
  cbn [fetch recordingHost fetches flat_map List.length app];
  destruct (responses 0%nat) as [r|t];
  [ cbn [clearTimeout recordingHost app];
    destruct (ok r); cbn [negb];
    [ unfold ret; destruct (status r =? 204); [reflexivity|];
      destruct (json r); reflexivity
    | match goal with
      | |- context [handleErrorResponse r ?w] =>
          destruct (handleErrorResponse_throws r w) as (e & He & _);
          rewrite He
      end; reflexivity ]
  | reflexivity ].

Lemma request_fetches_query_string :
  clientQueryStringAuth this = true ->
  let url :=
    (baseUrl this ++ "/wp-json/" ++ clientVersion this ++ "/" ++ endpoint)%string in
  fetches (snd (@request _ _ (recordingHost responses sign) this endpoint
                  options []))
  = [((url ++ (if includes url "?" then "&" else "?")
         ++ "consumer_key="
         ++ Utils.encodeURIComponent (clientConsumerKey this)
         ++ "&consumer_secret="
         ++ Utils.encodeURIComponent (clientConsumerSecret this))%string,
      {| method := method options;
         headers :=
           spread [("Content-Type", "application/json");
                   ("Accept", "application/json");
                   ("User-Agent", "WooCommerce-SDK/1.0")]%string
             (headers options);
         body := body options |})].
Proof.
  intros Hqs url. unfold request, prepare. rewrite Hqs.
  cbn [setAbortTimeout recordingHost timersSet filter List.length app].
  after_fetch.
Qed.

Lemma request_fetches_signed (consumer : string * string) :
  clientQueryStringAuth this = false ->
  oauth this = Some consumer ->
  let url :=
    (baseUrl this ++ "/wp-json/" ++ clientVersion this ++ "/" ++ endpoint)%string in
  let method' :=
    toUpperCase
      match method options with
      | Some m => if String.eqb m "" then "GET"%string else m
      | None => "GET"%string
      end in
  fetches (snd (@request _ _ (recordingHost responses sign) this endpoint
                  options []))
  = [(url,
      {| method := method options;
         headers :=
           spread [("Content-Type", "application/json");
                   ("Accept", "application/json");
                   ("User-Agent", "WooCommerce-SDK/1.0")]%string
             (setProp (headers options) "Authorization"
                (sign consumer url method'));
         body := body options |})].
Proof.
  intros Hqs Ho url method'. unfold request, prepare. rewrite Hqs, Ho.
  cbn [oauthAuthorization setAbortTimeout recordingHost timersSet filter
         List.length app].
  after_fetch.
Qed.

End RequestLog.

Section AuthModeContract.

Context {engine : Engine}.

Import BaseClient Recording.
Local Open Scope list_scope.

(** C8, as the code has it.  When the configuration leaves the mode
    open, the client authenticates by query string exactly when the
    normalized base URL starts with [https://], and, the configured
    URL not being empty, by signed header exactly when it starts with
    [http://]; a mode given in the configuration is the mode used.  In
    query-string mode every request is fetched at its URL followed by
    [consumer_key] and [consumer_secret], percent-encoded, and no
    [Authorization] header is added; in signed-header mode it is
    fetched at its plain URL with the [Authorization] header the OAuth
    signer gives for the consumer pair, that URL and the upper-cased
    method. *)
Theorem transport_auth_mode (config : WooCommerceConfig) :
  let this := constructor config in
  baseUrl this = Utils.normalizeUrl (url config)
  /\ (queryStringAuth config = None ->
      clientQueryStringAuth this = startsWith (baseUrl this) "https://"
      /\ (url config <> ""%string ->
          (clientQueryStringAuth this = false
           <-> startsWith (baseUrl this) "http://" = true)))
  /\ (forall b, queryStringAuth config = Some b ->
                clientQueryStringAuth this = b)
  /\ (forall responses sign endpoint options,
         NoDup (map fst (headers options)) ->
         let url :=
           (baseUrl this ++ "/wp-json/" ++ clientVersion this ++ "/"
              ++ endpoint)%string in
         let log :=
           snd (@request _ _ (recordingHost responses sign) this endpoint
                  options []) in
         (clientQueryStringAuth this = true ->
          exists init,
            fetches log
            = [((url ++ (if includes url "?" then "&" else "?")
                   ++ "consumer_key="
                   ++ Utils.encodeURIComponent (consumerKey config)
                   ++ "&consumer_secret="
                   ++ Utils.encodeURIComponent (consumerSecret config))%string,
                init)]
            /\ getProp (headers init) "Authorization"
               = getProp (headers options) "Authorization")
         /\ (clientQueryStringAuth this = false ->
             exists init,
               fetches log = [(url, init)]
               /\ getProp (headers init) "Authorization"
                  = Some (sign (consumerKey config, consumerSecret config) url
                            (toUpperCase
                               match method options with
                               | Some m =>
                                   if String.eqb m "" then "GET"%string else m
                               | None => "GET"%string
                               end)))).
Proof.
  intros this. split; [reflexivity|]. split; [|split].
  - intros Hnone.
    assert (Hmode : clientQueryStringAuth this
                    = startsWith (baseUrl this) "https://").
    { subst this. unfold constructor. cbn [clientQueryStringAuth baseUrl].
      now rewrite Hnone. }
    split; [exact Hmode|].
    intros Hne. rewrite Hmode.
    pose proof (normalizeUrl_hasProtocol (url config) Hne) as Hp.
    change (Utils.normalizeUrl (url config)) with (baseUrl this) in Hp.
    unfold hasProtocol in Hp. split.
    + intros Hs. rewrite Hs, orb_false_r in Hp. exact Hp.
    + intros Hh. destruct (startsWith (baseUrl this) "https://") eqn:Hs;
        [|reflexivity].
      apply https_not_http in Hs. congruence.
  - intros b Hb. subst this. unfold constructor.
    cbn [clientQueryStringAuth]. now rewrite Hb.
  - intros responses sign endpoint options Hnd url log. split.
    + intros Hqs. eexists. split.
      * subst log. apply (request_fetches_query_string _ _ _ _ _ Hqs).
      * cbn [headers].
        destruct (getProp (headers options) "Authorization") as [v|] eqn:Hget.
        -- now apply getProp_spread_some.
        -- now rewrite getProp_spread_none.
    + intros Hqs. eexists. split.
      * subst log.
        apply (request_fetches_signed _ _ _ _ _
                 (consumerKey config, consumerSecret config) Hqs).
        subst this. unfold constructor in *. cbn [oauth clientQueryStringAuth] in *.
        now rewrite Hqs.
      * cbn [headers]. apply getProp_spread_some.
        -- now apply setProp_keys_NoDup.
        -- apply getProp_setProp_same.
Qed.

End AuthModeContract.

(** With the mode left open, a store at [https://example.com] is
    reached with the credentials in the query string, and a store at
    [http://example.com] with a signed header. *)
Lemma transport_auth_mode_witness :
  BaseClient.clientQueryStringAuth
    (BaseClient.constructor
       {| BaseClient.url := "https://example.com";
          BaseClient.consumerKey := "ck_test";
          BaseClient.consumerSecret := "cs_test";
          BaseClient.version := None;
          BaseClient.timeout := None;
          BaseClient.queryStringAuth := None |}) = true
  /\ BaseClient.clientQueryStringAuth
       (BaseClient.constructor
          {| BaseClient.url := "http://example.com";
             BaseClient.consumerKey := "ck_test";
             BaseClient.consumerSecret := "cs_test";
             BaseClient.version := None;
             BaseClient.timeout := None;
             BaseClient.queryStringAuth := None |}) = false
  /\ exists init,
      Recording.fetches
        (snd (@BaseClient.request _ _
                (Recording.recordingHost
                   (fun _ => Throw (ThrownValue JNull)) (fun _ _ _ => "OAuth"))
                (BaseClient.constructor
                   {| BaseClient.url := "https://example.com";
                      BaseClient.consumerKey := "ck_test";
                      BaseClient.consumerSecret := "cs test";
                      BaseClient.version := None;
                      BaseClient.timeout := None;
                      BaseClient.queryStringAuth := None |})
                "products"
                {| BaseClient.method := Some "GET";
                   BaseClient.headers := [];
                   BaseClient.body := None |}
                []))
      = [("https://example.com/wp-json/wc/v3/products?consumer_key=ck_test&consumer_secret=cs%20test",
          init)]
      /\ getProp (BaseClient.headers init) "Authorization" = None.
Proof.
  split; [|split].
  - exact (proj1 (proj1 (proj2 (transport_auth_mode
                                  {| BaseClient.url := "https://example.com";
                                     BaseClient.consumerKey := "ck_test";
                                     BaseClient.consumerSecret := "cs_test";
                                     BaseClient.version := None;
                                     BaseClient.timeout := None;
                                     BaseClient.queryStringAuth := None |}))
                    eq_refl)).
  - apply (proj2 (proj1 (proj2 (transport_auth_mode
                                  {| BaseClient.url := "http://example.com";
                                     BaseClient.consumerKey := "ck_test";
                                     BaseClient.consumerSecret := "cs_test";
                                     BaseClient.version := None;
                                     BaseClient.timeout := None;
                                     BaseClient.queryStringAuth := None |}))
                    eq_refl)).
    + discriminate.
    + reflexivity.
  - apply (proj1 (proj2 (proj2 (proj2 (transport_auth_mode
                                         {| BaseClient.url := "https://example.com";
                                            BaseClient.consumerKey := "ck_test";
                                            BaseClient.consumerSecret := "cs test";
                                            BaseClient.version := None;
                                            BaseClient.timeout := None;
                                            BaseClient.queryStringAuth := None |})))
                    (fun _ => Throw (ThrownValue JNull)) (fun _ _ _ => "OAuth")
                    "products"
                    {| BaseClient.method := Some "GET";
                       BaseClient.headers := [];
                       BaseClient.body := None |}
                    (NoDup_nil _))).
    reflexivity.
Defined.

(** C8 as the specification words it fails on the empty base URL, which
    stays empty: with the mode left open the client signs headers,
    although its base URL does not use the [http] scheme. *)
Lemma empty_url_signs_headers :
  let this :=
    BaseClient.constructor
      {| BaseClient.url := "";
         BaseClient.consumerKey := "ck_test";
         BaseClient.consumerSecret := "cs_test";
         BaseClient.version := None;
         BaseClient.timeout := None;
         BaseClient.queryStringAuth := None |} in
  BaseClient.clientQueryStringAuth this = false
  /\ BaseClient.oauth this = Some ("ck_test", "cs_test")
  /\ startsWith (BaseClient.baseUrl this) "http://" = false
  /\ map (fun call => getProp (BaseClient.headers (snd call)) "Authorization")
       (Recording.fetches
          (snd (@BaseClient.request _ _
                  (Recording.recordingHost
                     (fun _ => Throw (ThrownValue JNull)) (fun _ _ _ => "OAuth"))
                  this "products"
                  {| BaseClient.method := Some "GET";
                     BaseClient.headers := [];
                     BaseClient.body := None |}
                  [])))
     = [Some "OAuth"].
Proof. repeat split. Qed.


(* ================================================================= *)
(** ** Timeout *)

Section Timeout.

Context {engine : Engine}.

Import BaseClient Timed.
Local Open Scope list_scope.

Variable network : Network.
Variable abortMessage : string.
Variable sign : string * string -> string -> string -> string.
Variable config : WooCommerceConfig.
Variable endpoint : string.
Variable options : RequestInit.
Variable start : Z.

Local Abbreviation host := (timedHost network abortMessage sign).
Local Abbreviation this := (constructor config).

(** How long the abort timer of a call runs. *)
Let limit : Z := timerDelay (clientTimeout this).

(** Before its [try] a call has set its abort timer, and the time has
    not moved. *)
Lemma prepare_timed :
  exists requestUrl init,
    @prepare _ _ host this endpoint options (startingAt start)
    = ((requestUrl, init, 0%nat),
       {| now := start; armed := [(0%nat, start + limit)]; issued := 1 |}).
Proof.
  unfold prepare. destruct (clientQueryStringAuth this);
    [|destruct (oauth this) as [consumer|]];
    do 2 eexists; reflexivity.
Qed.

(** The timer runs for the configured timeout, and for 30000 ms when
    none or 0 is configured; a timeout beyond what a timer takes makes
    it run for 1 ms. *)
Lemma limit_configured :
  (timeout config = None \/ timeout config = Some 0 -> limit = 30000)
  /\ (forall t, timeout config = Some t -> 1 <= t -> 1 <= limit <= t).
Proof.
  unfold limit, constructor, timerDelay. cbn [clientTimeout]. split.
  - intros [-> | ->]; reflexivity.
  - intros t -> Ht.
    replace (t =? 0) with false by (symmetry; apply Z.eqb_neq; lia).
    destruct ((t <? 1) || (2147483647 <? t)); lia.
Qed.

(** C7, as the code has it.  The abort timer of a call runs for the
    configured timeout, and for 30000 ms when no timeout or 0 is
    configured.  A call whose [fetch] has not settled when the timer
    fires is cancelled: it throws the network error [Request timeout],
    whose cause is the [AbortError] of the [fetch], at the time the
    timer fires, whatever the endpoint, the method and the other
    options.  So is every call whose [fetch] takes longer than a
    configured timeout of 1 ms or more, or than 30000 ms when none or 0
    is configured.  A [fetch] that settles before the timer fires is
    not aborted: its answer is what the call goes on with, and the
    timer is cleared before the response is looked at, so that the
    body is read with no timer set.  In either case no timer is left
    behind. *)
Theorem request_timeout :
  let run := @request _ _ host this endpoint options (startingAt start) in
  let '((requestUrl, init, timeoutId), w1) :=
    @prepare _ _ host this endpoint options (startingAt start) in
  let '(duration, answer) := network requestUrl init in
  let cancelled :=
    fst run
    = Throw (ThrownError
               (WooCommerceNetworkError (JStr "Request timeout")
                  (Some (abortError abortMessage))))
    /\ now (snd run) = start + limit in
  (limit < duration -> cancelled)
  /\ (forall t, timeout config = Some t -> 1 <= t -> t < duration ->
                cancelled)
  /\ (timeout config = None \/ timeout config = Some 0 ->
      30000 < duration -> cancelled)
  /\ (duration < limit ->
      let settled := @fetch _ host requestUrl init timeoutId w1 in
      fst settled = answer
      /\ armed (@clearTimeout _ host timeoutId (snd settled)) = []
      /\ now (snd run) = start + duration)
  /\ armed (snd run) = [].
Proof.
  intros run. subst run. unfold request.
  destruct prepare_timed as (requestUrl & init & Hprepare).
  rewrite Hprepare.
  destruct (network requestUrl init) as [duration answer] eqn:Hnetwork.
  cbv zeta.
  destruct limit_configured as [Hdefault Hconfigured].
  unfold tryCatch, attempt, bind.
  cbn [fetch timedHost firesAt armed find fst snd Nat.eqb now issued].
  rewrite Hnetwork.
  destruct (Z.leb_spec (start + limit) (start + duration)) as [Hfires|Hsettles].
  - cbn [fst snd now armed disarm filter negb Nat.eqb clearTimeout timedHost].
    repeat split; try reflexivity; intros; lia.
  - assert (Hlater : forall t, timeout config = Some t -> 1 <= t ->
                               t < duration -> False).
    { intros t Ht H1 Hlt. specialize (Hconfigured t Ht H1). lia. }
    assert (Hdefault' : timeout config = None \/ timeout config = Some 0 ->
                        30000 < duration -> False).
    { intros Hnone Hlt. specialize (Hdefault Hnone). lia. }
    destruct answer as [r|rejection];
      [ cbn [clearTimeout timedHost disarm armed now issued filter fst snd
               negb Nat.eqb];
        destruct (ok r); cbn [negb];
        [ unfold ret; destruct (status r =? 204); [|destruct (json r)]
        | match goal with
          | |- context [handleErrorResponse r ?w] =>
              destruct (handleErrorResponse_throws r w) as (e & He & _);
              rewrite He
          end ]
      | ];
      cbn [fst snd clearTimeout timedHost disarm armed now issued filter
             negb Nat.eqb];
      (split; [intros; exfalso; lia|]);
      (split; [intros t Ht H1 Hlt; exfalso; exact (Hlater t Ht H1 Hlt)|]);
      (split; [intros Hnone Hlt; exfalso; exact (Hdefault' Hnone Hlt)|]);
      (split; [intros _; repeat split; reflexivity | reflexivity]).
Qed.

End Timeout.

(** A timeout of 5000 ms and a [fetch] that would take 6000: the call
    is cancelled at 5000 ms. *)
Lemma request_timeout_witness :
  let config :=
    {| BaseClient.url := "https://example.com";
       BaseClient.consumerKey := "ck_test";
       BaseClient.consumerSecret := "cs_test";
       BaseClient.version := None;
       BaseClient.timeout := Some 5000;
       BaseClient.queryStringAuth := None |} in
  let answer :=
    Return {| BaseClient.ok := true; BaseClient.status := 200;
              BaseClient.statusText := "OK"; BaseClient.respHeaders := [];
              BaseClient.json := Return (JArr []) |} in
  let run :=
    @BaseClient.request _ _
      (Timed.timedHost (fun _ _ => (6000, answer))
         "This operation was aborted" (fun _ _ _ => "OAuth"))
      (BaseClient.constructor config) "products"
      {| BaseClient.method := Some "GET"; BaseClient.headers := [];
         BaseClient.body := None |}
      (Timed.startingAt 0) in
  fst run
  = Throw (ThrownError
             (WooCommerceNetworkError (JStr "Request timeout")
                (Some (Timed.abortError "This operation was aborted"))))
  /\ Timed.now (snd run) = 5000.
Proof.
  intros config answer run.
  exact (proj1 (proj2 (request_timeout (fun _ _ => (6000, answer))
                         "This operation was aborted" (fun _ _ _ => "OAuth")
                         config "products"
                         {| BaseClient.method := Some "GET";
                            BaseClient.headers := [];
                            BaseClient.body := None |} 0))
           5000 eq_refl ltac:(lia) ltac:(lia)).
Defined.

(** C7 as the specification words it fails for the configured timeout
    0: the timer then runs for 30000 ms, and a call whose [fetch] takes
    5 ms, which is more than the configured 0, is not cancelled. *)
Lemma configured_timeout_zero_not_enforced :
  let config :=
    {| BaseClient.url := "https://example.com";
       BaseClient.consumerKey := "ck_test";
       BaseClient.consumerSecret := "cs_test";
       BaseClient.version := None;
       BaseClient.timeout := Some 0;
       BaseClient.queryStringAuth := None |} in
  let answer :=
    Return {| BaseClient.ok := true; BaseClient.status := 200;
              BaseClient.statusText := "OK"; BaseClient.respHeaders := [];
              BaseClient.json := Return (JArr []) |} in
  let run :=
    @BaseClient.request _ _
      (Timed.timedHost (fun _ _ => (5, answer))
         "This operation was aborted" (fun _ _ _ => "OAuth"))
      (BaseClient.constructor config) "products"
      {| BaseClient.method := Some "GET"; BaseClient.headers := [];
         BaseClient.body := None |}
      (Timed.startingAt 0) in
  BaseClient.timeout config = Some 0
  /\ Timed.now (snd run) = 5
  /\ fst run = Return (JArr []).
Proof. repeat split. Qed.

(* ================================================================= *)
(** * Further properties *)

(** ** parsePaginationHeaders *)

Section PaginationHeaders.

Context {engine : Engine}.

Import Utils Pagination.

(** A text that starts with an ASCII character that is no digit, no
    sign and no white space is not a number for [parseInt]. *)
Lemma parseInt10_not_a_number (c : ascii) (rest : string) :
  isAsciiChar c = true ->
  isDigit c = false ->
  isWhiteSpace c = false ->
  Ascii.eqb c "-" = false ->
  Ascii.eqb c "+" = false ->
  parseInt10 (String c rest) = NaN.
Proof.
  intros Ha Hd Hw Hm Hp.
  destruct c as [b0 b1 b2 b3 b4 b5 b6 b7].
  destruct b0, b1, b2, b3, b4, b5, b6, b7;
    try discriminate Ha; try discriminate Hd; try discriminate Hw;
    try discriminate Hm; try discriminate Hp; reflexivity.
Qed.

Lemma headerOrZero_numeric (o : option string) (h : string) :
  o = Some h -> isNumeric h = true -> decimalValue h <= 2 ^ 53 ->
  parseInt10 match o with
             | Some h => if String.eqb h "" then "0" else h
             | None => "0"
             end
  = Num (decimalValue h).
Proof.
  intros -> Hn Hbound. pose proof Hn as Hn'. unfold isNumeric in Hn'.
  apply andb_prop in Hn' as [Hne _].
  apply negb_true_iff in Hne. rewrite Hne.
  now apply parseInt10_numeric.
Qed.

(** X1.  Each of the two counts is read from its own header: a header
    that is missing or empty gives 0, a header made of decimal digits
    that denote no more than [2^53] gives the number they denote, and
    a header that starts with an ASCII character that is no digit, no
    sign and no white space gives [NaN] instead of raising. *)
Theorem parsePaginationHeaders_contract (headers : list (string * string)) :
  let meta := parsePaginationHeaders headers in
  (getProp headers "x-wp-total" = None \/ getProp headers "x-wp-total" = Some "" ->
   total meta = Num 0)
  /\ (getProp headers "x-wp-totalpages" = None
      \/ getProp headers "x-wp-totalpages" = Some "" ->
      totalPages meta = Num 0)
  /\ (forall h, getProp headers "x-wp-total" = Some h -> isNumeric h = true ->
                decimalValue h <= 2 ^ 53 ->
                total meta = Num (decimalValue h))
  /\ (forall h, getProp headers "x-wp-totalpages" = Some h -> isNumeric h = true ->
                decimalValue h <= 2 ^ 53 ->
                totalPages meta = Num (decimalValue h))
  /\ (forall c rest,
         getProp headers "x-wp-total" = Some (String c rest) ->
         isAsciiChar c = true ->
         isDigit c = false -> isWhiteSpace c = false ->
         Ascii.eqb c "-" = false -> Ascii.eqb c "+" = false ->
         total meta = NaN)
  /\ (forall c rest,
         getProp headers "x-wp-totalpages" = Some (String c rest) ->
         isAsciiChar c = true ->
         isDigit c = false -> isWhiteSpace c = false ->
         Ascii.eqb c "-" = false -> Ascii.eqb c "+" = false ->
         totalPages meta = NaN).
Proof.
  intros meta. subst meta. unfold parsePaginationHeaders. cbn [total totalPages].
  repeat split.
  - intros [-> | ->]; reflexivity.
  - intros [-> | ->]; reflexivity.
  - intros h Hh Hn Hbound. now apply headerOrZero_numeric.
  - intros h Hh Hn Hbound. now apply headerOrZero_numeric.
  - intros c rest -> Ha Hd Hw Hm Hp. cbn [String.eqb].
    now apply parseInt10_not_a_number.
  - intros c rest -> Ha Hd Hw Hm Hp. cbn [String.eqb].
    now apply parseInt10_not_a_number.
Qed.

End PaginationHeaders.

Lemma parsePaginationHeaders_contract_witness :
  Pagination.total
    (Pagination.parsePaginationHeaders
       [("x-wp-total", "150"); ("x-wp-totalpages", "invalid")]) = Num 150
  /\ Pagination.totalPages
       (Pagination.parsePaginationHeaders
          [("x-wp-total", "150"); ("x-wp-totalpages", "invalid")]) = NaN
  /\ Pagination.totalPages (Pagination.parsePaginationHeaders []) = Num 0.
Proof.
  pose proof (parsePaginationHeaders_contract
                [("x-wp-total", "150"); ("x-wp-totalpages", "invalid")])
    as (_ & _ & Hnum & _ & _ & Hnan).
  pose proof (parsePaginationHeaders_contract []) as (_ & Hzero & _).
  split; [|split].
  - exact (Hnum "150" eq_refl eq_refl ltac:(vm_compute; congruence)).
  - exact (Hnan "i"%char "nvalid" eq_refl eq_refl eq_refl eq_refl eq_refl
             eq_refl).
  - apply Hzero. now left.
Defined.

(** ** buildQueryString: what the output is made of *)

Section QueryAlphabet.

Context {engine : Engine}.

Import Utils.
Local Open Scope list_scope.

Variable JSON_stringify : JsValue -> string.

Lemma allChars_app (p : ascii -> bool) (a b : string) :
  allChars p (a ++ b)%string = allChars p a && allChars p b.
Proof.
  induction a as [|c a IH]; [reflexivity|].
  cbn [append allChars]. rewrite IH. now rewrite andb_assoc.
Qed.

Lemma countChar_app (c : ascii) (a b : string) :
  countChar c (a ++ b)%string = (countChar c a + countChar c b)%nat.
Proof.
  induction a as [|x a IH]; [reflexivity|].
  cbn [append countChar]. rewrite IH. lia.
Qed.

Lemma allChars_countChar (p : ascii -> bool) (c : ascii) (s : string) :
  allChars p s = true -> p c = false -> countChar c s = 0%nat.
Proof.
  intros Hs Hc. induction s as [|x s IH]; [reflexivity|].
  cbn [allChars] in Hs. apply andb_prop in Hs as [Hx Hs].
  cbn [countChar]. rewrite (IH Hs).
  destruct (Ascii.eqb_spec x c) as [->|_]; [congruence | reflexivity].
Qed.

Lemma allChars_weaken (p q : ascii -> bool) (s : string) :
  (forall c, p c = true -> q c = true) ->
  allChars p s = true -> allChars q s = true.
Proof.
  intros Hpq. induction s as [|x s IH]; [reflexivity|].
  cbn [allChars]. intros Hs. apply andb_prop in Hs as [Hx Hs].
  now rewrite (Hpq x Hx), (IH Hs).
Qed.

Lemma percentEncode_chars (c : ascii) :
  allChars encodedChar (percentEncode c) = true.
Proof.
  destruct c as [b0 b1 b2 b3 b4 b5 b6 b7].
  destruct b0, b1, b2, b3, b4, b5, b6, b7; reflexivity.
Qed.

Lemma encodeURIComponent_chars (s : string) :
  allChars encodedChar (encodeURIComponent s) = true.
Proof.
  induction s as [|c s IH]; [reflexivity|].
  cbn [encodeURIComponent]. rewrite allChars_app, IH, andb_true_r.
  destruct (unreserved c) eqn:Hc.
  - cbn [allChars]. unfold encodedChar. now rewrite Hc.
  - apply percentEncode_chars.
Qed.

Lemma pushParam_entries (entry : string * JsValue) :
  Forall isEntry (pushParam JSON_stringify [] entry).
Proof.
  destruct entry as [key value]. unfold pushParam.
  destruct value; cbn [isNullish];
    try (rewrite push_items; cbn [app]; apply Forall_map, Forall_forall;
         intros item _; eexists; eexists; reflexivity);
    try (unfold push; cbn [app]; constructor;
         [eexists; eexists; reflexivity | constructor]);
    constructor.
Qed.

Lemma queryParts_entries (params : list (string * JsValue)) :
  Forall isEntry (queryParts JSON_stringify params).
Proof.
  rewrite queryParts_flat_map. apply Forall_flat_map, Forall_forall.
  intros entry _. apply pushParam_entries.
Qed.

Lemma entry_chars (part : string) :
  isEntry part ->
  allChars queryChar part = true
  /\ countChar "=" part = 1%nat
  /\ countChar "&" part = 0%nat.
Proof.
  intros (k & v & ->).
  pose proof (encodeURIComponent_chars k) as Hk.
  pose proof (encodeURIComponent_chars v) as Hv.
  assert (Hq : forall c, encodedChar c = true -> queryChar c = true)
    by (intros c Hc; unfold queryChar; now rewrite Hc).
  split; [|split].
  - rewrite !allChars_app.
    rewrite (allChars_weaken _ _ _ Hq Hk), (allChars_weaken _ _ _ Hq Hv).
    reflexivity.
  - rewrite !countChar_app.
    rewrite (allChars_countChar _ "=" _ Hk eq_refl),
      (allChars_countChar _ "=" _ Hv eq_refl). reflexivity.
  - rewrite !countChar_app.
    rewrite (allChars_countChar _ "&" _ Hk eq_refl),
      (allChars_countChar _ "&" _ Hv eq_refl). reflexivity.
Qed.

Lemma joined_entries (parts : list string) :
  Forall isEntry parts ->
  allChars queryChar (joinWith "&" parts) = true
  /\ countChar "=" (joinWith "&" parts) = List.length parts
  /\ countChar "&" (joinWith "&" parts) = (List.length parts - 1)%nat.
Proof.
  unfold joinWith.
  induction parts as [|part parts IH]; intros Hparts; [repeat split|].
  inversion Hparts as [|? ? Hpart Hrest]; subst.
  destruct (entry_chars part Hpart) as (Hc & He & Ha).
  destruct parts as [|next parts].
  - cbn [String.concat List.length]. repeat split; assumption.
  - destruct (IH Hrest) as (IHc & IHe & IHa).
    change (String.concat "&" (part :: next :: parts))
      with (part ++ "&" ++ String.concat "&" (next :: parts))%string.
    rewrite !allChars_app, !countChar_app, Hc, He, Ha, IHc, IHe, IHa.
    cbn [List.length]. repeat split. cbn. lia.
Qed.

(** X2.  The query string is made of unreserved characters, percent
    escapes, [=] and [&] only; every entry holds exactly one [=] and no
    [&], so the string holds one [=] per entry and one [&] between two
    entries: no key and no value can add or split an entry. *)
Theorem buildQueryString_alphabet (params : list (string * JsValue)) :
  allChars queryChar (buildQueryString JSON_stringify params) = true
  /\ Forall (fun part => countChar "=" part = 1%nat /\ countChar "&" part = 0%nat)
       (queryParts JSON_stringify params)
  /\ countChar "=" (buildQueryString JSON_stringify params)
     = List.length (queryParts JSON_stringify params)
  /\ countChar "&" (buildQueryString JSON_stringify params)
     = (List.length (queryParts JSON_stringify params) - 1)%nat.
Proof.
  pose proof (queryParts_entries params) as Hentries.
  destruct (joined_entries _ Hentries) as (Hc & He & Ha).
  split; [exact Hc|]. split; [|split; assumption].
  eapply Forall_impl; [|exact Hentries].
  intros part Hpart. destruct (entry_chars part Hpart) as (_ & H1 & H2).
  now split.
Qed.


End QueryAlphabet.


(** ** retryWithBackoff: the edges *)

Section RetryEdges.

Context {engine : Engine}.

Import Utils Recording.
Local Open Scope list_scope.

(** X4.  With a negative [maxRetries] the operation is never invoked:
    the world is left as it was and the call rejects with
    [undefined]. *)
Theorem retryWithBackoff_negative
  (W T : Type) (timers : Timers W) (fn : Async W T)
  (maxRetries : Z) (baseDelay : option Z) (w : W) :
  maxRetries < 0 ->
  @retryWithBackoff _ W T timers fn (Some maxRetries) baseDelay w
  = (Throw (ThrownValue JUndefined), w).
Proof.
  intros Hneg. unfold retryWithBackoff, attemptsUpTo.
  replace (Z.to_nat (maxRetries + 1)) with 0%nat by lia.
  reflexivity.
Qed.





End RetryEdges.

Lemma retryWithBackoff_negative_witness :
  @Utils.retryWithBackoff _ _ string (Recording.logTimers unit)
    (Recording.scripted (fun _ => Return "never") tt) (Some (-1)) None []
  = (Throw (ThrownValue JUndefined), []).
Proof.
  apply retryWithBackoff_negative. lia.
Defined.


(** ** normalizeUrl: what comes out *)

Section NormalizedUrls.

Context {engine : Engine}.

Import Utils.

(** X6.  Whatever non-empty text goes in, what comes out is not empty
    and starts with [http://] or [https://]; and when it has no
    trailing slash left, normalizing it again changes nothing. *)
Theorem normalizeUrl_output (url : string) :
  url <> "" ->
  normalizeUrl url <> ""
  /\ hasProtocol (normalizeUrl url) = true
  /\ (endsWithSlash (normalizeUrl url) = false ->
      normalizeUrl (normalizeUrl url) = normalizeUrl url).
Proof.
  intros Hne.
  pose proof (normalizeUrl_hasProtocol url Hne) as Hp.
  assert (Hout : normalizeUrl url <> "").
  { intros Hempty. rewrite Hempty in Hp. discriminate. }
  split; [exact Hout|]. split; [exact Hp|].
  intros Hslash.
  rewrite (normalizeUrl_nonempty (normalizeUrl url) Hout).
  rewrite removeTrailingSlash_no_slash by exact Hslash.
  unfold ensureProtocol. now rewrite Hp.
Qed.

End NormalizedUrls.

Lemma normalizeUrl_output_witness :
  Utils.normalizeUrl "shop.test/store/" <> ""
  /\ hasProtocol (Utils.normalizeUrl "shop.test/store/") = true
  /\ (endsWithSlash (Utils.normalizeUrl "shop.test/store/") = false ->
      Utils.normalizeUrl (Utils.normalizeUrl "shop.test/store/")
      = Utils.normalizeUrl "shop.test/store/").
Proof.
  apply normalizeUrl_output. discriminate.
Defined.


(** ** request: the run of one call *)

Section RequestRun.

Context {engine : Engine}.

Import BaseClient Recording.
Local Open Scope list_scope.

Variable responses : nat -> Outcome Response.
Variable sign : string * string -> string -> string -> string.
Variable endpoint : string.
Variable options : RequestInit.



End RequestRun.


Section RequestTrace.

Context {engine : Engine}.

Import BaseClient Recording.
Local Open Scope list_scope.

(** X8.  What a call of a constructed client asks of its host, in
    order.  In signed-header mode first one signature, for the consumer
    pair, the URL and the upper-cased method, and in query-string mode
    none; then one abort timer, for the configured timeout or for 30000
    milliseconds when none or 0 is configured; then its one [fetch],
    under that timer's signal, at the URL and with the init of the
    mode; then the timer is cleared.  It is cleared once when the
    [fetch] rejects and when the call returns, and a second time, by
    the [catch] block, when something throws after the [fetch] is
    answered: the classifier on a response that is not a success, or
    the reading of the body. *)
Theorem request_trace
  (config : WooCommerceConfig) (responses : nat -> Outcome Response)
  (sign : string * string -> string -> string -> string)
  (endpoint : string) (options : RequestInit) :
  let this := constructor config in
  let log :=
    snd (@request _ _ (recordingHost responses sign) this endpoint options []) in
  let consumer := (consumerKey config, consumerSecret config) in
  let url := endpointUrl this endpoint in
  let requestUrl :=
    if clientQueryStringAuth this
    then (url ++ (if includes url "?" then "&" else "?")
            ++ credentials this)%string
    else url in
  let init :=
    {| method := method options;
       headers :=
         spread defaultHeaders
           (if clientQueryStringAuth this then headers options
            else setProp (headers options) "Authorization"
                   (sign consumer url (signedMethod options)));
       body := body options |} in
  let clearedOnce :=
    match responses 0%nat with
    | Throw _ => true
    | Return r =>
        ok r
        && ((status r =? 204)
            || match json r with Return _ => true | Throw _ => false end)
    end in
  log
  = (if clientQueryStringAuth this then []
     else [Signed consumer url (signedMethod options)])
      ++ [SetTimeout (clientTimeout this) 0%nat;
          Fetched requestUrl init 0%nat;
          ClearTimeout 0%nat]
      ++ (if clearedOnce then [] else [ClearTimeout 0%nat])
  /\ (timeout config = None \/ timeout config = Some 0 ->
      clientTimeout this = 30000)
  /\ (forall t, timeout config = Some t -> t <> 0 -> clientTimeout this = t).
Proof.
  intros this log consumer url requestUrl init clearedOnce. split; [|split].
  - subst log consumer url requestUrl init clearedOnce.
    unfold request, prepare.
    assert (Hoauth : clientQueryStringAuth this = false ->
                     oauth this = Some (consumerKey config, consumerSecret config)).
    { subst this. unfold constructor. cbn [oauth clientQueryStringAuth].
      now intros ->. }
    destruct (clientQueryStringAuth this); [|rewrite (Hoauth eq_refl)];
      cbn [oauthAuthorization setAbortTimeout recordingHost timersSet filter
             List.length app];
      unfold tryCatch, attempt, bind;
      cbn [fetch recordingHost fetches flat_map List.length app];
      (destruct (responses 0%nat) as [r|t];
       [ cbn [clearTimeout recordingHost app];
         destruct (ok r); cbn [negb andb];
         [ unfold ret; destruct (status r =? 204); cbn [orb];
           [|destruct (json r)]
         | match goal with
           | |- context [handleErrorResponse r ?w] =>
               destruct (handleErrorResponse_throws r w) as (e & He & _);
               rewrite He
           end ]
       | ]);
      reflexivity.
  - subst this. unfold constructor. cbn [clientTimeout].
    intros [-> | ->]; reflexivity.
  - subst this. unfold constructor. cbn [clientTimeout].
    intros t -> Ht. apply Z.eqb_neq in Ht. now rewrite Ht.
Qed.

End RequestTrace.

(** A 404 on a client with a timeout of 5000 ms: the timer is set,
    the [fetch] made, and the timer cleared by the [try] block and
    again by the [catch] block; and a configured 0 gives 30000 ms. *)
Lemma request_trace_witness :
  let config timeout :=
    {| BaseClient.url := "https://example.com";
       BaseClient.consumerKey := "ck_test";
       BaseClient.consumerSecret := "cs_test";
       BaseClient.version := None;
       BaseClient.timeout := Some timeout;
       BaseClient.queryStringAuth := None |} in
  let notFound :=
    {| BaseClient.ok := false; BaseClient.status := 404;
       BaseClient.statusText := "Not Found"; BaseClient.respHeaders := [];
       BaseClient.json := Return (JObj []) |} in
  let options :=
    {| BaseClient.method := None; BaseClient.headers := [];
       BaseClient.body := None |} in
  snd (@BaseClient.request _ _
         (Recording.recordingHost (fun _ => Return notFound)
            (fun _ _ _ => "OAuth"))
         (BaseClient.constructor (config 5000)) "products" options [])
  = [Recording.SetTimeout 5000 0%nat;
     Recording.Fetched
       "https://example.com/wp-json/wc/v3/products?consumer_key=ck_test&consumer_secret=cs_test"
       {| BaseClient.method := None; BaseClient.headers := defaultHeaders;
          BaseClient.body := None |} 0%nat;
     Recording.ClearTimeout 0%nat;
     Recording.ClearTimeout 0%nat]
  /\ BaseClient.clientTimeout (BaseClient.constructor (config 0)) = 30000
  /\ BaseClient.clientTimeout (BaseClient.constructor (config 5000)) = 5000.
Proof.
  intros config notFound options.
  split; [|split].
  - exact (proj1 (request_trace (config 5000) (fun _ => Return notFound)
                    (fun _ _ _ => "OAuth") "products" options)).
  - apply (proj1 (proj2 (request_trace (config 0)
                           (fun _ => Throw (ThrownValue JNull))
                           (fun _ _ _ => "OAuth") "products" options))).
    now right.
  - apply (proj2 (proj2 (request_trace (config 5000)
                           (fun _ => Throw (ThrownValue JNull))
                           (fun _ _ _ => "OAuth") "products" options))
             5000 eq_refl).
    discriminate.
Defined.

(** ** request: headers, and the verbs built on it *)

Section Includes.

Context {engine : Engine}.

Lemma prefix_app (p a b : string) :
  String.prefix p a = true -> String.prefix p (a ++ b) = true.
Proof.
  revert a. induction p as [|x p IH]; intros a Hp;
    [destruct (a ++ b); reflexivity|].
  destruct a as [|y a]; [discriminate|].
  cbn [append String.prefix] in *.
  destruct (ascii_dec x y); [now apply IH | discriminate].
Qed.

Lemma includes_prefix (s p : string) :
  String.prefix p s = true -> includes s p = true.
Proof. intros Hp. destruct s; cbn [includes]; now rewrite Hp. Qed.

Lemma includes_app_l (a b p : string) :
  includes a p = true -> includes (a ++ b) p = true.
Proof.
  induction a as [|x a IH]; intros Ha.
  - cbn [includes] in Ha. destruct (String.prefix p "") eqn:Hp; [|discriminate].
    apply includes_prefix. now apply prefix_app.
  - cbn [includes] in Ha.
    destruct (String.prefix p (String x a)) eqn:Hp.
    + apply includes_prefix. now apply prefix_app.
    + cbn [append includes].
      destruct (String.prefix p (String x (a ++ b))); [reflexivity|].
      now apply IH.
Qed.

Lemma includes_app_r (a b p : string) :
  includes b p = true -> includes (a ++ b) p = true.
Proof.
  intros Hb. induction a as [|x a IH]; [exact Hb|].
  cbn [append includes].
  destruct (String.prefix p (String x (a ++ b))); [reflexivity | exact IH].
Qed.

(** A text without the character [c] does not include it. *)
Lemma includes_char_none (c : ascii) (s : string) :
  countChar c s = 0%nat -> includes s (String c "") = false.
Proof.
  induction s as [|x s IH]; intros Hs; [reflexivity|].
  cbn [countChar] in Hs. cbn [includes String.prefix].
  destruct (Ascii.eqb_spec x c) as [->|Hne]; [discriminate|].
  destruct (ascii_dec c x) as [->|_]; [contradiction|].
  apply IH. exact Hs.
Qed.

End Includes.

Section Verbs.

Context {engine : Engine}.

Import BaseClient Recording.
Local Open Scope list_scope.

Variable JSON_stringify : JsValue -> string.
Variable responses : nat -> Outcome Response.
Variable sign : string * string -> string -> string -> string.
Variable this : Client.

Lemma getProp_spread {V : Type} (target source : list (string * V))
  (key : string) :
  NoDup (map fst source) ->
  getProp (spread target source) key
  = match getProp source key with
    | Some v => Some v
    | None => getProp target key
    end.
Proof.
  intros Hnd. destruct (getProp source key) as [v|] eqn:Hk.
  - now apply getProp_spread_some.
  - now apply getProp_spread_none.
Qed.

(** The URL a call is fetched at in query-string mode. *)
Lemma get_fetches (endpoint : string)
  (params : option (list (string * JsValue))) :
  clientQueryStringAuth this = true ->
  let target :=
    match params with
    | Some ((_ :: _) as ps) =>
        (endpoint ++ (if includes endpoint "?" then "&" else "?")
           ++ Utils.buildQueryString JSON_stringify ps)%string
    | _ => endpoint
    end in
  fetches (snd (@get _ _ (recordingHost responses sign) JSON_stringify this
                  endpoint params []))
  = [((endpointUrl this target
         ++ (if includes (endpointUrl this target) "?" then "&" else "?")
         ++ credentials this)%string,
      {| method := Some "GET"%string; headers := defaultHeaders; body := None |})].
Proof.
  intros Hqs target. unfold get.
  rewrite (request_fetches_query_string responses sign this _ _ Hqs).
  reflexivity.
Qed.

Lemma delete_fetches (endpoint : string)
  (params : option (list (string * JsValue))) :
  clientQueryStringAuth this = true ->
  let target :=
    match params with
    | Some ((_ :: _) as ps) =>
        (endpoint ++ (if includes endpoint "?" then "&" else "?")
           ++ Utils.buildQueryString JSON_stringify ps)%string
    | _ => endpoint
    end in
  fetches (snd (@delete _ _ (recordingHost responses sign) JSON_stringify this
                  endpoint params []))
  = [((endpointUrl this target
         ++ (if includes (endpointUrl this target) "?" then "&" else "?")
         ++ credentials this)%string,
      {| method := Some "DELETE"%string; headers := defaultHeaders;
         body := None |})].
Proof.
  intros Hqs target. unfold delete.
  rewrite (request_fetches_query_string responses sign this _ _ Hqs).
  reflexivity.
Qed.

(** An endpoint that was given a query makes a URL with a question
    mark. *)
Lemma queried_url_includes (endpoint query : string) :
  includes
    (endpointUrl this
       (endpoint ++ (if includes endpoint "?" then "&" else "?") ++ query))
    "?" = true.
Proof.
  unfold endpointUrl.
  do 4 apply includes_app_r.
  destruct (includes endpoint "?") eqn:He.
  - now apply includes_app_l.
  - apply includes_app_r, includes_prefix. destruct query; reflexivity.
Qed.


End Verbs.



Section Sent.

Context {engine : Engine}.

Import BaseClient Recording.
Local Open Scope list_scope.

Variable JSON_stringify : JsValue -> string.
Variable responses : nat -> Outcome Response.
Variable sign : string * string -> string -> string -> string.
Variable config : WooCommerceConfig.

(** What a constructed client fetches, in either mode. *)
Lemma request_fetches (endpoint : string) (options : RequestInit) :
  let this := constructor config in
  fetches (snd (@request _ _ (recordingHost responses sign) this endpoint
                  options []))
  = [(if clientQueryStringAuth this
      then (endpointUrl this endpoint
              ++ (if includes (endpointUrl this endpoint) "?" then "&" else "?")
              ++ credentials this)%string
      else endpointUrl this endpoint,
      {| method := method options;
         headers :=
           spread defaultHeaders
             (if clientQueryStringAuth this then headers options
              else setProp (headers options) "Authorization"
                     (sign (consumerKey config, consumerSecret config)
                        (endpointUrl this endpoint) (signedMethod options)));
         body := body options |})].
Proof.
  intros this. destruct (clientQueryStringAuth this) eqn:Hqs.
  - now rewrite (request_fetches_query_string responses sign this endpoint
                   options Hqs).
  - rewrite (request_fetches_signed responses sign this endpoint options
               (consumerKey config, consumerSecret config) Hqs);
      [reflexivity|].
    subst this. unfold constructor in *. cbn [oauth clientQueryStringAuth] in *.
    now rewrite Hqs.
Qed.

(** X10 (request). The init given to [fetch] has the caller's method and
    body unchanged. Of the headers, a name the caller gives keeps the
    caller's value, also when it is one of the three defaults, and each
    default the caller does not name is sent; the signed mode replaces
    the caller's Authorization header by the signature, the
    query-string mode leaves it as it is. *)
Theorem request_headers (endpoint : string) (options : RequestInit) :
  NoDup (map fst (headers options)) ->
  let this := constructor config in
  exists requestUrl init,
    fetches (snd (@request _ _ (recordingHost responses sign) this endpoint
                    options []))
    = [(requestUrl, init)]
    /\ method init = method options
    /\ body init = body options
    /\ (forall key, key <> "Authorization"%string ->
        getProp (headers init) key
        = match getProp (headers options) key with
          | Some v => Some v
          | None => getProp defaultHeaders key
          end)
    /\ getProp (headers init) "Authorization"
       = if clientQueryStringAuth this
         then getProp (headers options) "Authorization"
         else Some (sign (consumerKey config, consumerSecret config)
                      (endpointUrl this endpoint) (signedMethod options)).
Proof.
  intros Hnd this. do 2 eexists.
  split; [apply request_fetches|]. cbn [method body headers].
  split; [reflexivity|]. split; [reflexivity|]. fold this.
  destruct (clientQueryStringAuth this).
  - split.
    + intros key _. now apply getProp_spread.
    + rewrite (getProp_spread _ _ _ Hnd).
      now destruct (getProp (headers options) "Authorization").
  - split.
    + intros key Hkey.
      rewrite getProp_spread by now apply setProp_keys_NoDup.
      rewrite getProp_setProp_other by (intros Heq; apply Hkey; now symmetry).
      reflexivity.
    + rewrite getProp_spread by now apply setProp_keys_NoDup.
      now rewrite getProp_setProp_same.
Qed.

(** X11 (post, put, patch). The three verbs with a body fetch the
    endpoint's URL once, [post] and [patch] with the method POST and
    [put] with PUT; the body is the JSON text of the argument when the
    argument is truthy and is left out when it is falsy (undefined,
    null, false, 0, NaN or the empty string); [patch] sends what [post]
    sends. *)
Theorem body_verbs (endpoint : string) (body' : JsValue) :
  let this := constructor config in
  let run verb :=
    fetches (snd (verb (recordingHost responses sign) JSON_stringify this
                    endpoint body' [])) in
  let sent verb :=
    fetches (snd (@request _ _ (recordingHost responses sign) this endpoint
                    {| method := Some verb; headers := [];
                       body := if truthy body'
                               then Some (JSON_stringify body') else None |}
                    [])) in
  (run (@post _ _) = sent "POST"%string
   /\ run (@put _ _) = sent "PUT"%string
   /\ run (@patch _ _) = run (@post _ _))
  /\ (forall verb, exists requestUrl init,
        sent verb = [(requestUrl, init)]
        /\ method init = Some verb
        /\ body init
           = match body' with
             | JUndefined | JNull | JBool false | JStr "" => None
             | JNum n =>
                 match n with
                 | NaN | Num 0 => None
                 | _ => Some (JSON_stringify body')
                 end
             | _ => Some (JSON_stringify body')
             end).
Proof.
  intros this run sent. split; [repeat split|].
  intros verb. subst sent. cbv beta. do 2 eexists.
  split; [apply request_fetches|]. cbn [method body].
  split; [reflexivity|].
  destruct body' as [| |[|]|[|[| |]]|[|]| |]; reflexivity.
Qed.

End Sent.

Lemma request_headers_witness :
  let config :=
    {| BaseClient.url := "http://shop.test"; BaseClient.consumerKey := "ck";
       BaseClient.consumerSecret := "cs"; BaseClient.version := None;
       BaseClient.timeout := None; BaseClient.queryStringAuth := None |} in
  let options :=
    {| BaseClient.method := Some "put";
       BaseClient.headers := [("Accept", "text/plain")];
       BaseClient.body := Some "{}" |} in
  exists requestUrl init,
    Recording.fetches
      (snd (@BaseClient.request _ _
              (Recording.recordingHost
                 (fun _ => Throw (ThrownValue JUndefined))
                 (fun _ url method => method ++ " " ++ url))
              (BaseClient.constructor config) "orders" options []))
    = [(requestUrl, init)]
    /\ getProp (BaseClient.headers init) "Accept" = Some "text/plain"
    /\ getProp (BaseClient.headers init) "User-Agent"
       = Some "WooCommerce-SDK/1.0"
    /\ getProp (BaseClient.headers init) "Authorization"
       = Some "PUT http://shop.test/wp-json/wc/v3/orders".
Proof.
  intros config options.
  assert (Hnd : NoDup (map fst (BaseClient.headers options)))
    by (constructor; [intros [] | constructor]).
  destruct (request_headers (fun _ => Throw (ThrownValue JUndefined))
              (fun _ url method => method ++ " " ++ url) config "orders"
              options Hnd)
    as (requestUrl & init & Hfetch & _ & _ & Hkeys & Hauth).
  exists requestUrl, init. split; [exact Hfetch|].
  split; [apply (Hkeys "Accept"); discriminate|].
  split; [apply (Hkeys "User-Agent"); discriminate | exact Hauth].
Defined.

(** ** handleErrorResponse: what the error carries *)

Section ClassifierPayload.

Context {engine : Engine}.

Import BaseClient.

Context {W : Type}.


End ClassifierPayload.

Section NotOk.

Context {engine : Engine}.

Import BaseClient.

Context {W : Type} `{Host W}.


End NotOk.


(** ** getAll, listAll: failing pages, requests, pages that never end *)

Section PaginatorRuns.

Context {engine : Engine}.

Import ProductsClient Recording.
Local Open Scope list_scope.

Variable P : Type.
Variable script : nat -> Outcome (list P).

Let list_ := scripted (Req := ListProductsParams) script.

(** A loop that ends has asked for consecutive pages, at least one and
    at most as many as it had fuel for, and has done nothing else. *)
Lemma fetchPages_calls (params : Z -> ListProductsParams) (perPage : Z) :
  forall fuel acc page log out log',
    fetchPages P list_ fuel params perPage acc page log = Some (out, log') ->
    exists n,
      (1 <= n <= fuel)%nat
      /\ log' = log ++ map (fun i => Called (params (page + Z.of_nat i)))
                         (seq 0 n).
Proof.
  induction fuel as [|fuel IH]; intros acc page log out log' Hrun;
    [discriminate|].
  cbn [fetchPages] in Hrun. unfold list_, scripted at 1 in Hrun.
  destruct (script (List.length (calls log))) as [products|t].
  - destruct (pushSpread acc products) as [allProducts|raised].
    2:{ inversion Hrun; subst. exists 1%nat. split; [lia|].
        cbn [seq map]. now rewrite Z.add_0_r. }
    destruct (Z.of_nat (List.length products) <? perPage).
    + inversion Hrun; subst. exists 1%nat. split; [lia|].
      cbn [seq map]. now rewrite Z.add_0_r.
    + fold list_ in Hrun. destruct (IH _ _ _ _ _ Hrun) as (n & Hn & Hlog).
      exists (S n). split; [lia|].
      rewrite Hlog, <- app_assoc. f_equal.
      change (seq 0 (S n)) with (0%nat :: seq 1 n). rewrite <- seq_shift.
      cbn [map app]. rewrite Z.add_0_r. f_equal.
      rewrite map_map. apply map_ext. intros i. do 2 f_equal. lia.
  - inversion Hrun; subst. exists 1%nat. split; [lia|].
    cbn [seq map]. now rewrite Z.add_0_r.
Qed.

(** What the paginator gets in answer to a call and cannot go on
    with: a failure of the listing operation, or a page with more
    items than the engine takes as the arguments of one call. *)
Let stopped (n : nat) (t : Thrown) : Prop :=
  script n = Throw t
  \/ (exists page,
         script n = Return page
         /\ argumentLimit < Z.of_nat (List.length page)
         /\ t = ThrownError rangeError).

(** The loop on a script of full pages followed by such an answer: it
    ends the loop and decides its outcome. *)
Lemma fetchPages_fail (params : Z -> ListProductsParams) (perPage : Z)
  (fulls : list (list P)) (t : Thrown) :
  forall fuel acc page log,
    Forall (fun pg => perPage <= Z.of_nat (List.length pg) <= argumentLimit)
      fulls ->
    (forall i pg, nth_error fulls i = Some pg ->
                  script (List.length (calls log) + i) = Return pg) ->
    stopped (List.length (calls log) + List.length fulls) t ->
    (List.length fulls < fuel)%nat ->
    fetchPages P list_ fuel params perPage acc page log
    = Some (Throw t,
            log ++ map (fun i => Called (params (page + Z.of_nat i)))
                       (seq 0 (S (List.length fulls)))).
Proof.
  induction fulls as [|pg fulls IH];
    intros fuel acc page log Hfull Hscript Hstop Hfuel;
    (destruct fuel as [|fuel]; [cbn in Hfuel; lia|]);
    cbn [fetchPages]; unfold list_, scripted at 1.
  - cbn [List.length] in Hstop. rewrite Nat.add_0_r in Hstop.
    cbn [seq map List.length]. rewrite Z.add_0_r.
    destruct Hstop as [Hthrow | (big & Hbig & Hlen & ->)].
    + now rewrite Hthrow.
    + now rewrite Hbig, (pushSpread_beyond acc big Hlen).
  - rewrite <- (Nat.add_0_r (List.length (calls log))).
    rewrite (Hscript 0%nat pg eq_refl).
    inversion Hfull as [|? ? Hpg Hrest]; subst.
    rewrite (pushSpread_within acc pg) by lia.
    replace (Z.of_nat (List.length pg) <? perPage) with false
      by (symmetry; apply Z.ltb_ge; lia).
    fold list_.
    rewrite (IH fuel (acc ++ pg) (page + 1) (log ++ [Called (params page)]));
      try assumption.
    + f_equal. f_equal. rewrite <- app_assoc. f_equal.
      cbn [List.length].
      change (seq 0 (S (S (List.length fulls))))
        with (0%nat :: seq 1 (S (List.length fulls))).
      rewrite <- seq_shift.
      cbn [map app]. rewrite Z.add_0_r. f_equal.
      rewrite map_map. apply map_ext. intros i. do 2 f_equal. lia.
    + intros i pg' Hi. rewrite calls_app, length_app.
      cbn [calls flat_map List.length app].
      rewrite <- (Hscript (S i) pg' Hi). f_equal. lia.
    + rewrite calls_app, length_app. cbn [calls flat_map List.length app].
      replace (List.length (calls log) + 1 + List.length fulls)%nat
        with (List.length (calls log) + List.length (pg :: fulls))%nat
        by (cbn [List.length]; lia).
      exact Hstop.
    + cbn [List.length] in Hfuel. lia.
Qed.

(** X14 (getAll, listAll). When the listing operation answers with full
    pages and then fails, the paginators fail with the same error right
    after that call: no page is asked for after the failing one, and the
    items of the pages before it are not returned.  The same holds of a
    page with more items than the engine takes as the arguments of one
    call, which the code appends with [push(...page)]: the paginators
    fail there with the engine's [RangeError]. *)
Theorem paginator_failure
  (fulls : list (list P)) (t : Thrown) (perPage : option Z) (fuel : nat) :
  let size := match perPage with Some n => n | None => 100 end in
  Forall (fun pg => size <= Z.of_nat (List.length pg) <= argumentLimit) fulls ->
  (forall i pg, nth_error fulls i = Some pg -> script i = Return pg) ->
  script (List.length fulls) = Throw t
  \/ (exists page,
         script (List.length fulls) = Return page
         /\ argumentLimit < Z.of_nat (List.length page)
         /\ t = ThrownError rangeError) ->
  (List.length fulls < fuel)%nat ->
  (forall status,
      exists reqs,
        getAll P list_ fuel status perPage [] = Some (Throw t, map Called reqs)
        /\ map page reqs
           = map (fun i => Some (Z.of_nat i + 1)) (seq 0 (S (List.length fulls))))
  /\ (forall params,
         match params with Some p => per_page p | None => None end = perPage ->
         exists reqs,
           listAll P list_ fuel params [] = Some (Throw t, map Called reqs)
           /\ map page reqs
              = map (fun i => Some (Z.of_nat i + 1))
                  (seq 0 (S (List.length fulls)))).
Proof.
  intros size Hfull Hscript Hstop Hfuel. split.
  - intros status.
    eexists (map _ (seq 0 (S (List.length fulls)))). split.
    + unfold getAll. fold size.
      rewrite (fetchPages_fail _ size fulls t fuel [] 1 []); try assumption.
      cbn [app]. rewrite map_map. reflexivity.
    + rewrite map_map. apply map_ext. intros i. cbn [page]. f_equal. lia.
  - intros params Hparams.
    eexists (map _ (seq 0 (S (List.length fulls)))). split.
    + unfold listAll.
      replace (match params with
               | Some p => match per_page p with Some n => n | None => 100 end
               | None => 100
               end) with size
        by (subst size; rewrite <- Hparams; destruct params; reflexivity).
      rewrite (fetchPages_fail _ size fulls t fuel [] 1 []); try assumption.
      cbn [app]. rewrite map_map. reflexivity.
    + rewrite map_map. apply map_ext. intros i. cbn [page]. f_equal. lia.
Qed.

(** X15 (getAll, listAll). Whatever the listing operation answers, a
    run of a paginator that ends has asked for the pages 1, 2, ..., n
    for some n >= 1 and done nothing else, and every request carries the
    same filters: for [getAll] the page size, the status (none for
    'any', 'publish' when none is given) and no other filter; for
    [listAll] the caller's status and other filters, and the caller's
    page size or 100, a [page] of the caller's being replaced. *)
Theorem paginator_requests (fuel : nat) :
  (forall status perPage out log,
      getAll P list_ fuel status perPage [] = Some (out, log) ->
      exists n,
        (1 <= n <= fuel)%nat
        /\ log
           = map (fun i =>
                    Called
                      {| status :=
                           match status with
                           | Some any => None
                           | Some s => Some (statusName s)
                           | None => Some "publish"%string
                           end;
                         per_page :=
                           Some (match perPage with Some n => n | None => 100 end);
                         page := Some (1 + Z.of_nat i);
                         otherFilters := [] |})
               (seq 0 n))
  /\ (forall params out log,
         listAll P list_ fuel params [] = Some (out, log) ->
         exists n,
           (1 <= n <= fuel)%nat
           /\ log
              = map (fun i =>
                       Called
                         {| status :=
                              match params with
                              | Some p => status p
                              | None => None
                              end;
                            per_page :=
                              Some (match params with
                                    | Some {| per_page := Some n |} => n
                                    | _ => 100
                                    end);
                            page := Some (1 + Z.of_nat i);
                            otherFilters :=
                              match params with
                              | Some p => otherFilters p
                              | None => []
                              end |})
                  (seq 0 n)).
Proof.
  split.
  - intros status perPage out log Hrun. unfold getAll in Hrun.
    destruct (fetchPages_calls _ _ _ _ _ _ _ _ Hrun) as (n & Hn & Hlog).
    exists n. split; [exact Hn|]. rewrite Hlog. cbn [app].
    apply map_ext. intros i. destruct status as [[| | | |]|]; reflexivity.
  - intros params out log Hrun. unfold listAll in Hrun.
    destruct (fetchPages_calls _ _ _ _ _ _ _ _ Hrun) as (n & Hn & Hlog).
    exists n. split; [exact Hn|]. rewrite Hlog. cbn [app].
    apply map_ext. intros i.
    destruct params as [[st [pp|] pg others]|]; reflexivity.
Qed.

End PaginatorRuns.

Lemma paginator_failure_witness :
  let script n :=
    match n with
    | O => Return (seq 0 100)
    | _ => Throw (ThrownValue (JStr "offline"))
    end in
  exists reqs,
    ProductsClient.getAll nat (Recording.scripted script) 2 None None []
    = Some (Throw (ThrownValue (JStr "offline")), map Recording.Called reqs)
    /\ map ProductsClient.page reqs = [Some 1; Some 2].
Proof.
  intros script.
  apply (proj1 (paginator_failure (engine := referenceEngine) nat script [seq 0 100]%nat
                  (ThrownValue (JStr "offline")) None 2
                  ltac:(repeat constructor; vm_compute; discriminate)
                  ltac:(intros [|i] pg Hi;
                        [injection Hi as <-; reflexivity
                        | destruct i; discriminate])
                  (or_introl eq_refl)
                  ltac:(cbn; lia))
           None).
Defined.

Lemma paginator_requests_witness :
  exists n,
    (1 <= n <= 5)%nat
    /\ [Recording.Called
          {| ProductsClient.status := None;
             ProductsClient.per_page := Some 2;
             ProductsClient.page := Some 1;
             ProductsClient.otherFilters := [] |};
        Recording.Called
          {| ProductsClient.status := None;
             ProductsClient.per_page := Some 2;
             ProductsClient.page := Some 2;
             ProductsClient.otherFilters := [] |}]
       = map (fun i =>
                Recording.Called
                  {| ProductsClient.status := None;
                     ProductsClient.per_page := Some 2;
                     ProductsClient.page := Some (1 + Z.of_nat i);
                     ProductsClient.otherFilters := [] |})
           (seq 0 n).
Proof.
  exact (proj1 (paginator_requests nat
                  (Recording.pagesScript [[0; 1]; [7]]%nat) 5)
           (Some ProductsClient.any) (Some 2) (Return [0; 1; 7]%nat) _ eq_refl).
Defined.

Section PaginatorDiverges.

Context {engine : Engine}.

Import ProductsClient.
Local Open Scope list_scope.

Context {W : Type}.
Variable P : Type.
Variable list_ : ListProductsParams -> Async W (list P).

(** While every answer is a full page the loop goes on: no amount of
    fuel lets it end. *)
Lemma fetchPages_full_pages (params : Z -> ListProductsParams) (perPage : Z) :
  (forall req w, exists pg w',
      list_ req w = (Return pg, w')
      /\ perPage <= Z.of_nat (List.length pg) <= argumentLimit) ->
  forall fuel acc page w,
    fetchPages P list_ fuel params perPage acc page w = None.
Proof.
  intros Hfull. induction fuel as [|fuel IH]; intros acc page w; [reflexivity|].
  cbn [fetchPages].
  destruct (Hfull (params page) w) as (pg & w' & -> & Hpg).
  rewrite (pushSpread_within acc pg) by lia.
  replace (Z.of_nat (List.length pg) <? perPage) with false
    by (symmetry; apply Z.ltb_ge; lia).
  apply IH.
Qed.

(** X16 (getAll, listAll). The paginators end only on a failure, on a
    page shorter than the page size, or on a page with more items than
    the engine takes as the arguments of one call: when the listing
    operation always answers with a page of at least the page size and
    within that limit, the loop never ends, and the call does not
    return. This is so for every listing operation that does not fail
    and answers within the limit when the page size is 0 or negative,
    as no page is shorter than that. *)
Theorem paginator_never_returns (perPage : option Z) :
  let size := match perPage with Some n => n | None => 100 end in
  (forall req w, exists pg w',
      list_ req w = (Return pg, w')
      /\ Z.of_nat (List.length pg) <= argumentLimit
      /\ (size <= 0 \/ size <= Z.of_nat (List.length pg))) ->
  forall fuel w,
    (forall status, getAll P list_ fuel status perPage w = None)
    /\ (forall params,
           match params with Some p => per_page p | None => None end = perPage ->
           listAll P list_ fuel params w = None).
Proof.
  intros size Hfull fuel w.
  assert (Hfull' : forall req w0, exists pg w',
             list_ req w0 = (Return pg, w')
             /\ size <= Z.of_nat (List.length pg) <= argumentLimit).
  { intros req w0.
    destruct (Hfull req w0) as (pg & w' & Hrun & Hlimit & Hsize).
    exists pg, w'. split; [exact Hrun | lia]. }
  split.
  - intros status. unfold getAll. fold size.
    now apply fetchPages_full_pages.
  - intros params Hparams. unfold listAll.
    replace (match params with
             | Some p => match per_page p with Some n => n | None => 100 end
             | None => 100
             end) with size
      by (subst size; rewrite <- Hparams; destruct params; reflexivity).
    now apply fetchPages_full_pages.
Qed.

End PaginatorDiverges.

Lemma paginator_never_returns_witness :
  ProductsClient.getAll nat
    (Recording.scripted (Recording.pagesScript [[1; 2; 3]]%nat))
    1000 None (Some 0) []
  = None.
Proof.
  assert (Hpages :
           forall (req : ProductsClient.ListProductsParams)
                  (w : Recording.Log ProductsClient.ListProductsParams),
           exists pg w',
             Recording.scripted (Recording.pagesScript [[1; 2; 3]]%nat) req w
             = (Return pg, w')
             /\ Z.of_nat (List.length pg) <= argumentLimit
             /\ (0 <= 0 \/ 0 <= Z.of_nat (List.length pg))).
  { intros req w. do 2 eexists. split; [reflexivity|]. split; [|left; lia].
    unfold Recording.pagesScript.
    destruct (List.length (Recording.calls w)) as [|[|n]];
      vm_compute; congruence. }
  exact (proj1 (@paginator_never_returns referenceEngine _ nat
                  (Recording.scripted (Recording.pagesScript [[1; 2; 3]]%nat))
                  (Some 0) Hpages 1000%nat [])
           None).
Defined.

(** ** batchUpdate: a failing chunk, the number of chunks *)

Section BatchAbort.

Context {engine : Engine}.

Import ProductsClient Recording.
Local Open Scope list_scope.

Local Abbreviation Req := (string * BatchProductsRequest)%type.

Variable P : Type.
Variable env : option string.
Variable script : nat -> Outcome (BatchProductsResponse P).

Let post (endpoint : string) (body : BatchProductsRequest) :=
  scripted script (endpoint, body).

(** What a turn that is followed by another one logs. *)
Let inner (batches : list (list StockUpdate)) (i : nat) : Log Req :=
  [Called (batchRequestOf (nth i batches [])); Slept (delayMs env)].

Lemma firstn_nths {B : Type} (d : B) (l : list B) :
  forall k, (k <= List.length l)%nat ->
            map (fun i => nth i l d) (seq 0 k) = firstn k l.
Proof.
  induction l as [|x l IH]; intros [|k] Hk; try reflexivity;
    [cbn in Hk; lia|].
  cbn [seq map nth firstn]. f_equal.
  rewrite <- seq_shift, map_map. apply IH. cbn in Hk. lia.
Qed.

(** The request goes through: the server answers it, with no more
    products than the engine takes as the arguments of one call. *)
Let passes (n : nat) : Prop :=
  exists resp,
    script n = Return resp
    /\ Z.of_nat (List.length (updated resp)) <= argumentLimit.

(** The request does not: the server fails with [t], or [t] is the
    [RangeError] for the products of its answer, which are more than
    that. *)
Let fails (n : nat) (t : Thrown) : Prop :=
  script n = Throw t
  \/ (exists resp products,
         script n = Return resp
         /\ update resp = Some products
         /\ argumentLimit < Z.of_nat (List.length products)
         /\ t = ThrownError rangeError).

(** The submission loop on a script on which [k] requests go through
    and the next one does not. *)
Lemma submitLoop_abort (batches : list (list StockUpdate)) (t : Thrown) :
  forall k a n allResults log,
    (a + n = List.length batches)%nat ->
    List.length (calls log) = a ->
    (k < n)%nat ->
    (forall j, (j < k)%nat -> passes (a + j)) ->
    fails (a + k) t ->
    @submitLoop _ (Log Req) (logTimers Req) P post env batches (seq a n)
      allResults log
    = (Throw t,
       log ++ flat_map (inner batches) (seq a k)
         ++ [Called (batchRequestOf (nth (a + k) batches []))]).
Proof.
  induction k as [|k IH]; intros a n allResults log Hlen Hlog Hk Hok Hfail;
    (destruct n as [|n]; [lia|]); cbn [seq submitLoop];
    assert (Ha : (a < List.length batches)%nat) by lia;
    rewrite (nth_error_nth' batches [] Ha);
    unfold bind at 1; unfold post at 1, scripted at 1; rewrite Hlog.
  - rewrite Nat.add_0_r in Hfail. cbn [flat_map app]. rewrite Nat.add_0_r.
    destruct Hfail as [Hthrow | (resp & products & Hresp & Hup & Hlen' & ->)].
    + now rewrite Hthrow.
    + rewrite Hresp. unfold bind at 1. rewrite Hup.
      now rewrite (pushSpread_beyond allResults products Hlen').
  - destruct (Hok 0%nat ltac:(lia)) as (resp & Hresp & Hbound).
    rewrite Nat.add_0_r in Hresp. rewrite Hresp.
    unfold bind at 1. unfold updated in Hbound.
    destruct (update resp) as [products|];
      [rewrite (pushSpread_within allResults products Hbound)
      |unfold ret at 1];
      unfold bind at 1;
      replace (Z.of_nat a <? Z.of_nat (List.length batches) - 1) with true
        by (symmetry; apply Z.ltb_lt; lia);
      cbn [timerResolve logTimers]; fold post;
      (rewrite (IH (S a) n); try lia;
       [f_equal; cbn [seq flat_map]; unfold inner at 2;
        rewrite <- !app_assoc; cbn [app];
        replace (S a + k)%nat with (a + S k)%nat by lia; reflexivity
       |rewrite !calls_app, !length_app; cbn; lia
       |intros j Hj;
        replace (S a + j)%nat with (a + S j)%nat by lia;
        apply Hok; lia
       |replace (S a + k)%nat with (a + S k)%nat by lia; exact Hfail]).
Qed.

Lemma calls_inner (batches : list (list StockUpdate)) (indices : list nat) :
  calls (flat_map (inner batches) indices)
  = map (fun i => batchRequestOf (nth i batches [])) indices.
Proof.
  induction indices as [|i indices IH]; [reflexivity|].
  cbn [flat_map map]. rewrite calls_app, IH. reflexivity.
Qed.

Lemma sleeps_inner (batches : list (list StockUpdate)) (indices : list nat) :
  sleeps (flat_map (inner batches) indices)
  = repeat (delayMs env) (List.length indices).
Proof.
  induction indices as [|i indices IH]; [reflexivity|].
  cbn [flat_map List.length repeat]. rewrite sleeps_app, IH. reflexivity.
Qed.

(** X17 (batchUpdate). When the first [k] batch requests go through
    and the next one does not, [batchUpdate] fails: the chunks up to
    the failing one have been submitted, in order and with a pause
    after each but the failing one, no later chunk is submitted, and
    the products of the chunks that went through are not returned.  A
    request goes through when the server answers it with no more
    products than the engine takes as the arguments of one call (the
    code collects them with [push(...response.update)]); it does not
    when the server fails, which is then the error of [batchUpdate],
    or when it answers with more products than that, and the error is
    the engine's [RangeError]. *)
Theorem batchUpdate_aborts (updates : list StockUpdate) (k : nat) (t : Thrown) :
  let batches := splitBatches updates in
  let run :=
    @batchUpdate _ (Log Req) (logTimers Req) P post env updates [] in
  (forall j, (j < k)%nat ->
             exists resp,
               script j = Return resp
               /\ Z.of_nat (List.length (updated resp)) <= argumentLimit) ->
  script k = Throw t
  \/ (exists resp products,
         script k = Return resp
         /\ update resp = Some products
         /\ argumentLimit < Z.of_nat (List.length products)
         /\ t = ThrownError rangeError) ->
  (k < List.length batches)%nat ->
  fst run = Throw t
  /\ calls (snd run) = map batchRequestOf (firstn (S k) batches)
  /\ sleeps (snd run) = repeat (delayMs env) k.
Proof.
  intros batches run Hok Hfail Hk.
  assert (Hrun :
           run = (Throw t,
                  flat_map (inner batches) (seq 0 k)
                    ++ [Called (batchRequestOf (nth k batches []))])).
  { subst run. unfold batchUpdate.
    destruct updates as [|u updates'] eqn:Hu; [cbn in Hk; lia|].
    cbn [List.length Nat.eqb]. fold batches. unfold bind.
    rewrite (submitLoop_abort batches t k 0%nat (List.length batches) [] []);
      try assumption; reflexivity. }
  rewrite Hrun. cbn [fst snd].
  split; [reflexivity|]. split.
  - rewrite calls_app, calls_inner. cbn [calls flat_map app].
    rewrite <- (firstn_nths [] batches (S k)) by lia.
    rewrite seq_S, map_app, map_app, map_map. reflexivity.
  - rewrite sleeps_app, sleeps_inner, length_seq. cbn [sleeps flat_map].
    now rewrite app_nil_r.
Qed.

End BatchAbort.

(** A run on 250 items whose second request the server fails: the
    first two chunks are submitted, with one pause between them. *)
Lemma batchUpdate_aborts_witness :
  let item i :=
    {| ProductsClient.id := Num (Z.of_nat i);
       ProductsClient.stock_quantity := Num 7;
       ProductsClient.otherProps := [] |} in
  let script n :=
    match n with
    | O => Return {| ProductsClient.create := None;
                     ProductsClient.update := Some [1; 2; 3]%nat;
                     ProductsClient.delete := None |}
    | _ => Throw (ThrownValue (JStr "offline"))
    end in
  let run :=
    @ProductsClient.batchUpdate _ _ (Recording.logTimers _) nat
      (fun endpoint body => Recording.scripted script (endpoint, body))
      None (map item (seq 0 250)) [] in
  fst run = Throw (ThrownValue (JStr "offline"))
  /\ Recording.calls (snd run)
     = [batchRequestOf (map item (seq 0 100));
        batchRequestOf (map item (seq 100 100))]
  /\ Recording.sleeps (snd run) = [Num 100].
Proof.
  intros item script run.
  apply (batchUpdate_aborts (engine := referenceEngine) nat None script
           (map item (seq 0 250)) 1 (ThrownValue (JStr "offline"))).
  - intros [|j] Hj; [|lia]. eexists. split; [reflexivity|].
    vm_compute. congruence.
  - left. reflexivity.
  - vm_compute. lia.
Defined.

Section ChunkCount.

Context {engine : Engine}.

Import ProductsClient.
Local Open Scope list_scope.
Local Open Scope nat_scope.

Context {A : Type}.

Lemma chunksOf_count (size : nat) (Hsize : 0 < size) (fuel : nat) :
  forall l : list A,
    List.length l <= fuel ->
    List.length (chunksOf size fuel l) = (List.length l + (size - 1)) / size.
Proof.
  induction fuel as [|fuel IH]; intros l Hlen.
  - destruct l; [|cbn in Hlen; lia]. cbn [chunksOf List.length].
    symmetry. apply Nat.div_small. lia.
  - cbn [chunksOf]. destruct l as [|x l].
    + cbn [List.length]. symmetry. apply Nat.div_small. lia.
    + cbn [List.length]. rewrite IH
        by (rewrite length_skipn; cbn [List.length] in *; lia).
      rewrite length_skipn. cbn [List.length].
      destruct (Nat.le_gt_cases (S (List.length l)) size) as [Hle|Hgt].
      * replace (S (List.length l) - size) with 0 by lia.
        rewrite (Nat.div_small (0 + (size - 1))) by lia.
        apply (Nat.div_unique _ _ 1 (List.length l)); lia.
      * replace (S (List.length l) + (size - 1))
          with ((S (List.length l) - size + (size - 1)) + 1 * size) by lia.
        rewrite Nat.div_add by lia. lia.
Qed.

(** X18 (batchUpdate). The number of batch requests is the number of
    items divided by 100, rounded up: none for no item, one for 1 to
    100 items, two for 101 to 200. *)
Theorem splitBatches_count (updates : list A) :
  List.length (splitBatches updates) = (List.length updates + 99) / 100.
Proof.
  rewrite splitBatches_chunksOf.
  apply (chunksOf_count BATCH_SIZE); unfold BATCH_SIZE; lia.
Qed.

End ChunkCount.

Section RateLimit.

Context {engine : Engine}.

(** X19 (batchUpdate). The pause between two batch requests is 100 ms
    when WOOCOMMERCE_RATE_LIMIT_DELAY_MS is unset or empty, the number
    the variable denotes when it is made of decimal digits that denote
    no more than [2^53] (so "0" gives a pause of 0 ms), and [NaN] when
    it starts with an ASCII character that is no digit, no sign and no
    white space. *)
Theorem delayMs_value (env : option string) :
  (env = None \/ env = Some "" -> ProductsClient.delayMs env = Num 100)
  /\ (forall s, env = Some s -> isNumeric s = true ->
                decimalValue s <= 2 ^ 53 ->
                ProductsClient.delayMs env = Num (decimalValue s))
  /\ (forall c rest,
         env = Some (String c rest) ->
         isAsciiChar c = true ->
         isDigit c = false -> Utils.isWhiteSpace c = false ->
         Ascii.eqb c "-" = false -> Ascii.eqb c "+" = false ->
         ProductsClient.delayMs env = NaN).
Proof.
  unfold ProductsClient.delayMs. split; [|split].
  - intros [-> | ->]; reflexivity.
  - intros s -> Hs Hbound. pose proof Hs as Hs'. unfold isNumeric in Hs'.
    apply andb_prop in Hs' as [Hne _].
    apply negb_true_iff in Hne. rewrite Hne.
    now apply parseInt10_numeric.
  - intros c rest -> Ha Hd Hw Hm Hp. cbn [String.eqb].
    now apply parseInt10_not_a_number.
Qed.

End RateLimit.

Lemma delayMs_value_witness :
  ProductsClient.delayMs (Some "250") = Num 250.
Proof.
  exact (proj1 (proj2 (delayMs_value (Some "250"))) "250" eq_refl eq_refl
           ltac:(vm_compute; congruence)).
Defined.

(** ** The resource clients: requests for one product or customer *)

Section NumberText.

Context {engine : Engine}.

Lemma digits_unreserved (d : Decimal.uint) :
  allChars Utils.unreserved (NilEmpty.string_of_uint d) = true.
Proof.
  induction d; cbn [NilEmpty.string_of_uint allChars]; try reflexivity;
    rewrite IHd; reflexivity.
Qed.

Lemma string_of_uint_unreserved (d : Decimal.uint) :
  allChars Utils.unreserved (NilZero.string_of_uint d) = true.
Proof. destruct d; try reflexivity; apply digits_unreserved. Qed.

(** [NaN] or a safe integer in a template literal is written with
    unreserved characters only. *)
Lemma numberToString_unreserved (n : JsNumber) :
  isSafeNumber n = true ->
  allChars Utils.unreserved (numberToString n) = true.
Proof.
  destruct n as [|z]; [reflexivity|]. cbn [isSafeNumber numberToString].
  intros ->.
  destruct (Z.to_int z) as [d|d]; cbn [NilZero.string_of_int allChars];
    now rewrite string_of_uint_unreserved.
Qed.

Lemma encodeURIComponent_unreserved (s : string) :
  allChars Utils.unreserved s = true -> Utils.encodeURIComponent s = s.
Proof.
  induction s as [|c s IH]; intros Hs; [reflexivity|].
  cbn [allChars] in Hs. apply andb_prop in Hs as [Hc Hs].
  cbn [Utils.encodeURIComponent]. now rewrite Hc, (IH Hs).
Qed.

Lemma id_path_no_query (resource : string) (n : JsNumber) :
  allChars Utils.unreserved resource = true ->
  isSafeNumber n = true ->
  includes (resource ++ "/" ++ numberToString n) "?" = false.
Proof.
  intros Hres Hsafe. apply includes_char_none.
  apply (allChars_countChar (fun c => Utils.unreserved c || Ascii.eqb c "/"));
    [|reflexivity].
  rewrite !allChars_app.
  rewrite (allChars_weaken Utils.unreserved _ resource),
    (allChars_weaken Utils.unreserved _ (numberToString n));
    try reflexivity;
    try (intros c Hc; now rewrite Hc);
    [now apply numberToString_unreserved | exact Hres].
Qed.

End NumberText.

Section OneResource.

Context {engine : Engine}.

Import BaseClient Recording.
Local Open Scope list_scope.

Variable JSON_stringify : JsValue -> string.
Variable responses : nat -> Outcome Response.
Variable sign : string * string -> string -> string -> string.
Variable this : Client.

Hypothesis queryStringMode : clientQueryStringAuth this = true.

Local Abbreviation host := (recordingHost responses sign).

(** What is fetched for the endpoint [target]: its URL, the credentials
    after it. *)
Let sent (verb target : string) (body' : option string)
  : list (string * RequestInit) :=
  [((endpointUrl this target
       ++ (if includes (endpointUrl this target) "?" then "&" else "?")
       ++ credentials this)%string,
    {| method := Some verb; headers := defaultHeaders; body := body' |})].

(** X20 (getProduct, update, deleteProduct). The methods on one product
    fetch [products/<id>], the id written as [String(id)]:
    [getProduct] with GET, [update] with PUT and the JSON text of the
    updates as body, and, for an id that is [NaN] or a safe integer
    (written in decimal, without a question mark), [deleteProduct]
    with DELETE and the query [force=true] or [force=false], which is
    [force=false] when no [force] is given. *)
Theorem product_requests (productId : JsNumber) :
  let path := ("products/" ++ numberToString productId)%string in
  fetches (snd (@Products.getProduct _ _ host JSON_stringify this productId []))
  = sent "GET" path None
  /\ (forall updates,
        fetches (snd (@Products.update _ _ host JSON_stringify this productId
                        updates []))
        = sent "PUT" path
            (if truthy updates then Some (JSON_stringify updates) else None))
  /\ (forall force,
        isSafeNumber productId = true ->
        fetches (snd (@Products.deleteProduct _ _ host JSON_stringify this
                        productId force []))
        = sent "DELETE"
            (path ++ "?force="
               ++ match force with Some true => "true" | _ => "false" end)
            None).
Proof.
  intros path. subst path sent. cbv beta. split; [|split].
  - unfold Products.getProduct.
    now rewrite (get_fetches JSON_stringify responses sign this _ None
                   queryStringMode).
  - intros updates. unfold Products.update, put.
    now rewrite (request_fetches_query_string responses sign this _ _
                   queryStringMode).
  - intros force Hsafe. unfold Products.deleteProduct.
    rewrite (delete_fetches JSON_stringify responses sign this _ _
               queryStringMode).
    cbv zeta.
    pose proof (id_path_no_query "products" productId eq_refl Hsafe) as Hpath.
    change (includes ("products/" ++ numberToString productId) "?" = false)
      in Hpath.
    rewrite Hpath. destruct force as [[|]|]; reflexivity.
Qed.

(** X21 (deleteCustomer). For a customer id that is [NaN] or a safe
    integer, [deleteCustomer] fetches [customers/<id>?force=<force>]
    with DELETE, [force] being false when it is not given; [reassign]
    is added to the query exactly when it is given, also when it is 0,
    as the percent-encoded [String(reassign)]. *)
Theorem deleteCustomer_request (customerId : JsNumber) (force : option bool)
  (reassign : option JsNumber) :
  isSafeNumber customerId = true ->
  fetches (snd (@Customers.deleteCustomer _ _ host JSON_stringify this
                  customerId force reassign []))
  = sent "DELETE"
      ("customers/" ++ numberToString customerId
         ++ "?force=" ++ match force with Some true => "true" | _ => "false" end
         ++ match reassign with
            | Some n =>
                "&reassign=" ++ Utils.encodeURIComponent (numberToString n)
            | None => ""
            end)
      None.
Proof.
  intros Hsafe. subst sent. cbv beta. unfold Customers.deleteCustomer.
  rewrite (delete_fetches JSON_stringify responses sign this _ _
             queryStringMode).
  pose proof (id_path_no_query "customers" customerId eq_refl Hsafe) as Hpath.
  change (includes ("customers/" ++ numberToString customerId) "?" = false)
    in Hpath.
  destruct reassign as [n|].
  - cbn [setProp String.eqb Ascii.eqb Bool.eqb]. cbv zeta. rewrite Hpath.
    unfold Utils.buildQueryString, Utils.queryParts.
    cbn [fold_left Utils.pushParam push app toString].
    destruct force as [[|]|]; reflexivity.
  - cbv zeta. rewrite Hpath. destruct force as [[|]|]; reflexivity.
Qed.

End OneResource.

Lemma product_requests_witness :
  let config :=
    {| BaseClient.url := "https://shop.test"; BaseClient.consumerKey := "ck";
       BaseClient.consumerSecret := "cs"; BaseClient.version := None;
       BaseClient.timeout := None; BaseClient.queryStringAuth := None |} in
  Recording.fetches
    (snd (@Products.deleteProduct _ _
            (Recording.recordingHost
               (fun _ => Throw (ThrownValue JUndefined)) (fun _ _ _ => ""))
            (fun _ => "") (BaseClient.constructor config) (Num 42) None []))
  = [("https://shop.test/wp-json/wc/v3/products/42?force=false&consumer_key=ck&consumer_secret=cs",
      {| BaseClient.method := Some "DELETE";
         BaseClient.headers := defaultHeaders;
         BaseClient.body := None |})].
Proof.
  intros config.
  exact (proj2 (proj2 (product_requests (fun _ => "")
                         (fun _ => Throw (ThrownValue JUndefined))
                         (fun _ _ _ => "") (BaseClient.constructor config)
                         eq_refl (Num 42)))
           None eq_refl).
Defined.

Lemma deleteCustomer_request_witness :
  let config :=
    {| BaseClient.url := "https://shop.test"; BaseClient.consumerKey := "ck";
       BaseClient.consumerSecret := "cs"; BaseClient.version := None;
       BaseClient.timeout := None; BaseClient.queryStringAuth := None |} in
  Recording.fetches
    (snd (@Customers.deleteCustomer _ _
            (Recording.recordingHost
               (fun _ => Throw (ThrownValue JUndefined)) (fun _ _ _ => ""))
            (fun _ => "") (BaseClient.constructor config) (Num 7) (Some true)
            (Some (Num 0)) []))
  = [("https://shop.test/wp-json/wc/v3/customers/7?force=true&reassign=0&consumer_key=ck&consumer_secret=cs",
      {| BaseClient.method := Some "DELETE";
         BaseClient.headers := defaultHeaders;
         BaseClient.body := None |})].
Proof.
  intros config.
  exact (deleteCustomer_request (fun _ => "")
           (fun _ => Throw (ThrownValue JUndefined))
           (fun _ _ _ => "") (BaseClient.constructor config)
           eq_refl (Num 7) (Some true) (Some (Num 0)) eq_refl).
Defined.

Section FindByEmail.

Context {engine : Engine}.

Import BaseClient Recording.
Local Open Scope list_scope.

Variable JSON_stringify : JsValue -> string.
Variable responses : nat -> Outcome Response.
Variable sign : string * string -> string -> string -> string.
Variable this : Client.

Local Abbreviation host := (recordingHost responses sign).

(** A success with a body: the call returns the parsed body. *)
Lemma request_ok_body (endpoint : string) (options : RequestInit)
  (r : Response) (v : JsValue) :
  responses 0%nat = Return r ->
  ok r = true ->
  status r <> 204 ->
  json r = Return v ->
  fst (@request _ _ host this endpoint options []) = Return v.
Proof.
  intros Hr Hok H204 Hjson. apply Z.eqb_neq in H204.
  unfold request, prepare.
  destruct (clientQueryStringAuth this);
    [| destruct (oauth this) as [consumer|]];
    cbn [oauthAuthorization setAbortTimeout recordingHost timersSet filter
           List.length app];
    unfold tryCatch, attempt, bind;
    cbn [fetch recordingHost fetches flat_map List.length app];
    rewrite Hr, Hok; cbn [negb]; unfold ret; rewrite H204, Hjson; reflexivity.
Qed.

(** X22 (findByEmail). [findByEmail] makes one GET request for
    [customers] with the percent-encoded address as [email] and
    [per_page=1]. When the answer is an array, the result is its first
    element, and null when the array is empty or its first element is
    null or undefined. *)
Theorem findByEmail_result (firstOfNonArray : JsValue -> Async _ JsValue)
  (email : string) (r : Response) (items : list JsValue) :
  clientQueryStringAuth this = true ->
  responses 0%nat = Return r ->
  ok r = true ->
  status r <> 204 ->
  json r = Return (JArr items) ->
  let run :=
    @Customers.findByEmail _ _ host JSON_stringify this firstOfNonArray email
      [] in
  fst run
  = Return match items with
           | [] => JNull
           | JUndefined :: _ | JNull :: _ => JNull
           | first :: _ => first
           end
  /\ fetches (snd run)
     = [((endpointUrl this
            ("customers?email=" ++ Utils.encodeURIComponent email
               ++ "&per_page=1")
            ++ "&" ++ credentials this)%string,
         {| method := Some "GET"%string; headers := defaultHeaders;
            body := None |})].
Proof.
  intros Hqs Hr Hok H204 Hjson run. subst run.
  unfold Customers.findByEmail, Customers.list.
  pose proof (get_fetches JSON_stringify responses sign this "customers"
                (Some [("email", JStr email); ("per_page", JNum (Num 1))])
                Hqs) as Hfetch.
  cbv beta iota zeta in Hfetch. rewrite queried_url_includes in Hfetch.
  pose proof (request_ok_body
                ("customers"
                   ++ (if includes "customers" "?" then "&" else "?")
                   ++ Utils.buildQueryString JSON_stringify
                        [("email", JStr email); ("per_page", JNum (Num 1))])
                {| method := Some "GET"%string; headers := []; body := None |}
                r (JArr items) Hr Hok H204 Hjson) as Hout.
  unfold get in *. unfold bind.
  match goal with
  | |- context [request ?t ?e ?o ?w] => destruct (request t e o w) as [out w']
  end.
  cbn [fst snd] in *. subst out.
  destruct items as [|first rest]; unfold ret; cbn [fst snd].
  - split; [reflexivity | exact Hfetch].
  - split; [destruct first; reflexivity | exact Hfetch].
Qed.

End FindByEmail.

Lemma findByEmail_result_witness :
  let config :=
    {| BaseClient.url := "https://shop.test"; BaseClient.consumerKey := "ck";
       BaseClient.consumerSecret := "cs"; BaseClient.version := None;
       BaseClient.timeout := None; BaseClient.queryStringAuth := None |} in
  let r :=
    {| BaseClient.ok := true; BaseClient.status := 200;
       BaseClient.statusText := "OK"; BaseClient.respHeaders := [];
       BaseClient.json := Return (JArr [JStr "ann"; JStr "bob"]) |} in
  let run :=
    @Customers.findByEmail _ _
      (Recording.recordingHost (fun _ => Return r) (fun _ _ _ => ""))
      (fun _ => "") (BaseClient.constructor config) Async.ret "a@b.c" [] in
  fst run = Return (JStr "ann")
  /\ Recording.fetches (snd run)
     = [("https://shop.test/wp-json/wc/v3/customers?email=a%40b.c&per_page=1&consumer_key=ck&consumer_secret=cs",
         {| BaseClient.method := Some "GET";
            BaseClient.headers := defaultHeaders;
            BaseClient.body := None |})].
Proof.
  intros config r run.
  exact (findByEmail_result (fun _ => "") (fun _ => Return r)
           (fun _ _ _ => "") (BaseClient.constructor config) Async.ret
           "a@b.c" r [JStr "ann"; JStr "bob"] eq_refl eq_refl eq_refl
           ltac:(discriminate) eq_refl).
Defined.

(** ** OrdersClient.getAll *)

Section OrdersPaginator.

Context {engine : Engine}.

Import Recording.
Local Open Scope list_scope.

Variable O : Type.
Variable script : nat -> Outcome (list O).

Let list_ := scripted (Req := OrdersClient.ListOrdersParams) script.

Let asked (status : option string) (perPage page : Z)
  : Event OrdersClient.ListOrdersParams :=
  Called {| OrdersClient.status := status;
            OrdersClient.per_page := Some perPage;
            OrdersClient.page := Some page |}.

Lemma getAllLoop_run (status : option string) (perPage : Z)
  (fulls : list (list O)) :
  forall fuel acc page log short,
    Forall (fun pg => perPage <= Z.of_nat (List.length pg) <= argumentLimit)
      fulls ->
    (forall i pg, nth_error fulls i = Some pg ->
                  script (List.length (calls log) + i) = Return pg) ->
    script (List.length (calls log) + List.length fulls) = Return short ->
    Z.of_nat (List.length short) < perPage ->
    Z.of_nat (List.length short) <= argumentLimit ->
    (List.length fulls < fuel)%nat ->
    OrdersClient.getAllLoop O list_ fuel status perPage acc page log
    = Some (Return (acc ++ List.concat fulls ++ short),
            log ++ map (fun i => asked status perPage (page + Z.of_nat i))
                       (seq 0 (S (List.length fulls)))).
Proof.
  induction fulls as [|pg fulls IH];
    intros fuel acc page log short Hfull Hscript Hshort Hlt Hlimit Hfuel;
    (destruct fuel as [|fuel]; [cbn in Hfuel; lia|]);
    cbn [OrdersClient.getAllLoop]; unfold list_, scripted at 1.
  - cbn [List.length] in Hshort. rewrite Nat.add_0_r in Hshort.
    rewrite Hshort, (pushSpread_within acc short Hlimit).
    replace (Z.of_nat (List.length short) <? perPage) with true
      by (symmetry; apply Z.ltb_lt; exact Hlt).
    cbn [List.concat app seq map List.length]. rewrite Z.add_0_r. reflexivity.
  - rewrite <- (Nat.add_0_r (List.length (calls log))).
    rewrite (Hscript 0%nat pg eq_refl).
    inversion Hfull as [|? ? Hpg Hrest]; subst.
    rewrite (pushSpread_within acc pg) by lia.
    replace (Z.of_nat (List.length pg) <? perPage) with false
      by (symmetry; apply Z.ltb_ge; lia).
    fold list_. fold (asked status perPage page).
    rewrite (IH fuel (acc ++ pg) (page + 1)
               (log ++ [asked status perPage page]) short);
      try assumption.
    + f_equal. f_equal.
      * cbn [List.concat]. now rewrite <- !app_assoc.
      * rewrite <- app_assoc. f_equal.
        cbn [List.length].
        change (seq 0 (S (S (List.length fulls))))
          with (0%nat :: seq 1 (S (List.length fulls))).
        rewrite <- seq_shift.
        cbn [map app]. rewrite Z.add_0_r. f_equal.
        rewrite map_map. apply map_ext. intros i. f_equal. lia.
    + intros i pg' Hi. rewrite calls_app, length_app.
      cbn [asked calls flat_map List.length app].
      rewrite <- (Hscript (S i) pg' Hi). f_equal. lia.
    + rewrite calls_app, length_app.
      cbn [asked calls flat_map List.length app].
      rewrite <- Hshort. f_equal. cbn [List.length]. lia.
    + cbn [List.length] in Hfuel. lia.
Qed.

(** X23 (OrdersClient.getAll). When the listing operation answers with
    full pages and then a shorter one, every page being one the engine
    takes as the arguments of one call (the code appends a page with
    [push(...orders)]), [getAll] returns the orders of all these pages
    in order, after asking once for each of the pages 1, 2, ... up to
    the short one, at 100 orders a page unless a size is given. Every
    request carries the status filter as the caller gave it, and none
    when the caller gave none. *)
Theorem orders_getAll_contract
  (fulls : list (list O)) (short : list O) (status : option string)
  (perPage : option Z) (fuel : nat) :
  let size := match perPage with Some n => n | None => 100 end in
  Forall (fun pg => size <= Z.of_nat (List.length pg) <= argumentLimit) fulls ->
  (forall i pg, nth_error fulls i = Some pg -> script i = Return pg) ->
  script (List.length fulls) = Return short ->
  Z.of_nat (List.length short) < size ->
  Z.of_nat (List.length short) <= argumentLimit ->
  (List.length fulls < fuel)%nat ->
  OrdersClient.getAll O list_ fuel status perPage []
  = Some (Return (List.concat fulls ++ short),
          map (fun i =>
                 Called {| OrdersClient.status := status;
                           OrdersClient.per_page := Some size;
                           OrdersClient.page := Some (1 + Z.of_nat i) |})
            (seq 0 (S (List.length fulls)))).
Proof.
  intros size Hfull Hscript Hshort Hlt Hlimit Hfuel.
  unfold OrdersClient.getAll. fold size.
  now rewrite (getAllLoop_run status size fulls fuel [] 1 [] short).
Qed.

End OrdersPaginator.

Lemma orders_getAll_contract_witness :
  OrdersClient.getAll nat
    (Recording.scripted (Recording.pagesScript [[1; 2]; [3]]%nat))
    2 (Some "completed") (Some 2) []
  = Some (Return [1; 2; 3]%nat,
          [Recording.Called
             {| OrdersClient.status := Some "completed";
                OrdersClient.per_page := Some 2;
                OrdersClient.page := Some 1 |};
           Recording.Called
             {| OrdersClient.status := Some "completed";
                OrdersClient.per_page := Some 2;
                OrdersClient.page := Some 2 |}]).
Proof.
  exact (orders_getAll_contract (engine := referenceEngine) nat
           (Recording.pagesScript [[1; 2]; [3]]%nat)
           [[1; 2]]%nat [3]%nat (Some "completed") (Some 2) 2
           ltac:(repeat constructor; vm_compute; discriminate)
           (fun i pg => pagesScript_full [[1; 2]]%nat [[3]]%nat i pg)
           (pagesScript_short [[1; 2]]%nat [] [3]%nat)
           ltac:(vm_compute; reflexivity)
           ltac:(vm_compute; discriminate)
           ltac:(cbn; lia)).
Defined.
